(** * Coordination core of the research-report generator

    A shallow embedding of the scheduler ([src/task_planner.py]), the memory
    store ([src/memory_manager.py], [src/utils/embeddings.py]), the retrieval
    merger ([src/search_agent.py]), the research stage
    ([src/agents/research_agent.py]), the saving of search results from a
    conversation ([src/conversation_manager.py]), the quality critic
    ([src/agents/quality_critic.py]) and the pipeline coordinator
    ([src/research_coordinator.py]), followed by the properties the
    specification states about them and by further properties of the same
    code.

    Conventions.  Python [int] is [Z].  [str] is [string], a text standing
    as its UTF-8 bytes: [len] counts code points, [strip] removes the
    code points [str.isspace] holds of, [in] and [==] are those of the
    bytes.  Where the code computes with floats (the quality critic) a
    [float] is a binary64 number of [SpecFloat], with its rounding, its
    infinities and its NaN; distances, similarities and relevance scores
    are rationals [Q], a similarity being [1 - distance] exactly.  A [dict]
    used as a record is a Rocq record, a [dict] used as a map is a [gmap].
    A list of objects mutated in place is a list updated by position, the
    position standing for the identity of the object.  The LLM, the
    embedding provider, the vector store and the clock are the environment:
    their answers are parameters of the functions that call them. *)

From Stdlib Require Import ZArith QArith Qround String Ascii List Bool Lia Lqa Sorted.
From Stdlib Require SpecFloat.
From stdpp Require Import base option list gmap strings.

Local Open Scope string_scope.
Local Open Scope list_scope.
Local Open Scope Z_scope.

(** ** Python values, exceptions and string primitives *)

Module Py.

(** The exception classes the modelled code raises or meets.  [Wrapped e] is
    [raise Exception(msg) from e]: a plain [Exception] carrying its cause. *)
Inductive exn : Type :=
| ValueError
| TypeError
| KeyError (key : string)
| AttributeError
| OverflowError
| RuntimeError
| ApiError
| Wrapped (cause : exn).

(** A call either returns a value or raises. *)
Inductive outcome (A : Type) : Type :=
| Return (a : A)
| Raise (e : exn).
Arguments Return {A} a.
Arguments Raise {A} e.

Definition returned {A} (o : outcome A) : option A :=
  match o with Return a => Some a | Raise _ => None end.

(** Methods of an object: the object's state goes in and comes out, and an
    exception leaves the state as it was when it was raised. *)
Definition M (S A : Type) : Type := S -> S * outcome A.

Definition ret {S A} (a : A) : M S A := fun s => (s, Return a).

Definition raise {S A} (e : exn) : M S A := fun s => (s, Raise e).

Definition bind {S A B} (m : M S A) (k : A -> M S B) : M S B :=
  fun s =>
    match m s with
    | (s', Return a) => k a s'
    | (s', Raise e) => (s', Raise e)
    end.

(** [try: m  except Exception as e: handler e] *)
Definition try_except {S A} (m : M S A) (handler : exn -> M S A) : M S A :=
  fun s =>
    match m s with
    | (s', Raise e) => handler e s'
    | done => done
    end.

Definition gets {S A} (f : S -> A) : M S A := fun s => (s, Return (f s)).

Definition modify {S} (f : S -> S) : M S unit := fun s => (f s, Return tt).

(** A method of a field object, run on that field. *)
Definition on_field {S F A} (get : S -> F) (set : S -> F -> S) (m : M F A)
    : M S A :=
  fun s => let '(f, r) := m (get s) in (set s f, r).

(** What [json.loads] produces from a JSON text.  [JFloat q] is the float
    that a number literal of value [q] denotes, the float nearest to [q]
    (JSON has no literal for an infinity or a NaN). *)
#[warnings="-register-all"]
Inductive json : Type :=
| JNull
| JBool (b : bool)
| JInt (z : Z)
| JFloat (q : Q)
| JStr (s : string)
| JList (items : list json)
| JDict (entries : list (string * json)).

(** [d.get(key)] / [key in d] on a decoded object: a decoded object has one
    entry per key, the lookup takes the first. *)
Fixpoint dict_get (entries : list (string * json)) (key : string) : option json :=
  match entries with
  | [] => None
  | (k, v) :: rest => if String.eqb k key then Some v else dict_get rest key
  end.

(** A byte that continues a UTF-8 sequence ([10xxxxxx]). *)
Definition continuation (c : ascii) : bool :=
  let n := nat_of_ascii c in (128 <=? n)%nat && (n <? 192)%nat.

(** The number of code points of a text: every code point has one byte that
    is not a continuation. *)
Fixpoint code_points (s : string) : nat :=
  match s with
  | EmptyString => O
  | String c rest =>
      if continuation c then code_points rest else S (code_points rest)
  end.

(** [len(s)] *)
Definition len (s : string) : Z := Z.of_nat (code_points s).

(** [c.isspace()] for the code points of one byte: tab, LF, VT, FF, CR, FS,
    GS, RS, US and the space. *)
Definition isspace (c : ascii) : bool :=
  let n := nat_of_ascii c in
  ((9 <=? n)%nat && (n <=? 13)%nat) || ((28 <=? n)%nat && (n <=? 32)%nat).

(** [isspace] for the code points of two bytes: U+0085 and U+00A0. *)
Definition isspace2 (a b : ascii) : bool :=
  let a := nat_of_ascii a in
  let b := nat_of_ascii b in
  (a =? 194)%nat && ((b =? 133)%nat || (b =? 160)%nat).

(** [isspace] for the code points of three bytes: U+1680, U+2000 to U+200A,
    U+2028, U+2029, U+202F, U+205F and U+3000. *)
Definition isspace3 (a b c : ascii) : bool :=
  let a := nat_of_ascii a in
  let b := nat_of_ascii b in
  let c := nat_of_ascii c in
  ((a =? 225)%nat && (b =? 154)%nat && (c =? 128)%nat)
  || ((a =? 226)%nat && (b =? 128)%nat
      && (((128 <=? c)%nat && (c <=? 138)%nat)
          || (c =? 168)%nat || (c =? 169)%nat || (c =? 175)%nat))
  || ((a =? 226)%nat && (b =? 129)%nat && (c =? 159)%nat)
  || ((a =? 227)%nat && (b =? 128)%nat && (c =? 128)%nat).

(** [s.lstrip()] *)
Fixpoint lstrip (s : string) : string :=
  match s with
  | EmptyString => EmptyString
  | String a rest =>
      if isspace a then lstrip rest
      else
        match rest with
        | EmptyString => s
        | String b rest2 =>
            if isspace2 a b then lstrip rest2
            else
              match rest2 with
              | EmptyString => s
              | String c rest3 => if isspace3 a b c then lstrip rest3 else s
              end
        end
  end.

(** [s.rstrip()]: the text up to where only whitespace follows. *)
Fixpoint rstrip (s : string) : string :=
  match s with
  | EmptyString => EmptyString
  | String c rest =>
      match lstrip s with
      | EmptyString => EmptyString
      | _ => String c (rstrip rest)
      end
  end.

(** [s.strip()] *)
Definition strip (s : string) : string := rstrip (lstrip s).

(** Truthiness of a [str]: [not s] *)
Definition falsy (s : string) : bool :=
  match s with EmptyString => true | _ => false end.

(** [not text or not text.strip()] *)
Definition blank (text : string) : bool := falsy text || falsy (strip text).

(** [needle in hay] on strings *)
Fixpoint contains (needle hay : string) : bool :=
  if String.prefix needle hay then true
  else match hay with
       | EmptyString => false
       | String _ rest => contains needle rest
       end.

(** *** Floats

    A [float] is an IEEE 754 binary64 number: the operations are those of
    [SpecFloat] at 53 bits of precision, rounding to the nearest, a tie going
    to the even mantissa. *)
Module Float.
Import SpecFloat.

Definition t : Type := spec_float.

Definition prec : Z := 53.
Definition emax : Z := 1024.

Definition zero : t := S754_zero false.

(** The float nearest to an integer; an infinity for an integer that is out
    of range. *)
Definition of_Z (z : Z) : t := binary_normalize prec emax z 0 false.

(** The integers [float(z)] refuses with [OverflowError]: those that round
    to an infinity, from [2^1024 - 2^970] on. *)
Definition overflows (z : Z) : bool := 2 ^ 1024 - 2 ^ 970 <=? Z.abs z.

(** An integer as the mantissa of a quotient. *)
Definition whole (z : Z) : t :=
  match z with
  | Z0 => S754_zero false
  | Zpos m => S754_finite false m 0
  | Zneg m => S754_finite true m 0
  end.

(** The float nearest to a rational: what a decimal literal denotes. *)
Definition of_Q (q : Q) : t :=
  SFdiv prec emax (whole (Qnum q)) (whole (Zpos (Qden q))).

(** [x + y], [x / y] for a divisor that is not zero, [x < y], [x <= y] *)
Definition add : t -> t -> t := SFadd prec emax.
Definition div : t -> t -> t := SFdiv prec emax.
Definition ltb : t -> t -> bool := SFltb.
Definition leb : t -> t -> bool := SFleb.

(** [min(a, b)] and [max(a, b)]: the first argument unless the second is
    strictly smaller (larger); a NaN is neither. *)
Definition min (a b : t) : t := if ltb b a then b else a.
Definition max (a b : t) : t := if ltb a b then b else a.

(** The rational a finite float is. *)
Definition value (x : t) : option Q :=
  match x with
  | S754_zero _ => Some 0%Q
  | S754_finite s m e =>
      let n := if s then Zneg m else Zpos m in
      Some (match e with
            | Zneg p => n # (2 ^ p)%positive
            | _ => inject_Z (n * 2 ^ e)
            end)
  | _ => None
  end.

(** [x == 0] *)
Definition is_zero (x : t) : bool :=
  match x with S754_zero _ => true | _ => false end.

Definition negative (x : t) : bool :=
  match x with
  | S754_zero s | S754_infinity s | S754_finite s _ _ => s
  | S754_nan => false
  end.

(** The integer nearest to a rational, a tie going to the even one. *)
Definition half_even (x : Q) : Z :=
  let below := Qfloor x in
  let rest := (x - inject_Z below)%Q in
  if Qle_bool rest (1 # 2) then
    if Qle_bool (1 # 2) rest then (if Z.even below then below else below + 1)
    else below
  else below + 1.

(** [round(x, 1)]: the value of [x] is rounded to one decimal, a tie going
    to the even digit, and the float nearest to that decimal is returned; a
    zero keeps the sign of [x], infinities and NaN round to themselves. *)
Definition round1 (x : t) : t :=
  match value x with
  | None => x
  | Some q =>
      match half_even (q * 10) with
      | Z0 => S754_zero (negative x)
      | tenths => of_Q (tenths # 10)
      end
  end.

End Float.

(** [sorted(l, key=key)]: Python's sort is stable, so the result is the one
    list that is ordered by key and keeps equal keys in their input order;
    insertion from the right computes it. *)
Fixpoint insert_by {A} (le : A -> A -> bool) (x : A) (l : list A) : list A :=
  match l with
  | [] => [x]
  | y :: rest => if le x y then x :: y :: rest else y :: insert_by le x rest
  end.

Fixpoint sorted_by {A} (le : A -> A -> bool) (l : list A) : list A :=
  match l with
  | [] => []
  | x :: rest => insert_by le x (sorted_by le rest)
  end.

(** [sorted(l, key=key)] with integer keys *)
Definition sorted {A} (key : A -> Z) (l : list A) : list A :=
  sorted_by (fun x y => key x <=? key y) l.

(** [sorted(l, key=key, reverse=True)] with float keys: descending, equal
    keys still in input order. *)
Definition sorted_reverse {A} (key : A -> Q) (l : list A) : list A :=
  sorted_by (fun x y => Qle_bool (key y) (key x)) l.

(** [enumerate(l, start)]: every object with its position. *)
Fixpoint enumerate_from {A} (start : nat) (l : list A) : list (nat * A) :=
  match l with
  | [] => []
  | x :: rest => (start, x) :: enumerate_from (S start) rest
  end.

Definition enumerate {A} (l : list A) : list (nat * A) := enumerate_from 0 l.

End Py.

Declare Scope py_scope.
Delimit Scope py_scope with py.
Notation "x <- m ;; k" := (Py.bind m (fun x => k))
  (at level 100, m at next level, right associativity) : py_scope.
Notation "m ;;; k" := (Py.bind m (fun _ => k))
  (at level 100, right associativity) : py_scope.

(** ** Task scheduler ([src/task_planner.py]) *)

Inductive TaskStatus : Type :=
| PENDING
| IN_PROGRESS
| COMPLETED
| FAILED
| SKIPPED.

#[global] Instance TaskStatus_eq_dec : EqDecision TaskStatus.
Proof. solve_decision. Defined.

(** The [Subtask] dataclass, with the types its annotations give. *)
Module Subtask.

Record t : Type := mk {
  id : string;
  description : string;
  priority : Z;
  dependencies : list string;
  status : TaskStatus;
  result : option string;
  attempts : Z;
  max_attempts : Z
}.

(** [Subtask(id=.., description=.., priority=.., dependencies=..)], the other
    fields at their defaults. *)
Definition new (id description : string) (priority : Z)
    (dependencies : list string) : t :=
  mk id description priority dependencies PENDING None 0 3.

Definition set_status (task : t) (s : TaskStatus) : t :=
  mk (id task) (description task) (priority task) (dependencies task)
     s (result task) (attempts task) (max_attempts task).

Definition set_result (task : t) (r : option string) : t :=
  mk (id task) (description task) (priority task) (dependencies task)
     (status task) r (attempts task) (max_attempts task).

Definition set_attempts (task : t) (n : Z) : t :=
  mk (id task) (description task) (priority task) (dependencies task)
     (status task) (result task) n (max_attempts task).

End Subtask.

(** What the one LLM request of [decompose] comes to, [json.loads] included:
    the request raises, the reply has no content ([content is None]), the
    content is not JSON ([json.JSONDecodeError]), or it decodes to a value. *)
Inductive llm_reply : Type :=
| RequestFails
| NoContent
| NotJson
| Decoded (data : Py.json).

Module TaskPlanner.
Import Py.

(** The planner object: [self.tasks] and [self.original_goal] (the client is
    the environment and is passed to [decompose] as its reply). *)
Record t : Type := mk {
  tasks : list Subtask.t;
  original_goal : string
}.

Definition init : t := mk [] "".

(** How a call of [decompose] ends.  [IllTyped] marks the replies this model
    does not follow further: the dataclass stores any decoded value unchecked,
    and a field value outside its annotated type has no image in [Subtask.t]. *)
Inductive decomposed : Type :=
| Tasks (ts : list Subtask.t)
| Raises (e : exn)
| IllTyped.

Fixpoint strings_of (items : list json) : option (list string) :=
  match items with
  | [] => Some []
  | JStr s :: rest => option_map (cons s) (strings_of rest)
  | _ => None
  end.

(** One round of the [for task_data in ...] loop: the [Subtask(...)] call.
    Keyword arguments are evaluated in order, so a missing [id] is met before
    a missing [description]; subscripting anything but a [dict] with a string
    is a [TypeError]. *)
Definition subtask_of (task_data : json) : decomposed :=
  match task_data with
  | JDict entries =>
      match dict_get entries "id" with
      | None => Raises (KeyError "id")
      | Some v_id =>
      match dict_get entries "description" with
      | None => Raises (KeyError "description")
      | Some v_description =>
      match dict_get entries "priority" with
      | None => Raises (KeyError "priority")
      | Some v_priority =>
          let v_dependencies :=
            match dict_get entries "dependencies" with
            | None => JList []
            | Some v => v
            end in
          match v_id, v_description, v_priority, v_dependencies with
          | JStr i, JStr d, JInt p, JList deps =>
              match strings_of deps with
              | Some ds => Tasks [Subtask.new i d p ds]
              | None => IllTyped
              end
          | _, _, _, _ => IllTyped
          end
      end end end
  | _ => Raises TypeError
  end.

(** The loop over a decoded list, appending to [self.tasks]; an exception
    leaves the tasks appended so far in place. *)
Fixpoint append_subtasks (items : list json) (acc : list Subtask.t)
    : list Subtask.t * decomposed :=
  match items with
  | [] => (acc, Tasks acc)
  | task_data :: rest =>
      match subtask_of task_data with
      | Tasks new => append_subtasks rest (acc ++ new)
      | stop => (acc, stop)
      end
  end.

(** [for task_data in data.get("subtasks", [])]: what iterating the value
    yields.  A list yields its items, a string its characters and a [dict] its
    keys (strings either way, so the first [task_data["id"]] is a
    [TypeError]); the other values are not iterable. *)
Definition iterate_subtasks (v : json) (acc : list Subtask.t)
    : list Subtask.t * decomposed :=
  match v with
  | JList items => append_subtasks items acc
  | JStr EmptyString => (acc, Tasks acc)
  | JDict [] => (acc, Tasks acc)
  | _ => (acc, Raises TypeError)
  end.

(** [decompose(goal)].  Only [json.JSONDecodeError] is handled. *)
Definition decompose (self : t) (goal : string) (reply : llm_reply)
    : t * decomposed :=
  let self := mk [] goal in
  match reply with
  | RequestFails => (self, Raises ApiError)
  | NoContent => (self, Raises TypeError)
  | NotJson =>
      let fallback_task := Subtask.new "task_1" goal 1 [] in
      (mk [fallback_task] goal, Tasks [fallback_task])
  | Decoded data =>
      match data with
      | JDict entries =>
          let subtasks :=
            match dict_get entries "subtasks" with
            | None => JList []
            | Some v => v
            end in
          let '(ts, r) := iterate_subtasks subtasks [] in
          (mk ts goal, r)
      | _ => (self, Raises AttributeError)
      end
  end.

(** [_get_task_by_id]: the first task with that id, with its position. *)
Definition _get_task_by_id (self : t) (task_id : string)
    : option (nat * Subtask.t) :=
  List.find (fun c => String.eqb (Subtask.id c.2) task_id)
            (enumerate (tasks self)).

(** [_dependencies_met]: every dependency id resolves to a completed task. *)
Fixpoint dependencies_met_loop (self : t) (deps : list string) : bool :=
  match deps with
  | [] => true
  | dep_id :: rest =>
      match _get_task_by_id self dep_id with
      | None => false
      | Some (_, dep_task) =>
          if bool_decide (Subtask.status dep_task <> COMPLETED) then false
          else dependencies_met_loop self rest
      end
  end.

Definition _dependencies_met (self : t) (task : Subtask.t) : bool :=
  dependencies_met_loop self (Subtask.dependencies task).

(** The two list comprehensions of [get_next_task], each object kept with its
    position in [self.tasks]. *)
Definition executable (self : t) : list (nat * Subtask.t) :=
  List.filter
    (fun c => bool_decide (Subtask.status c.2 = PENDING)
              && _dependencies_met self c.2
              && (Subtask.attempts c.2 <? Subtask.max_attempts c.2))
    (enumerate (tasks self)).

Definition retryable (self : t) : list (nat * Subtask.t) :=
  List.filter
    (fun c => bool_decide (Subtask.status c.2 = FAILED)
              && (Subtask.attempts c.2 <? Subtask.max_attempts c.2)
              && _dependencies_met self c.2)
    (enumerate (tasks self)).

(** [task.status = IN_PROGRESS; task.attempts += 1] *)
Definition start (task : Subtask.t) : Subtask.t :=
  Subtask.set_attempts (Subtask.set_status task IN_PROGRESS)
                       (Subtask.attempts task + 1).

(** [sorted(candidates, key=lambda t: t.priority)[0]], started in place. *)
Definition take_first (self : t) (candidates : list (nat * Subtask.t))
    : t * option (nat * Subtask.t) :=
  match sorted (fun c => Subtask.priority c.2) candidates with
  | [] => (self, None)
  | (i, task) :: _ =>
      (mk (<[i := start task]> (tasks self)) (original_goal self),
       Some (i, start task))
  end.

(** [get_next_task()]: the object returned is named by its position in
    [self.tasks] and shown with its fields after the update. *)
Definition get_next_task (self : t) : t * option (nat * Subtask.t) :=
  match executable self with
  | [] =>
      match retryable self with
      | [] => (self, None)
      | candidates => take_first self candidates
      end
  | candidates => take_first self candidates
  end.

(** [update_status(task_id, status, result)] *)
Definition update_status (self : t) (task_id : string) (status : TaskStatus)
    (result : option string) : t * bool :=
  match _get_task_by_id self task_id with
  | None => (self, false)
  | Some (i, task) =>
      let task := Subtask.set_status task status in
      let task :=
        match result with
        | Some r => Subtask.set_result task (Some r)
        | None => task
        end in
      (mk (<[i := task]> (tasks self)) (original_goal self), true)
  end.

(** [is_complete()] *)
Definition is_complete (self : t) : bool :=
  forallb (fun task => bool_decide (Subtask.status task = COMPLETED)
                       || bool_decide (Subtask.status task = SKIPPED))
          (tasks self).

(** A caller's use of the planner after decomposition: the calls it can make,
    and the objects [get_next_task] handed out along the way. *)
Inductive call : Type :=
| GetNextTask
| UpdateStatus (task_id : string) (status : TaskStatus) (result : option string).

Fixpoint run (calls : list call) (self : t) : t * list (option nat) :=
  match calls with
  | [] => (self, [])
  | GetNextTask :: rest =>
      let '(self', got) := get_next_task self in
      let '(final, trace) := run rest self' in
      (final, option_map fst got :: trace)
  | UpdateStatus task_id status result :: rest =>
      run rest (update_status self task_id status result).1
  end.

(** The dict [get_summary] returns. *)
Module Summary.
Record t : Type := mk {
  goal : string;
  total_tasks : Z;
  completed : Z;
  failed : Z;
  pending : Z;
  in_progress : Z;
  is_complete : bool
}.
End Summary.

(** [sum(1 for t in self.tasks if t.status == status)] *)
Definition count_status (self : t) (status : TaskStatus) : Z :=
  fold_left (fun n task =>
               if bool_decide (Subtask.status task = status) then n + 1 else n)
            (tasks self) 0.

(** [get_summary()] *)
Definition get_summary (self : t) : Summary.t :=
  Summary.mk (original_goal self)
             (Z.of_nat (length (tasks self)))
             (count_status self COMPLETED)
             (count_status self FAILED)
             (count_status self PENDING)
             (count_status self IN_PROGRESS)
             (is_complete self).

End TaskPlanner.

(** ** Embedding cache ([src/utils/embeddings.py]) *)

Module EmbeddingGenerator.
Import Py.

Section WithProvider.
Context {vector : Type}.

(** The provider call [client.embeddings.create(model, input=text)] made by
    the attempt of the given number (0, 1, 2) of [_call_api_with_retry]: the
    vector of the text, or [None] when the call raises.  An attempt may fail
    and a later one answer; a request that is made again goes as it went
    before (the provider is deterministic). *)
Variable provider : nat -> string -> option vector.

Record t : Type := mk {
  cache : gmap string vector;
  embedding_count : Z;
  api_call_count : Z;
  cache_hit_count : Z;
  cache_hits : Z;
  total_requests : Z
}.

Definition init : t := mk ∅ 0 0 0 0 0.

(** The [for attempt in range(max_retries)] loop of [_call_api_with_retry]
    from [attempt] on, with [remaining] rounds to go (the sleeps between
    attempts are not modelled). *)
Fixpoint retry_from (text : string) (max_retries attempt remaining : nat)
    : M t vector :=
  match remaining with
  | O => raise RuntimeError
  | S remaining' =>
      (modify (fun self =>
         mk (cache self) (embedding_count self) (api_call_count self + 1)
            (cache_hit_count self) (cache_hits self) (total_requests self)) ;;;
       match provider attempt text with
       | Some embedding => ret embedding
       | None =>
           if (attempt <? max_retries - 1)%nat
           then retry_from text max_retries (S attempt) remaining'
           else raise (Wrapped ApiError)
       end)%py
  end.

Definition _call_api_with_retry (text : string) : M t vector :=
  retry_from text 3 0 3.

(** [create_embedding(text)] *)
Definition create_embedding (text : string) : M t vector :=
  if blank text then raise ValueError
  else
    (modify (fun self =>
       mk (cache self) (embedding_count self) (api_call_count self)
          (cache_hit_count self) (cache_hits self) (total_requests self + 1)) ;;;
     cached <- gets (fun self => cache self !! text) ;;
     match cached with
     | Some embedding =>
         modify (fun self =>
           mk (cache self) (embedding_count self) (api_call_count self)
              (cache_hit_count self + 1) (cache_hits self + 1)
              (total_requests self)) ;;;
         ret embedding
     | None =>
         embedding <- _call_api_with_retry text ;;
         modify (fun self =>
           mk (<[text := embedding]> (cache self)) (embedding_count self + 1)
              (api_call_count self) (cache_hit_count self) (cache_hits self)
              (total_requests self)) ;;;
         ret embedding
     end)%py.

(** *** Batches *)

(** The provider call [client.embeddings.create(model, input=texts)] made
    by the attempt of the given number: the vectors of [response.data], or
    [None] when the call raises. *)
Variable batch_provider : nat -> list string -> option (list vector).

(** The loop of [_call_batch_api_with_retry], as [retry_from]. *)
Fixpoint batch_retry_from (texts : list string)
    (max_retries attempt remaining : nat) : M t (list vector) :=
  match remaining with
  | O => raise RuntimeError
  | S remaining' =>
      (modify (fun self =>
         mk (cache self) (embedding_count self) (api_call_count self + 1)
            (cache_hit_count self) (cache_hits self) (total_requests self)) ;;;
       match batch_provider attempt texts with
       | Some embeddings => ret embeddings
       | None =>
           if (attempt <? max_retries - 1)%nat
           then batch_retry_from texts max_retries (S attempt) remaining'
           else raise (Wrapped ApiError)
       end)%py
  end.

Definition _call_batch_api_with_retry (texts : list string)
    : M t (list vector) :=
  batch_retry_from texts 3 0 3.

(** How [create_embeddings] can fail: with an exception of [exn], or with the
    [IndexError] of a list subscript out of range. *)
Inductive batch_error : Type :=
| Raised (e : exn)
| IndexError.

(** [l[idx] = value] *)
Definition set_item {A} (l : list A) (idx : nat) (value : A)
    : option (list A) :=
  if (idx <? length l)%nat then Some (<[idx := value]> l) else None.

(** The three lists the first loop of [create_embeddings] builds. *)
Record scan : Type := mk_scan {
  results : list (option vector);
  uncached_texts : list string;
  uncached_indices : list nat
}.

(** The first loop, over the texts with their positions. *)
Fixpoint scan_cache (items : list (nat * string)) (acc : scan) (self : t)
    : t * (batch_error + scan) :=
  match items with
  | [] => (self, inr acc)
  | (idx, text) :: rest =>
      if blank text then (self, inl (Raised ValueError))
      else
        match cache self !! text with
        | Some embedding =>
            match set_item (results acc) idx (Some embedding) with
            | None => (self, inl IndexError)
            | Some results' =>
                scan_cache rest
                  (mk_scan results' (uncached_texts acc) (uncached_indices acc))
                  (mk (cache self) (embedding_count self) (api_call_count self)
                      (cache_hit_count self + 1) (cache_hits self)
                      (total_requests self))
            end
        | None =>
            scan_cache rest
              (mk_scan (results acc) (uncached_texts acc ++ [text])
                       (uncached_indices acc ++ [idx]))
              self
        end
  end.

(** The second loop, over [zip(uncached_indices, embeddings)]. *)
Fixpoint fill (texts : list string) (pairs : list (nat * vector))
    (results : list (option vector)) (self : t)
    : t * (batch_error + list (option vector)) :=
  match pairs with
  | [] => (self, inr results)
  | (idx, embedding) :: rest =>
      match texts !! idx with
      | None => (self, inl IndexError)
      | Some text =>
          match set_item results idx (Some embedding) with
          | None => (self, inl IndexError)
          | Some results' =>
              fill texts rest results'
                (mk (<[text := embedding]> (cache self))
                    (embedding_count self + 1) (api_call_count self)
                    (cache_hit_count self) (cache_hits self)
                    (total_requests self))
          end
      end
  end.

(** The last loop: every slot has to be filled. *)
Fixpoint finish (results : list (option vector)) (final_results : list vector)
    : exn + list vector :=
  match results with
  | [] => inr final_results
  | None :: _ => inl RuntimeError
  | Some result :: rest => finish rest (final_results ++ [result])
  end.

(** [create_embeddings(texts)] *)
Definition create_embeddings (texts : list string) (self : t)
    : t * (batch_error + list vector) :=
  match texts with
  | [] => (self, inl (Raised ValueError))
  | _ =>
      match scan_cache (enumerate texts)
              (mk_scan (replicate (length texts) None) [] []) self with
      | (self, inl e) => (self, inl e)
      | (self, inr scanned) =>
          let filled :=
            match uncached_texts scanned with
            | [] => (self, inr (results scanned))
            | _ =>
                match _call_batch_api_with_retry (uncached_texts scanned) self with
                | (self, Raise e) => (self, inl (Raised e))
                | (self, Return embeddings) =>
                    fill texts (combine (uncached_indices scanned) embeddings)
                         (results scanned) self
                end
            end in
          match filled with
          | (self, inl e) => (self, inl e)
          | (self, inr results) =>
              (self, match finish results [] with
                     | inl e => inl (Raised e)
                     | inr final_results => inr final_results
                     end)
          end
      end
  end.

End WithProvider.

Arguments t : clear implicits.

(** What [get_cache_info] reports. *)
Module CacheInfo.
Record t : Type := mk {
  size : Z;
  embedding_count : Z;
  api_call_count : Z;
  cache_hit_count : Z;
  hit_rate : Q
}.
End CacheInfo.

(** [get_dimension()] *)
Definition get_dimension : Z := 1536.

(** [get_cache_info()]; [cache_hits] and [total_requests] are set by
    [__init__], so both [hasattr] tests hold. *)
Definition get_cache_info {vector} (self : t vector) : CacheInfo.t :=
  let hit_rate :=
    (inject_Z (cache_hits self) / inject_Z (Z.max (total_requests self) 1))%Q in
  CacheInfo.mk (Z.of_nat (base.size (cache self))) (embedding_count self)
               (api_call_count self) (cache_hit_count self) hit_rate.

End EmbeddingGenerator.

(** ** Memory store ([src/memory_manager.py]) *)

(** A stored document: what one [collection.add] writes. *)
Module Document.
Record t (vector : Type) : Type := mk {
  id : string;
  text : string;
  embedding : vector;
  metadata : gmap string Py.json
}.
Arguments mk {vector}.
Arguments id {vector}.
Arguments text {vector}.
Arguments embedding {vector}.
Arguments metadata {vector}.
End Document.

(** One entry of a [search_memory] result. *)
Module SearchHit.
Record t : Type := mk {
  id : string;
  text : string;
  metadata : gmap string Py.json;
  similarity : Q
}.
End SearchHit.

(** One entry of a [get_all_documents] result. *)
Module Entry.
Record t : Type := mk {
  id : string;
  text : string;
  metadata : gmap string Py.json
}.
End Entry.

(** The vector-store engine, at its interface: a collection is the sequence
    of its documents in insertion order; [query] is an exact nearest-neighbour
    search under the engine's distance.  Either call may fail inside the
    engine (store unavailable, invalid argument): the two fault parameters
    say when, and with which exception. *)
Module Chroma.
Import Py.

Section WithDistance.
Context {vector : Type}.
Variable distance : vector -> vector -> Q.

Definition collection : Type := list (Document.t vector).

Variable query_fault : collection -> vector -> option exn.
Variable add_fault : collection -> Document.t vector -> option exn.

(** [collection.count()] *)
Definition count (c : collection) : nat := length c.

(** [collection.add(ids=[id], documents=.., embeddings=.., metadatas=..)]: an
    id that is already stored is skipped. *)
Definition add (c : collection) (doc : Document.t vector)
    : outcome collection :=
  match add_fault c doc with
  | Some e => Raise e
  | None =>
      Return (if existsb (fun d => String.eqb (Document.id d) (Document.id doc)) c
              then c
              else c ++ [doc])
  end.

(** [collection.query(query_embeddings=[q], n_results=n, where=filter)]: the
    [n] documents passing the filter that are nearest to [q], nearest first,
    each with its distance. *)
Definition query (c : collection) (q : vector) (n_results : nat)
    (where_ : option (gmap string json -> bool))
    : outcome (list (Document.t vector * Q)) :=
  match query_fault c q with
  | Some e => Raise e
  | None =>
      let passing :=
        match where_ with
        | Some f => List.filter (fun d => f (Document.metadata d)) c
        | None => c
        end in
      Return (take n_results
                (sorted_by (fun a b => Qle_bool a.2 b.2)
                   (map (fun d => (d, distance q (Document.embedding d)))
                        passing)))
  end.

End WithDistance.

Section WithStoreFaults.
Context {vector : Type}.
Variable get_fault : collection (vector := vector) -> option exn.
Variable delete_fault : collection (vector := vector) -> list string -> option exn.

Definition has_id (ids : list string) (d : Document.t vector) : bool :=
  existsb (String.eqb (Document.id d)) ids.

(** [collection.get(ids=ids, where=filter)]: the stored documents with one of
    the ids (all of them without [ids]) that pass the filter, in insertion
    order. *)
Definition get (c : collection) (ids : option (list string))
    (where_ : option (gmap string json -> bool))
    : outcome (list (Document.t vector)) :=
  match get_fault c with
  | Some e => Raise e
  | None =>
      let selected :=
        match ids with
        | Some ids => List.filter (has_id ids) c
        | None => c
        end in
      Return (match where_ with
              | Some f => List.filter (fun d => f (Document.metadata d)) selected
              | None => selected
              end)
  end.

(** [collection.delete(ids=ids)] *)
Definition delete (c : collection) (ids : list string) : outcome collection :=
  match delete_fault c ids with
  | Some e => Raise e
  | None => Return (List.filter (fun d => negb (has_id ids d)) c)
  end.

End WithStoreFaults.
End Chroma.

Module MemoryManager.
Import Py.

(** The clock reading and the UUID one call of [add_to_memory] would draw. *)
Record environment : Type := {
  now_isoformat : string;
  uuid4 : string
}.

Section WithServices.
Context {vector : Type}.
Variable provider : nat -> string -> option vector.
Variable distance : vector -> vector -> Q.
Variable query_fault : Chroma.collection (vector := vector) -> vector -> option exn.
Variable add_fault :
  Chroma.collection (vector := vector) -> Document.t vector -> option exn.

Record t : Type := mk {
  collection : Chroma.collection (vector := vector);
  embedding_generator : EmbeddingGenerator.t vector
}.

Definition with_generator (m : M (EmbeddingGenerator.t vector) vector)
    : M t vector :=
  on_field embedding_generator (fun self g => mk (collection self) g) m.

(** [except ValueError: raise] / [except Exception as e: raise Exception(msg)
    from e], the handlers of [search_memory] and [add_to_memory]. *)
Definition reraise {A} (e : exn) : M t A :=
  match e with
  | ValueError => raise ValueError
  | other => raise (Wrapped other)
  end.

(** [search_memory(query, top_k, filter_dict)] *)
Definition search_memory (query : string) (top_k : nat)
    (filter_dict : option (gmap string json -> bool))
    : M t (list SearchHit.t) :=
  try_except
    (if blank query then raise ValueError
     else
       let query := strip query in
       (query_embedding <-
          with_generator (EmbeddingGenerator.create_embedding provider query) ;;
        results <- (fun self =>
          (self, Chroma.query distance query_fault (collection self)
                              query_embedding top_k filter_dict)) ;;
        ret (map (fun r : Document.t vector * Q =>
                    SearchHit.mk (Document.id r.1) (Document.text r.1)
                                 (Document.metadata r.1) (1 - r.2)%Q)
                 results))%py)
    reraise.

(** [check_duplicate(text, threshold)] *)
Definition check_duplicate (text : string) (threshold : Q)
    : M t (option SearchHit.t) :=
  try_except
    (if blank text then ret None
     else
       (results <- search_memory text 1 None ;;
        match results with
        | [] => ret None
        | most_similar :: _ =>
            if Qle_bool threshold (SearchHit.similarity most_similar)
            then ret (Some most_similar)
            else ret None
        end)%py)
    (fun _ => ret None).

(** [add_to_memory(text, metadata, document_id, check_duplicate)] *)
Definition add_to_memory (env : environment) (text : string)
    (metadata : option (gmap string json)) (document_id : option string)
    (check_dup : bool) : M t string :=
  try_except
    (if blank text then raise ValueError
     else
       let text := strip text in
       (duplicate <- (if check_dup then check_duplicate text (95 # 100)
                      else ret None) ;;
        match duplicate with
        | Some found => ret (SearchHit.id found)
        | None =>
            let document_id :=
              match document_id with
              | Some given => given
              | None => uuid4 env
              end in
            embedding <-
              with_generator (EmbeddingGenerator.create_embedding provider text) ;;
            let metadata :=
              match metadata with Some m => m | None => ∅ end in
            let source :=
              match metadata !! "source" with
              | Some s => s
              | None => JStr "user_input"
              end in
            let metadata :=
              match metadata !! "timestamp" with
              | Some _ => metadata
              | None => <["timestamp" := JStr (now_isoformat env)]> metadata
              end in
            let metadata :=
              <["source" := source]>
                (<["text_length" := JInt (len text)]> metadata) in
            stored <- (fun self =>
              (self, Chroma.add add_fault (collection self)
                       (Document.mk document_id text embedding metadata))) ;;
            modify (fun self => mk stored (embedding_generator self)) ;;;
            ret document_id
        end)%py)
    reraise.

(** *** Reading, deleting and maintaining the store *)

Variable get_fault : Chroma.collection (vector := vector) -> option exn.
Variable delete_fault :
  Chroma.collection (vector := vector) -> list string -> option exn.
(** [client.delete_collection] followed by [client.get_or_create_collection],
    which fail or succeed together here. *)
Variable reset_fault : Chroma.collection (vector := vector) -> option exn.

(** A call into the engine on the current collection. *)
Definition engine {A}
    (call : Chroma.collection (vector := vector) -> outcome A) : M t A :=
  fun self => (self, call (collection self)).

(** [except Exception as e: raise Exception(msg) from e] *)
Definition wrap {A} (e : exn) : M t A := raise (Wrapped e).

Definition entry_of (d : Document.t vector) : Entry.t :=
  Entry.mk (Document.id d) (Document.text d) (Document.metadata d).

(** [get_all_documents()] *)
Definition get_all_documents : M t (list Entry.t) :=
  try_except
    (results <- engine (fun c => Chroma.get get_fault c None None) ;;
     ret (map entry_of results))%py
    wrap.

(** [delete_memory(document_id)] *)
Definition delete_memory (document_id : string) : M t bool :=
  try_except
    (doc <- engine (fun c => Chroma.get get_fault c (Some [document_id]) None) ;;
     match doc with
     | [] => ret false
     | _ =>
         remaining <-
           engine (fun c => Chroma.delete delete_fault c [document_id]) ;;
         modify (fun self => mk remaining (embedding_generator self)) ;;;
         ret true
     end)%py
    (fun _ => ret false).

(** [clear_all_memory()] *)
Definition clear_all_memory : M t Z :=
  try_except
    (count <- gets (fun self => Z.of_nat (Chroma.count (collection self))) ;;
     engine (fun c => match reset_fault c with
                      | Some e => Raise e
                      | None => Return tt
                      end) ;;;
     modify (fun self => mk [] (embedding_generator self)) ;;;
     ret count)%py
    wrap.

(** The [where] filter [{"source": source}]. *)
Definition source_is (source : string) (metadata : gmap string json) : bool :=
  match metadata !! "source" with
  | Some (JStr s) => String.eqb s source
  | _ => false
  end.

(** [search_memory_by_source(query, source, top_k)] *)
Definition search_memory_by_source (query source : string) (top_k : nat)
    : M t (list SearchHit.t) :=
  try_except (search_memory query top_k (Some (source_is source))) wrap.

(** Truthiness of a metadata value. *)
Definition truthy (v : json) : bool :=
  match v with
  | JNull => false
  | JBool b => b
  | JInt z => negb (z =? 0)
  | JFloat q => negb (Qeq_bool q 0)
  | JStr s => negb (falsy s)
  | JList items => match items with [] => false | _ => true end
  | JDict entries => match entries with [] => false | _ => true end
  end.

(** [mark_as_important(document_id)]: the document is deleted and stored
    again with [important] set. *)
Definition mark_as_important (document_id : string) : M t bool :=
  try_except
    (doc <- engine (fun c => Chroma.get get_fault c (Some [document_id]) None) ;;
     match doc with
     | [] => ret false
     | first :: _ =>
         let metadata := <["important" := JBool true]> (Document.metadata first) in
         let text := Document.text first in
         embedding <-
           with_generator (EmbeddingGenerator.create_embedding provider text) ;;
         remaining <-
           engine (fun c => Chroma.delete delete_fault c [document_id]) ;;
         modify (fun self => mk remaining (embedding_generator self)) ;;;
         stored <-
           engine (fun c => Chroma.add add_fault c
                              (Document.mk document_id text embedding metadata)) ;;
         modify (fun self => mk stored (embedding_generator self)) ;;;
         ret true
     end)%py
    (fun _ => ret false).

(** The loop of [cleanup_old_memories] over the documents read at its start;
    [timestamp < cutoff_date] compares strings, and raises [TypeError] for a
    timestamp that is not a string. *)
Fixpoint cleanup_loop (cutoff_date : string) (keep_important : bool)
    (all_docs : list Entry.t) (deleted kept : Z) : M t (Z * Z) :=
  match all_docs with
  | [] => ret (deleted, kept)
  | doc :: rest =>
      let timestamp :=
        match Entry.metadata doc !! "timestamp" with
        | Some v => v
        | None => JStr ""
        end in
      if truthy timestamp then
        match timestamp with
        | JStr stamp =>
            if String.ltb stamp cutoff_date then
              if keep_important &&
                 truthy (match Entry.metadata doc !! "important" with
                         | Some v => v
                         | None => JBool false
                         end)
              then cleanup_loop cutoff_date keep_important rest deleted (kept + 1)
              else
                (gone <- delete_memory (Entry.id doc) ;;
                 if gone : bool
                 then cleanup_loop cutoff_date keep_important rest
                                   (deleted + 1) kept
                 else cleanup_loop cutoff_date keep_important rest deleted kept)%py
            else cleanup_loop cutoff_date keep_important rest deleted (kept + 1)
        | _ => raise TypeError
        end
      else cleanup_loop cutoff_date keep_important rest deleted (kept + 1)
  end.

(** What [cleanup_old_memories] reports. *)
Record cleanup_report : Type := {
  deleted : Z;
  kept : Z;
  cutoff_date : string
}.

(** [cleanup_old_memories(days_old, keep_important)]; [cutoff] is
    [(datetime.now() - timedelta(days=days_old)).isoformat()]. *)
Definition cleanup_old_memories (cutoff : string) (keep_important : bool)
    : M t cleanup_report :=
  try_except
    (all_docs <- get_all_documents ;;
     counts <- cleanup_loop cutoff keep_important all_docs 0 0 ;;
     ret {| deleted := counts.1; kept := counts.2; cutoff_date := cutoff |})%py
    wrap.

(** *** Statistics *)

(** The number a metadata value is as a dictionary key: [True], [1] and
    [1.0] are one key. *)
Definition number_of (v : json) : option Q :=
  match v with
  | JBool b => Some (if b then 1 else 0)%Q
  | JInt z => Some (inject_Z z)
  | JFloat q => Some q
  | _ => None
  end.

(** Equality of two hashable values as dictionary keys. *)
Definition key_eqb (a b : json) : bool :=
  match number_of a, number_of b with
  | Some x, Some y => Qeq_bool x y
  | None, None =>
      match a, b with
      | JStr s, JStr s' => String.eqb s s'
      | JNull, JNull => true
      | _, _ => false
      end
  | _, _ => false
  end.

Definition hashable (v : json) : bool :=
  match v with
  | JList _ | JDict _ => false
  | _ => true
  end.

(** [sources[source] = sources.get(source, 0) + 1] on a dictionary kept in
    insertion order. *)
Fixpoint count_key (source : json) (sources : list (json * Z))
    : list (json * Z) :=
  match sources with
  | [] => [(source, 1)]
  | (k, n) :: rest =>
      if key_eqb k source then (k, n + 1) :: rest
      else (k, n) :: count_key source rest
  end.

Fixpoint count_sources (all_docs : list Entry.t) (sources : list (json * Z))
    : outcome (list (json * Z)) :=
  match all_docs with
  | [] => Return sources
  | doc :: rest =>
      let source :=
        match Entry.metadata doc !! "source" with
        | Some v => v
        | None => JStr "unknown"
        end in
      if hashable source then count_sources rest (count_key source sources)
      else Raise TypeError
  end.

Record date_counts : Type := {
  last_24h : Z;
  last_7days : Z;
  last_30days : Z;
  older : Z
}.

(** [(now - datetime.fromisoformat(stamp.replace('Z', '+00:00'))
    .replace(tzinfo=None)).days], or [None] when the stamp does not parse. *)
Variable age_days : string -> option Z.

Definition add_older (counts : date_counts) : date_counts :=
  {| last_24h := last_24h counts; last_7days := last_7days counts;
     last_30days := last_30days counts; older := older counts + 1 |}.

Definition count_date (doc : Entry.t) (counts : date_counts) : date_counts :=
  let timestamp_str :=
    match Entry.metadata doc !! "timestamp" with
    | Some v => v
    | None => JStr ""
    end in
  if truthy timestamp_str then
    match timestamp_str with
    | JStr stamp =>
        match age_days stamp with
        | Some age =>
            let counts :=
              if age <? 1
              then {| last_24h := last_24h counts + 1;
                      last_7days := last_7days counts;
                      last_30days := last_30days counts;
                      older := older counts |}
              else counts in
            let counts :=
              if age <? 7
              then {| last_24h := last_24h counts;
                      last_7days := last_7days counts + 1;
                      last_30days := last_30days counts;
                      older := older counts |}
              else counts in
            if age <? 30
            then {| last_24h := last_24h counts;
                    last_7days := last_7days counts;
                    last_30days := last_30days counts + 1;
                    older := older counts |}
            else add_older counts
        | None => add_older counts
        end
    | _ => add_older counts
    end
  else add_older counts.

Record statistics : Type := {
  total_documents : Z;
  by_source : list (json * Z);
  by_date : date_counts;
  avg_text_length : Z;
  embedding_dimension : Z;
  cache_info : EmbeddingGenerator.CacheInfo.t
}.

(** [get_statistics()]; the two configuration strings of the report
    ([collection_name], [persist_directory]) are constants of the instance
    and are left out. *)
Definition get_statistics : M t statistics :=
  try_except
    (all_docs <- get_all_documents ;;
     sources <- (fun self => (self, count_sources all_docs [])) ;;
     let counts :=
       fold_left (fun counts doc => count_date doc counts) all_docs
                 {| last_24h := 0; last_7days := 0; last_30days := 0;
                    older := 0 |} in
     let text_lengths := map (fun doc => len (Entry.text doc)) all_docs in
     let avg_length :=
       match text_lengths with
       | [] => 0
       | _ => fold_left Z.add text_lengths 0 / Z.of_nat (length text_lengths)
       end in
     cache <- gets (fun self =>
                EmbeddingGenerator.get_cache_info (embedding_generator self)) ;;
     ret {| total_documents := Z.of_nat (length all_docs);
            by_source := sources;
            by_date := counts;
            avg_text_length := avg_length;
            embedding_dimension := EmbeddingGenerator.get_dimension;
            cache_info := cache |})%py
    wrap.

(** [get_memory_stats()] runs the same statements. *)
Definition get_memory_stats : M t statistics := get_statistics.

End WithServices.

Arguments t : clear implicits.

End MemoryManager.

(** ** Retrieval merger ([src/search_agent.py]) *)

(** An entry of [memory_results]: the keys [_merge_results] reads, each
    possibly absent. *)
Module MemoryResult.
Record t : Type := mk {
  text : option string;
  similarity : option Q;
  metadata : option (gmap string Py.json)
}.
End MemoryResult.

(** An entry of [web_results]. *)
Module WebResult.
Record t : Type := mk {
  content : option string;
  url : option string;
  title : option string;
  score : option Q
}.
End WebResult.

Module SearchAgent.
Import Py.

(** The [provenance] record of a merged item. *)
Inductive provenance : Type :=
| RetrievedFromMemory (original_source original_query stored_at : json)
                      (confidence : Q)
| RetrievedFromWeb (url fetched_at : string) (tavily_score : Q).

(** A merged item: the dict built for a memory result ([source] is
    [memory]) or for a web result ([source] is [web]). *)
Inductive item : Type :=
| Memory (content : string) (similarity : Q) (metadata : gmap string json)
         (prov : provenance)
| Web (content url title : string) (score : Q) (prov : provenance).

(** [result.get("content", "")] *)
Definition content_of (result : item) : string :=
  match result with
  | Memory content _ _ _ => content
  | Web content _ _ _ _ => content
  end.

Definition get_or {A} (o : option A) (default : A) : A :=
  match o with Some a => a | None => default end.

(** The dict appended for a memory result. *)
Definition from_memory (r : MemoryResult.t) : item :=
  let metadata := get_or (MemoryResult.metadata r) ∅ in
  Memory (get_or (MemoryResult.text r) "")
         (get_or (MemoryResult.similarity r) 0%Q)
         metadata
         (RetrievedFromMemory
            (get_or (metadata !! "source") (JStr "unknown"))
            (get_or (metadata !! "query") (JStr ""))
            (get_or (metadata !! "timestamp") (JStr ""))
            (get_or (MemoryResult.similarity r) 0%Q)).

(** The dict appended for a web result; [now] is the clock reading. *)
Definition from_web (now : string) (r : WebResult.t) : item :=
  Web (get_or (WebResult.content r) "")
      (get_or (WebResult.url r) "")
      (get_or (WebResult.title r) "")
      (get_or (WebResult.score r) 0%Q)
      (RetrievedFromWeb (get_or (WebResult.url r) "") now
                        (get_or (WebResult.score r) 0%Q)).

(** The inner loop of [_remove_duplicates]: is [content] a duplicate of one
    of the contents kept so far? *)
Fixpoint is_duplicate (content : string) (seen_contents : list string) : bool :=
  match seen_contents with
  | [] => false
  | seen :: rest =>
      if contains content seen || contains seen content then
        if (50 <? len content) && (50 <? len seen) then
          if String.eqb content seen then true
          else is_duplicate content rest
        else true
      else is_duplicate content rest
  end.

(** The outer loop, with its two accumulators. *)
Fixpoint remove_duplicates_loop (results unique_results : list item)
    (seen_contents : list string) : list item :=
  match results with
  | [] => unique_results
  | result :: rest =>
      let content := content_of result in
      if falsy content then
        remove_duplicates_loop rest unique_results seen_contents
      else if is_duplicate content seen_contents then
        remove_duplicates_loop rest unique_results seen_contents
      else
        remove_duplicates_loop rest (unique_results ++ [result])
                               (seen_contents ++ [content])
  end.

(** [_remove_duplicates(results)] *)
Definition _remove_duplicates (results : list item) : list item :=
  match results with
  | [] => []
  | _ => remove_duplicates_loop results [] []
  end.

(** [sort_key] of [_merge_results] *)
Definition sort_key (result : item) : Q :=
  match result with
  | Memory _ similarity _ _ => similarity
  | Web _ _ _ score _ => score
  end.

(** The merged list before duplicate removal: memory results, then web
    results. *)
Definition tagged (now : string) (memory_results : list MemoryResult.t)
    (web_results : list WebResult.t) : list item :=
  map from_memory memory_results ++ map (from_web now) web_results.

(** [_merge_results(memory_results, web_results)] *)
Definition _merge_results (now : string)
    (memory_results : list MemoryResult.t) (web_results : list WebResult.t)
    : list item :=
  sorted_reverse sort_key
    (_remove_duplicates (tagged now memory_results web_results)).

(** *** Searching with the memory store *)

(** The [source_summary] of a [search_with_memory] result. *)
Module SourceSummary.
Record t : Type := mk {
  from_memory : Z;
  from_web : Z;
  total : Z
}.
End SourceSummary.

(** What [search_with_memory] returns. *)
Module SearchResults.
Record t : Type := mk {
  query : string;
  memory_results : list SearchHit.t;
  web_results : list WebResult.t;
  merged_results : list item;
  source_summary : SourceSummary.t
}.
End SearchResults.

(** An entry of a [search_memory] result as [_merge_results] reads it: every
    key is there. *)
Definition as_memory_result (hit : SearchHit.t) : MemoryResult.t :=
  MemoryResult.mk (Some (SearchHit.text hit)) (Some (SearchHit.similarity hit))
                  (Some (SearchHit.metadata hit)).

Section WithServices.
Context {vector : Type}.
Variable provider : nat -> string -> option vector.
Variable distance : vector -> vector -> Q.
Variable query_fault : Chroma.collection (vector := vector) -> vector -> option exn.
Variable add_fault :
  Chroma.collection (vector := vector) -> Document.t vector -> option exn.

(** [tavily_search(query=query, max_results=n).results], or the exception the
    call raises. *)
Variable tavily_search : string -> nat -> outcome (list WebResult.t).

(** The clock reading and the UUID [add_to_memory] draws while the web result
    at a position is saved, and the clock reading of its [saved_at]. *)
Variable env_at : nat -> MemoryManager.environment.
Variable saved_at : nat -> string.

(** The clock reading while the results are merged. *)
Variable now : string.

(** The agent, by the attribute [search_with_memory] works on. *)
Record t : Type := mk {
  memory_manager : option (MemoryManager.t vector)
}.

(** The loop of [_save_to_memory] over the web results with their
    positions. *)
Fixpoint save_loop (query : string) (web_results : list (nat * WebResult.t))
    (saved_count : Z) : M (MemoryManager.t vector) Z :=
  match web_results with
  | [] => ret saved_count
  | (position, result) :: rest =>
      let text := get_or (WebResult.content result) "" in
      if falsy text then save_loop query rest saved_count
      else
        let metadata : gmap string json :=
          <["source" := JStr "web_search"]>
          (<["query" := JStr query]>
          (<["url" := JStr (get_or (WebResult.url result) "")]>
          (<["title" := JStr (get_or (WebResult.title result) "")]>
          (<["score" := JFloat (get_or (WebResult.score result) 0%Q)]>
          (<["saved_at" := JStr (saved_at position)]> ∅))))) in
        (saved <-
           try_except
             (MemoryManager.add_to_memory provider distance query_fault
                add_fault (env_at position) text (Some metadata) None true ;;;
              ret true)
             (fun _ => ret false) ;;
         save_loop query rest
                   (if saved : bool then saved_count + 1 else saved_count))%py
  end.

(** [_save_to_memory(web_results, query)] *)
Definition _save_to_memory (web_results : list WebResult.t) (query : string)
    : M t Z :=
  fun self =>
    match memory_manager self with
    | None => (self, Return 0)
    | Some manager =>
        let '(manager, saved_count) :=
          save_loop query (enumerate web_results) 0 manager in
        (mk (Some manager), saved_count)
    end.

(** [search_with_memory(query, use_memory, save_to_memory, memory_threshold,
    max_results)] *)
Definition search_with_memory (query : string)
    (use_memory save_to_memory : bool) (memory_threshold : Z)
    (max_results : nat) : M t SearchResults.t :=
  if blank query then raise ValueError
  else
    let query := strip query in
    (memory_results <-
       (fun self =>
          match (if use_memory then memory_manager self else None) with
          | Some manager =>
              match MemoryManager.search_memory provider distance query_fault
                      query max_results None manager with
              | (manager, Return found) => (mk (Some manager), Return found)
              | (manager, Raise _) => (mk (Some manager), Return [])
              end
          | None => (self, Return [])
          end) ;;
     let need_web_search :=
       Z.of_nat (length memory_results) <? memory_threshold in
     web_results <-
       (if need_web_search then
          try_except
            (web_results <- (fun self => (self, tavily_search query max_results)) ;;
             has_memory <- gets (fun self =>
                             match memory_manager self with
                             | Some _ => true
                             | None => false
                             end) ;;
             (if save_to_memory && has_memory
              then _save_to_memory web_results query ;;; ret tt
              else ret tt) ;;;
             ret web_results)
            (fun _ => ret [])
        else ret []) ;;
     let merged :=
       _merge_results now (map as_memory_result memory_results) web_results in
     ret (SearchResults.mk query memory_results web_results merged
            (SourceSummary.mk (Z.of_nat (length memory_results))
                              (Z.of_nat (length web_results))
                              (Z.of_nat (length merged)))))%py.

End WithServices.

Arguments t : clear implicits.

End SearchAgent.
(** ** Research stage ([src/agents/research_agent.py]) *)

Module ResearchAgent.
Import Py.

(** What one web search gives: the text [format_for_llm] makes of the search
    result, and the [sources] of the search result. *)
Record searched : Type := mk_searched {
  formatted : string;
  sources : list string
}.

(** An entry of [search_data]. *)
Record search_item : Type := mk_item {
  item_query : string;
  item_result : string
}.

(** The dict [execute] returns. *)
Record research : Type := mk_research {
  topic : string;
  memory_data : list SearchHit.t;
  search_data : list search_item;
  source_count : Z;
  queries_used : list string;
  source_urls : list string
}.

Section WithServices.
Context {vector : Type}.
Variable provider : nat -> string -> option vector.
Variable distance : vector -> vector -> Q.
Variable query_fault : Chroma.collection (vector := vector) -> vector -> option exn.

(** [search_agent.search(query)] followed by [search_agent.format_for_llm],
    for the query at a position of the list, or the exception raised. *)
Variable search : nat -> string -> outcome searched.

(** [str(q)] on a decoded value that is not a string. *)
Variable render : json -> string.

Definition str (q : json) : string :=
  match q with
  | JStr s => s
  | other => render other
  end.

Definition truthy (v : json) : bool :=
  match v with
  | JNull => false
  | JBool b => b
  | JInt z => negb (z =? 0)
  | JFloat q => negb (Qeq_bool q 0)
  | JStr s => negb (falsy s)
  | JList items => match items with [] => false | _ => true end
  | JDict entries => match entries with [] => false | _ => true end
  end.

(** [_generate_search_queries(topic)], given what [_call_llm_json] returned:
    a decoded object, empty when the call or the decoding failed. *)
Definition _generate_search_queries (topic : string)
    (data : list (string * json)) : list string :=
  match dict_get data "queries" with
  | Some (JList queries) =>
      match queries with
      | [] => [topic]
      | _ => map (fun q => strip (str q)) (List.filter truthy queries)
      end
  | _ => [topic]
  end.

(** [_search_memory(topic)] *)
Definition _search_memory (topic : string)
    : M (MemoryManager.t vector) (list SearchHit.t) :=
  try_except
    (MemoryManager.search_memory provider distance query_fault topic 3 None)
    (fun _ => ret []).

(** [for url in sources: if url and url not in seen: ...] *)
Fixpoint collect (urls source_urls : list string) (seen : gset string)
    : list string * gset string :=
  match urls with
  | [] => (source_urls, seen)
  | url :: rest =>
      if negb (falsy url) && negb (bool_decide (url ∈ seen))
      then collect rest (source_urls ++ [url]) ({[url]} ∪ seen)
      else collect rest source_urls seen
  end.

(** The loop of [_execute_searches] over the queries with their
    positions. *)
Fixpoint execute_searches_loop (queries : list (nat * string))
    (results : list search_item) (source_urls : list string)
    (seen : gset string) : list search_item * list string :=
  match queries with
  | [] => (results, source_urls)
  | (position, query) :: rest =>
      if blank query
      then execute_searches_loop rest results source_urls seen
      else
        match search position (strip query) with
        | Return found =>
            let results := results ++ [mk_item query (formatted found)] in
            let '(source_urls, seen) :=
              collect (sources found) source_urls seen in
            execute_searches_loop rest results source_urls seen
        | Raise _ => execute_searches_loop rest results source_urls seen
        end
  end.

(** [_execute_searches(queries)] *)
Definition _execute_searches (queries : list string)
    : list search_item * list string :=
  execute_searches_loop (enumerate queries) [] [] ∅.

(** [execute(input_data)], given the topic of the input and the reply to the
    request for queries. *)
Definition execute (topic : string) (data : list (string * json))
    : M (MemoryManager.t vector) research :=
  let topic :=
    match strip topic with
    | EmptyString => "일반"
    | stripped => stripped
    end in
  let queries := _generate_search_queries topic data in
  (memory_data <- _search_memory topic ;;
   let '(search_data, source_urls) := _execute_searches queries in
   ret (mk_research topic memory_data search_data
          (Z.of_nat (length memory_data) + Z.of_nat (length search_data))
          queries source_urls))%py.

End WithServices.
End ResearchAgent.

(** ** Saving search results from a conversation
    ([src/conversation_manager.py]) *)

Module ConversationManager.
Import Py.

Section WithServices.
Context {vector : Type}.
Variable provider : nat -> string -> option vector.
Variable distance : vector -> vector -> Q.
Variable query_fault : Chroma.collection (vector := vector) -> vector -> option exn.
Variable add_fault :
  Chroma.collection (vector := vector) -> Document.t vector -> option exn.

(** The clock reading and the UUID [add_to_memory] draws while the merged
    result at a position is saved. *)
Variable env_at : nat -> MemoryManager.environment.

(** The manager, by the attribute [save_search_result_to_memory] works
    on. *)
Record t : Type := mk {
  memory_manager : option (MemoryManager.t vector)
}.

(** The loop of [save_search_result_to_memory] over the merged results with
    their positions. *)
Fixpoint save_results_loop (user_query : string)
    (merged_results : list (nat * SearchAgent.item)) (saved_count : Z)
    : M (MemoryManager.t vector) Z :=
  match merged_results with
  | [] => ret saved_count
  | (position, result) :: rest =>
      match result with
      | SearchAgent.Memory _ _ _ _ =>
          save_results_loop user_query rest saved_count
      | SearchAgent.Web content url _ _ _ =>
          let metadata : gmap string json :=
            <["url" := JStr url]>
            (<["source" := JStr "search_result"]>
            (<["user_query" := JStr user_query]>
            (<["original_source" := JStr "web"]>
            (<["saved_from" := JStr "conversation"]> ∅)))) in
          (saved <-
             try_except
               (MemoryManager.add_to_memory provider distance query_fault
                  add_fault (env_at position) content (Some metadata) None
                  true ;;;
                ret true)
               (fun _ => ret false) ;;
           save_results_loop user_query rest
                             (if saved : bool then saved_count + 1
                              else saved_count))%py
      end
  end.

(** [save_search_result_to_memory(search_results, user_query)], given the
    [merged_results] of the search results. *)
Definition save_search_result_to_memory
    (merged_results : list SearchAgent.item) (user_query : string) : M t Z :=
  fun self =>
    match memory_manager self with
    | None => (self, Return 0)
    | Some manager =>
        let '(manager, saved_count) :=
          save_results_loop user_query (enumerate (take 5 merged_results)) 0
                            manager in
        (mk (Some manager), saved_count)
    end.

End WithServices.

Arguments t : clear implicits.

End ConversationManager.


(** ** Quality critic ([src/agents/quality_critic.py]) *)

Module QualityCritic.
Import Py.

Definition _SCORE_KEYS : list string :=
  ["completeness"; "accuracy"; "clarity"; "structure"; "source_quality"].

Definition _DEFAULT_SCORE : Float.t := Float.of_Z 5.

Definition PASS_THRESHOLD : Float.t := Float.of_Z 7.

(** What [_evaluate_report] returns. *)
Record evaluation : Type := mk_evaluation {
  eval_scores : list (string * Float.t);
  eval_overall_score : Float.t;
  eval_feedback : string
}.

(** What [execute] returns. *)
Record review : Type := mk_review {
  scores : list (string * Float.t);
  overall_score : Float.t;
  feedback : string;
  pass : bool
}.

(** Truthiness of a decoded value. *)
Definition truthy (v : json) : bool :=
  match v with
  | JNull => false
  | JBool b => b
  | JInt z => negb (z =? 0)
  | JFloat q => negb (Float.is_zero (Float.of_Q q))
  | JStr s => negb (falsy s)
  | JList items => match items with [] => false | _ => true end
  | JDict entries => match entries with [] => false | _ => true end
  end.

(** [sum(scores.values()) / len(_SCORE_KEYS)]: the values are added from
    the left, each partial sum rounded to a float, and the total is divided
    by 5.0. *)
Definition mean (scores : list (string * Float.t)) : Float.t :=
  Float.div (fold_left Float.add (map snd scores) (Float.of_Z 0))
            (Float.of_Z (Z.of_nat (length _SCORE_KEYS))).

Section WithBuiltins.

(** [float(s)] on a string: the float it spells (an infinity or a NaN for
    the strings that spell one), or [None] for [ValueError]. *)
Variable float_of_str : string -> option Float.t.

(** [str(v)] as an f-string renders a decoded value. *)
Variable render : json -> string.

(** [float(val)]: a number converts, an integer out of the range of the
    floats is an [OverflowError], a string is parsed, [None] and the
    containers are a [TypeError]. *)
Definition float (val : json) : outcome Float.t :=
  match val with
  | JNull => Raise TypeError
  | JBool b => Return (Float.of_Z (if b then 1 else 0))
  | JInt z =>
      if Float.overflows z then Raise OverflowError else Return (Float.of_Z z)
  | JFloat q => Return (Float.of_Q q)
  | JStr s =>
      match float_of_str s with
      | Some x => Return x
      | None => Raise ValueError
      end
  | JList _ => Raise TypeError
  | JDict _ => Raise TypeError
  end.

(** [try: float(val)  except (TypeError, ValueError): fallback]: any other
    exception goes on to the caller. *)
Definition float_or (val : json) (fallback : Float.t) : outcome Float.t :=
  match float val with
  | Return x => Return x
  | Raise TypeError => Return fallback
  | Raise ValueError => Return fallback
  | Raise e => Raise e
  end.

(** One round of [for key in _SCORE_KEYS]: the value stored under [key]. *)
Definition score_for (scores_raw : list (string * json)) (key : string)
    : outcome Float.t :=
  let parsed :=
    match dict_get scores_raw key with
    | Some JNull => Return _DEFAULT_SCORE
    | None => Return _DEFAULT_SCORE
    | Some val => float_or val _DEFAULT_SCORE
    end in
  match parsed with
  | Return x => Return (Float.max (Float.of_Z 1) (Float.min (Float.of_Z 10) x))
  | Raise e => Raise e
  end.

(** The loop [for key in _SCORE_KEYS], over the keys still to come. *)
Fixpoint score_loop (scores_raw : list (string * json)) (keys : list string)
    (scores : list (string * Float.t)) : outcome (list (string * Float.t)) :=
  match keys with
  | [] => Return scores
  | key :: rest =>
      match score_for scores_raw key with
      | Return x => score_loop scores_raw rest (scores ++ [(key, x)])
      | Raise e => Raise e
      end
  end.

(** [_default_evaluation_result()] *)
Definition _default_evaluation_result : evaluation :=
  mk_evaluation (map (fun k => (k, _DEFAULT_SCORE)) _SCORE_KEYS)
                _DEFAULT_SCORE
                "평가를 수행할 수 없습니다.".

(** [_evaluate_report], given what [_call_llm_json] returned: a decoded
    object, empty when the call or the decoding failed. *)
Definition _evaluate_report (data : list (string * json)) : outcome evaluation :=
  match data with
  | [] => Return _default_evaluation_result
  | _ =>
      match dict_get data "scores" with
      | Some (JDict scores_raw) =>
          match score_loop scores_raw _SCORE_KEYS [] with
          | Raise e => Raise e
          | Return scores =>
              let overall_score :=
                match dict_get data "overall" with
                | None => Return (mean scores)
                | Some JNull => Return (mean scores)
                | Some overall => float_or overall (mean scores)
                end in
              match overall_score with
              | Raise e => Raise e
              | Return overall_score =>
                  let overall_score := Float.round1 overall_score in
                  let feedback_str :=
                    match dict_get data "feedback" with
                    | Some (JDict feedback_raw) =>
                        let parts :=
                          flat_map
                            (fun k =>
                               let v := match dict_get feedback_raw k with
                                        | Some v => v
                                        | None => JStr ""
                                        end in
                               if truthy v
                               then [String.append "- **"
                                       (String.append k
                                          (String.append "**: " (render v)))]
                               else [])
                            _SCORE_KEYS in
                        match parts with
                        | [] => "구체적 피드백 없음"
                        | _ => String.concat
                                 (String (ascii_of_nat 10) EmptyString) parts
                        end
                    | Some (JStr feedback_raw) => feedback_raw
                    | _ => "구체적 피드백 없음"
                    end in
                  Return (mk_evaluation scores overall_score feedback_str)
              end
          end
      | _ => Return _default_evaluation_result
      end
  end.

(** [execute], given what [_call_llm_json] returned. *)
Definition execute (data : list (string * json)) : outcome review :=
  match _evaluate_report data with
  | Raise e => Raise e
  | Return result =>
      let overall := eval_overall_score result in
      Return (mk_review (eval_scores result) overall (eval_feedback result)
                        (Float.leb PASS_THRESHOLD overall))
  end.

End WithBuiltins.
End QualityCritic.

(** ** Pipeline coordinator ([src/research_coordinator.py]) *)

Module ResearchCoordinator.
Import Py.

(** The dicts passed between the stages, with the keys [run] reads. *)
Record research_data : Type := mk_research {
  queries_used : option (list string);
  source_count : option Z;
  source_urls : option (list string)
}.

Record analysis : Type := mk_analysis {
  clusters : list string;
  insights : option (list string);
  trends : list string
}.

Record writer_input : Type := mk_writer_input {
  w_topic : string;
  w_analysis : option analysis;
  w_sources : list string;
  w_feedback : option string;
  w_report : option string
}.

Record draft : Type := mk_draft { report : string }.

Record critic_input : Type := mk_critic_input {
  c_topic : string;
  c_report : string
}.

Record research_summary : Type := mk_summary {
  s_queries_used : list string;
  s_source_count : Z;
  s_insights_count : Z
}.

(** The dict [run] returns. *)
Record result : Type := mk_result {
  r_topic : string;
  r_report : string;
  r_score : Float.t;
  r_scores : list (string * Float.t);
  r_revision_count : Z;
  r_research_summary : research_summary
}.

(** The local variables of the write-and-check loop, and the number of calls
    of the Write stage made so far. *)
Record loop_state : Type := mk_loop {
  l_draft : draft;
  l_review : QualityCritic.review;
  l_revision_count : Z;
  l_feedback : option string;
  l_previous_report : string;
  l_write_calls : nat
}.

Section WithAgents.

(** The four stages.  Write and Critique are told how many times they were
    called before, so their answers may change from round to round. *)
Variable researcher : string -> outcome research_data.
Variable analyzer : option research_data -> outcome analysis.
Variable writer : nat -> writer_input -> outcome draft.
Variable critic : nat -> critic_input -> outcome QualityCritic.review.

Variable max_revision_rounds : Z.

Definition or_empty {A} (o : option (list A)) : list A :=
  match o with Some l => l | None => [] end.

(** The body of [for round_num in range(max_revision_rounds + 1)], over the
    rounds still to run; leaving the recursion is [break]. *)
Fixpoint rounds (round_nums : list nat) (topic : string)
    (research : option research_data) (analysed : option analysis)
    (st : loop_state) : loop_state :=
  match round_nums with
  | [] => st
  | round_num :: rest =>
      let sources :=
        match research with
        | Some data => or_empty (source_urls data)
        | None => []
        end in
      let revising :=
        match l_feedback st with
        | Some f => negb (falsy f)
        | None => false
        end in
      let input :=
        if revising
        then mk_writer_input topic analysed sources (l_feedback st)
                             (Some (l_previous_report st))
        else mk_writer_input topic analysed sources None None in
      match writer (l_write_calls st) input with
      | Raise _ =>
          mk_loop (l_draft st) (l_review st) (l_revision_count st)
                  (l_feedback st) (l_previous_report st)
                  (S (l_write_calls st))
      | Return new_draft =>
          match critic round_num (mk_critic_input topic (report new_draft)) with
          | Raise _ =>
              mk_loop new_draft (l_review st) (l_revision_count st)
                      (l_feedback st) (l_previous_report st)
                      (S (l_write_calls st))
          | Return new_review =>
              if QualityCritic.pass new_review then
                mk_loop new_draft new_review (l_revision_count st)
                        (l_feedback st) (l_previous_report st)
                        (S (l_write_calls st))
              else
                rounds rest topic research analysed
                  (mk_loop new_draft new_review (l_revision_count st + 1)
                           (Some (QualityCritic.feedback new_review))
                           (report new_draft)
                           (S (l_write_calls st)))
          end
      end
  end.

(** The state of the loop when [run] leaves it. *)
Definition run_loop (topic : string) : string * option research_data
                                       * option analysis * loop_state :=
  let topic :=
    match strip topic with
    | EmptyString => "일반"
    | stripped => stripped
    end in
  let research := returned (researcher topic) in
  let analysed := returned (analyzer research) in
  let start :=
    mk_loop (mk_draft "")
            (QualityCritic.mk_review [] Float.zero "" false)
            0 None "" 0 in
  (topic, research, analysed,
   rounds (seq 0 (Z.to_nat (max_revision_rounds + 1))) topic research
          analysed start).

(** [run(topic)] *)
Definition run (topic : string) : result :=
  let '(topic, research, analysed, final) := run_loop topic in
  let summary :=
    mk_summary
      (match research with Some d => or_empty (queries_used d) | None => [] end)
      (match research with
       | Some d => match source_count d with Some n => n | None => 0 end
       | None => 0
       end)
      (match analysed with
       | Some a => Z.of_nat (length (or_empty (insights a)))
       | None => 0
       end) in
  mk_result topic
            (report (l_draft final))
            (QualityCritic.overall_score (l_review final))
            (QualityCritic.scores (l_review final))
            (l_revision_count final)
            summary.

(** How many times [run(topic)] calls the Write stage. *)
Definition write_calls (topic : string) : nat :=
  let '(_, _, _, final) := run_loop topic in l_write_calls final.

End WithAgents.
End ResearchCoordinator.

(** * Specification vocabulary

    The predicates the properties below are stated with, and small concrete
    services for running the embedding on examples. *)

(** Positions grow along the list, as they do along [enumerate]. *)
Definition ascending {A} (l : list (nat * A)) : Prop :=
  StronglySorted (fun a b => (a.1 < b.1)%nat) l.

(** The text after its first code point, when that is whitespace. *)
Definition after_space (s : string) : option string :=
  match s with
  | String a (String b (String c rest3 as rest2) as rest) =>
      if Py.isspace a then Some rest
      else if Py.isspace2 a b then Some rest2
      else if Py.isspace3 a b c then Some rest3
      else None
  | String a (String b rest2 as rest) =>
      if Py.isspace a then Some rest
      else if Py.isspace2 a b then Some rest2
      else None
  | String a rest => if Py.isspace a then Some rest else None
  | EmptyString => None
  end.

Section SchedulerVocabulary.
Import Py TaskPlanner.

(** The task at position [i] of the list carries the id, and no task before
    it does: it is the task the id names. *)
Definition FirstWithId (self : t) (task_id : string) (i : nat)
    (task : Subtask.t) : Prop :=
  tasks self !! i = Some task /\
  Subtask.id task = task_id /\
  forall j other, (j < i)%nat -> tasks self !! j = Some other ->
    Subtask.id other <> task_id.

(** Every dependency of the task names a task of the list, and the task it
    names has the status [COMPLETED]. *)
Definition DependenciesCompleted (self : t) (task : Subtask.t) : Prop :=
  forall dep_id, In dep_id (Subtask.dependencies task) ->
    exists i dep, FirstWithId self dep_id i dep /\
                  Subtask.status dep = COMPLETED.

(** The task at position [i] has status [st], its dependencies are all
    completed, and it has attempts left. *)
Definition Eligible (self : t) (st : TaskStatus) (i : nat) (task : Subtask.t)
    : Prop :=
  tasks self !! i = Some task /\
  Subtask.status task = st /\
  DependenciesCompleted self task /\
  Subtask.attempts task < Subtask.max_attempts task.

(** Lowest priority value among the eligible ones, the earliest declared
    among equals. *)
Definition Preferred (self : t) (st : TaskStatus) (i : nat) (task : Subtask.t)
    : Prop :=
  Eligible self st i task /\
  forall j other, Eligible self st j other ->
    Subtask.priority task < Subtask.priority other \/
    (Subtask.priority task = Subtask.priority other /\ (i <= j)%nat).

(** A task whose attempts have reached its budget. *)
Definition Exhausted (self : t) (i : nat) : Prop :=
  exists task, tasks self !! i = Some task /\
               Subtask.max_attempts task <= Subtask.attempts task.

End SchedulerVocabulary.

Section MemoryVocabulary.
Import Py.
Context {vector : Type}.
Variable provider : nat -> string -> option vector.
Variable distance : vector -> vector -> Q.
Variable query_fault : Chroma.collection (vector := vector) -> vector -> option exn.

(** What a request for a text obtains from the provider: the answer of the
    first of three attempts that answers. *)
Definition answer (text : string) : option vector :=
  match provider 0%nat text with
  | Some e => Some e
  | None =>
      match provider 1%nat text with
      | Some e => Some e
      | None => provider 2%nat text
      end
  end.

(** The number of provider calls the request takes: up to the first answer,
    three when no attempt answers. *)
Definition attempts (text : string) : Z :=
  match provider 0%nat text with
  | Some _ => 1
  | None =>
      match provider 1%nat text with
      | Some _ => 2
      | None => 3
      end
  end.

(** The vector [create_embedding] yields for a text in a given state of the
    cache: the cached one, else the provider's. *)
Definition embedding_of (g : EmbeddingGenerator.t vector) (text : string)
    : option vector :=
  match EmbeddingGenerator.cache g !! text with
  | Some e => Some e
  | None => answer text
  end.

(** A search hit for a stored document at a given distance. *)
Definition hit_of (r : Document.t vector * Q) : SearchHit.t :=
  SearchHit.mk (Document.id r.1) (Document.text r.1) (Document.metadata r.1)
               (1 - r.2)%Q.

(** The documents of the collection with their distances to [q], nearest
    first. *)
Definition ranked (c : Chroma.collection) (q : vector)
    : list (Document.t vector * Q) :=
  sorted_by (fun a b => Qle_bool a.2 b.2)
            (map (fun d => (d, distance q (Document.embedding d))) c).

(** What [check_duplicate] answers once the text is embedded as [q]. *)
Definition duplicate_of (c : Chroma.collection) (q : vector) (threshold : Q)
    : option SearchHit.t :=
  match ranked c q with
  | [] => None
  | nearest :: _ =>
      if Qle_bool threshold (SearchHit.similarity (hit_of nearest))
      then Some (hit_of nearest)
      else None
  end.

(** What [check_duplicate] answers for a text, given the generator and the
    collection: nothing when the text cannot be embedded or the search
    fails. *)
Definition found_duplicate (g : EmbeddingGenerator.t vector)
    (c : Chroma.collection) (text : string) (threshold : Q)
    : option SearchHit.t :=
  match embedding_of g (strip text) with
  | Some q =>
      match query_fault c q with
      | None => duplicate_of c q threshold
      | Some _ => None
      end
  | None => None
  end.

(** An exception as the handlers of [search_memory] and [add_to_memory] pass
    it on. *)
Definition passed_on (e : exn) : exn :=
  match e with
  | ValueError => ValueError
  | other => Wrapped other
  end.

(** A stored document no stored document is nearer to [q] than, as a hit. *)
Definition Nearest (c : Chroma.collection) (q : vector) (hit : SearchHit.t)
    : Prop :=
  exists doc,
    In doc c /\
    hit = hit_of (doc, distance q (Document.embedding doc)) /\
    forall other, In other c ->
      (distance q (Document.embedding doc)
       <= distance q (Document.embedding other))%Q.

(** The id a call of [add_to_memory] writes under. *)
Definition chosen_id (env : MemoryManager.environment)
    (document_id : option string) : string :=
  match document_id with
  | Some given => given
  | None => MemoryManager.uuid4 env
  end.

End MemoryVocabulary.

(** A provider that embeds a text as its length, and the discrete distance:
    enough to run the store on concrete inputs. *)
Definition sample_provider (attempt : nat) (text : string) : option Z :=
  Some (Z.of_nat (String.length text)).

(** The same provider behind a connection that fails once: the first attempt
    of every request raises. *)
Definition flaky_provider (attempt : nat) (text : string) : option Z :=
  match attempt with
  | O => None
  | _ => sample_provider attempt text
  end.

Definition sample_distance (a b : Z) : Q := if a =? b then 0%Q else 1%Q.

Definition sample_env (n : string) : MemoryManager.environment :=
  {| MemoryManager.now_isoformat := "2026-01-01T00:00:00";
     MemoryManager.uuid4 := n |}.

Definition no_fault {A B : Type} (a : A) (b : B) : option Py.exn := None.

Definition empty_store : MemoryManager.t Z :=
  MemoryManager.mk [] EmbeddingGenerator.init.

Definition store_with_tesla : MemoryManager.t Z :=
  MemoryManager.mk [Document.mk "doc-0" "tesla" 5 ∅] EmbeddingGenerator.init.

Section MergerVocabulary.
Import Py SearchAgent.

(** [needle] occurs in [hay] as a contiguous part. *)
Definition Substring (needle hay : string) : Prop :=
  exists before after,
    hay = String.append before (String.append needle after).

(** Two contents the heuristic takes for duplicates of each other: one is a
    contiguous part of the other and, when both are longer than 50
    characters, they are equal. *)
Definition Duplicates (a b : string) : Prop :=
  (Substring a b \/ Substring b a) /\ (50 < len a /\ 50 < len b -> a = b).

(** No two items at different positions are duplicates of each other under
    the heuristic. *)
Definition NoDuplicates (results : list item) : Prop :=
  forall i j a b, i <> j -> results !! i = Some a -> results !! j = Some b ->
    is_duplicate (content_of a) [content_of b] = false.

(** Results for running the duplicate removal: a short text, a text that
    contains it, a text of 54 characters, the same text once more, and a
    text of 56 characters that contains it. *)
Definition plain (content : string) : item :=
  Web content "" "" 0%Q (RetrievedFromWeb "" "" 0%Q).

Definition long_text : string :=
  "solid state cells reach eight hundred cycles in trials".

Definition sample_results : list item :=
  [plain "battery"; plain "battery prices fell"; plain long_text;
   plain long_text; plain (String.append long_text ".."); plain ""].

(** Two Korean texts of 25 and 22 characters (63 and 56 bytes), the second a
    part of the first. *)
Definition korean_results : list item :=
  [plain "전고체 배터리는 팔백 회 충전을 견딘다고 한다";
   plain "전고체 배터리는 팔백 회 충전을 견딘다고"].

End MergerVocabulary.

Section CriticVocabulary.
Import Py QualityCritic.

(** The decoded scores object, when the reply has one. *)
Definition graded (data : list (string * json)) : option (list (string * json)) :=
  match data with
  | [] => None
  | _ =>
      match dict_get data "scores" with
      | Some (JDict scores_raw) => Some scores_raw
      | _ => None
      end
  end.

(** The value under [key] is an integer that rounds to no finite float:
    its absolute value is [2^1024 - 2^970] or more. *)
Definition OutOfRange (entries : list (string * json)) (key : string) : Prop :=
  exists z, dict_get entries key = Some (JInt z) /\
            2 ^ 1024 - 2 ^ 970 <= Z.abs z.

(** A float lies within 1.0 and 10.0. *)
Definition InRange (x : Float.t) : Prop :=
  Float.leb (Float.of_Z 1) x = true /\ Float.leb x (Float.of_Z 10) = true.

(** The float a reply supplies: a number as a float, [true] and [false] as
    1.0 and 0.0, a string as the float it spells; the fallback when the
    value is missing, null, a container or a string that spells no float. *)
Definition number (float_of_str : string -> option Float.t)
    (val : option json) (fallback : Float.t) : Float.t :=
  match val with
  | Some (JBool b) => Float.of_Z (if b then 1 else 0)
  | Some (JInt z) => Float.of_Z z
  | Some (JFloat q) => Float.of_Q q
  | Some (JStr s) =>
      match float_of_str s with
      | Some x => x
      | None => fallback
      end
  | _ => fallback
  end.

(** [y] is [x] brought into the range from 1.0 to 10.0: 10.0 unless [x] is
    below 10.0 (so also for a NaN), else [x] itself when it is above 1.0,
    else 1.0. *)
Definition Clamped (x y : Float.t) : Prop :=
  (Float.ltb x (Float.of_Z 10) = false -> y = Float.of_Z 10) /\
  (Float.ltb x (Float.of_Z 10) = true -> Float.ltb (Float.of_Z 1) x = true ->
     y = x) /\
  (Float.ltb x (Float.of_Z 10) = true -> Float.ltb (Float.of_Z 1) x = false ->
     y = Float.of_Z 1).


(** A reply that grades the first dimension with the integer [10^400]. *)
Definition huge_reply : list (string * json) :=
  [("scores", JDict [("completeness", JInt (10 ^ 400)); ("accuracy", JInt 8)]);
   ("overall", JFloat (85 # 10))].

End CriticVocabulary.

Section CoordinatorVocabulary.
Import Py ResearchCoordinator.
Variable writer : nat -> writer_input -> outcome draft.
Variable critic : nat -> critic_input -> outcome QualityCritic.review.

(** Neither stage raises, and no review passes. *)
Definition NeverPasses : Prop :=
  (forall n input, exists d, writer n input = Return d) /\
  (forall n input, exists r,
     critic n input = Return r /\ QualityCritic.pass r = false).

End CoordinatorVocabulary.

(** Stages for running the coordinator on concrete inputs: a Write stage that
    numbers its drafts, and Critique stages with fixed answers. *)
Definition sample_researcher (topic : string)
    : Py.outcome ResearchCoordinator.research_data :=
  Py.Return (ResearchCoordinator.mk_research (Some [topic]) (Some 5) (Some [])).

Definition sample_analyzer (data : option ResearchCoordinator.research_data)
    : Py.outcome ResearchCoordinator.analysis :=
  Py.Return (ResearchCoordinator.mk_analysis ["supply"; "chemistry"]
                                             (Some ["costs fall"]) []).

Definition sample_writer (n : nat) (input : ResearchCoordinator.writer_input)
    : Py.outcome ResearchCoordinator.draft :=
  Py.Return (ResearchCoordinator.mk_draft
               (match ResearchCoordinator.w_feedback input with
                | Some _ => "revised report"
                | None => "first report"
                end)).

Definition failing_critic (n : nat) (input : ResearchCoordinator.critic_input)
    : Py.outcome QualityCritic.review :=
  Py.Return (QualityCritic.mk_review [] (Py.Float.of_Q (65 # 10))
                                  "add quantitative data" false).

Definition second_time_critic (n : nat)
    (input : ResearchCoordinator.critic_input)
    : Py.outcome QualityCritic.review :=
  match n with
  | O => failing_critic n input
  | _ => Py.Return (QualityCritic.mk_review [] (Py.Float.of_Q (78 # 10)) "" true)
  end.

(** ** Further vocabulary: scheduler *)

Section SchedulerVocabularyMore.
Import Py TaskPlanner.


(** The task as [update_status] leaves it. *)
Definition marked (task : Subtask.t) (status : TaskStatus)
    (result : option string) : Subtask.t :=
  Subtask.mk (Subtask.id task) (Subtask.description task)
             (Subtask.priority task) (Subtask.dependencies task) status
             (match result with
              | Some r => Some r
              | None => Subtask.result task
              end)
             (Subtask.attempts task) (Subtask.max_attempts task).

(** How many times the object at position [i] was handed out. *)
Definition times_returned (i : nat) (trace : list (option nat)) : Z :=
  Z.of_nat (length (List.filter (fun got => bool_decide (got = Some i)) trace)).

(** The task at position [i] names a dependency that no task carries. *)
Definition DependsOnMissing (self : t) (i : nat) : Prop :=
  exists task dep_id,
    tasks self !! i = Some task /\
    In dep_id (Subtask.dependencies task) /\
    forall other, In other (tasks self) -> Subtask.id other <> dep_id.




End SchedulerVocabularyMore.

(** ** Further vocabulary: embedding cache *)

Section EmbeddingVocabularyMore.
Context {vector : Type}.
Variable provider : nat -> string -> option vector.

(** The generator after [create_embedding] was called on each text in turn,
    whatever each call returned. *)
Definition requested (texts : list string) (g : EmbeddingGenerator.t vector)
    : EmbeddingGenerator.t vector :=
  fold_left
    (fun g text => (EmbeddingGenerator.create_embedding provider text g).1)
    texts g.

(** The counters of a generator that has only served [create_embedding]. *)
Definition Consistent (g : EmbeddingGenerator.t vector) : Prop :=
  0 <= EmbeddingGenerator.cache_hits g <= EmbeddingGenerator.total_requests g /\
  EmbeddingGenerator.cache_hit_count g = EmbeddingGenerator.cache_hits g /\
  Z.of_nat (base.size (EmbeddingGenerator.cache g))
    = EmbeddingGenerator.embedding_count g /\
  EmbeddingGenerator.embedding_count g <= EmbeddingGenerator.api_call_count g.

(** The text at a position is not in the cache of the generator. *)
Definition uncached (g : EmbeddingGenerator.t vector) (item : nat * string)
    : bool :=
  match EmbeddingGenerator.cache g !! item.2 with
  | Some _ => false
  | None => true
  end.

End EmbeddingVocabularyMore.

(** ** Further vocabulary: memory store *)

Section MemoryVocabularyMore.
Import Py.
Context {vector : Type}.

(** Some stored document carries the id. *)
Definition Stored (c : Chroma.collection (vector := vector))
    (document_id : string) : Prop :=
  exists d, In d c /\ Document.id d = document_id.

(** The collection without the documents of that id. *)
Definition without (document_id : string)
    (c : Chroma.collection (vector := vector)) : Chroma.collection :=
  List.filter (fun d => negb (String.eqb (Document.id d) document_id)) c.

(** The hit shows the stored document. *)
Definition Shows (hit : SearchHit.t) (d : Document.t vector) : Prop :=
  SearchHit.id hit = Document.id d /\
  SearchHit.text hit = Document.text d /\
  SearchHit.metadata hit = Document.metadata d.

(** No two stored documents share an id. *)
Definition UniqueIds (c : Chroma.collection (vector := vector)) : Prop :=
  List.NoDup (map Document.id c).

(** The documents [cleanup_old_memories] goes after: those with a timestamp
    string that is not empty and sorts before the cutoff, unless important
    documents are kept and the document is marked important. *)
Definition Targeted (cutoff : string) (keep_important : bool)
    (metadata : gmap string json) : bool :=
  match metadata !! "timestamp" with
  | Some (JStr stamp) =>
      negb (falsy stamp) && String.ltb stamp cutoff &&
      negb (keep_important &&
            MemoryManager.truthy (match metadata !! "important" with
                                  | Some v => v
                                  | None => JBool false
                                  end))
  | _ => false
  end.

(** The document as [mark_as_important] stores it again, with the embedding
    [q] computed for its text. *)
Definition marked_important (d : Document.t vector) (q : vector)
    : Document.t vector :=
  Document.mk (Document.id d) (Document.text d) q
              (<["important" := JBool true]> (Document.metadata d)).

(** The documents counted in a [by_source] dictionary. *)
Definition total_of (sources : list (json * Z)) : Z :=
  fold_right (fun entry acc => entry.2 + acc) 0 sources.

End MemoryVocabularyMore.

Definition never_fails {A : Type} (a : A) : option Py.exn := None.

Definition sample_age (stamp : string) : option Z :=
  if String.eqb stamp "2026-01-01T00:00:00" then Some 0
  else if String.eqb stamp "2025-12-28T00:00:00" then Some 4
  else if String.eqb stamp "2025-06-01T00:00:00" then Some 214
  else None.

Definition stamped_at (stamp : string) : gmap string Py.json :=
  {["timestamp" := Py.JStr stamp]}.

Definition sample_library : MemoryManager.t Z :=
  MemoryManager.mk
    [Document.mk "doc-0" "tesla" 5
       (<["source" := Py.JStr "web_search"]> (stamped_at "2025-06-01T00:00:00"));
     Document.mk "doc-1" "solid state" 11
       (<["source" := Py.JStr "user_input"]> (stamped_at "2026-01-01T00:00:00"));
     Document.mk "doc-2" "lithium" 7
       (<["important" := Py.JBool true]> (stamped_at "2025-06-01T00:00:00"))]
    EmbeddingGenerator.init.

(** ** Further vocabulary: searching with the memory store *)

Section SearchVocabularyMore.
Import Py.
Context {vector : Type}.

(** The number of documents in the agent's memory store, 0 without one. *)
Definition stored_count (self : SearchAgent.t vector) : Z :=
  match SearchAgent.memory_manager self with
  | Some manager => Z.of_nat (Chroma.count (MemoryManager.collection manager))
  | None => 0
  end.

(** The web results that have content. *)
Definition with_content (web_results : list WebResult.t) : list WebResult.t :=
  List.filter
    (fun r => negb (falsy (SearchAgent.get_or (WebResult.content r) "")))
    web_results.

End SearchVocabularyMore.

Definition sample_web (query : string) (max_results : nat)
    : Py.outcome (list WebResult.t) :=
  Py.Return
    (take max_results
       [WebResult.mk (Some "battery prices fell") (Some "https://example.org/a")
                     (Some "Prices") (Some (8 # 10));
        WebResult.mk (Some "battery prices fell") (Some "https://example.org/b")
                     (Some "Prices again") (Some (7 # 10));
        WebResult.mk None (Some "https://example.org/c") None None]).

Definition sample_env_at (position : nat) : MemoryManager.environment :=
  {| MemoryManager.now_isoformat := "2026-01-01T00:00:00";
     MemoryManager.uuid4 :=
       String.append "uuid-" (String (ascii_of_nat (48 + position)) EmptyString) |}.

Definition sample_agent : SearchAgent.t Z :=
  SearchAgent.mk (Some sample_library).

(** ** Further vocabulary: pipeline coordinator *)

Section CoordinatorVocabularyMore.
Import Py ResearchCoordinator.
Variable writer : nat -> writer_input -> outcome draft.
Variable critic : nat -> critic_input -> outcome QualityCritic.review.

(** Neither the Write stage nor the Critique stage raises. *)
Definition AlwaysReturn : Prop :=
  (forall n input, exists d, writer n input = Return d) /\
  (forall n input, exists r, critic n input = Return r).

(** The Critique stage fails every draft in the rounds [first], ...,
    [first + count - 1] and passes every draft in the round after them. *)
Definition PassesAfter (first count : nat) : Prop :=
  (forall j input, (first <= j < first + count)%nat ->
     exists r, critic j input = Return r /\ QualityCritic.pass r = false) /\
  (forall input,
     exists r, critic (first + count) input = Return r /\
               QualityCritic.pass r = true).

(** The topic as [run] uses it. *)
Definition topic_used (topic : string) : string :=
  match strip topic with
  | EmptyString => "일반"
  | stripped => stripped
  end.

End CoordinatorVocabularyMore.

(** A Critique stage that breaks down in its second round. *)
Definition breaking_critic (n : nat) (input : ResearchCoordinator.critic_input)
    : Py.outcome QualityCritic.review :=
  match n with
  | O => failing_critic n input
  | _ => Py.Raise Py.RuntimeError
  end.

Definition failing_writer (n : nat) (input : ResearchCoordinator.writer_input)
    : Py.outcome ResearchCoordinator.draft :=
  Py.Raise Py.RuntimeError.

(** ** Further vocabulary: saving from a conversation *)

Section ConversationVocabulary.
Context {vector : Type}.

(** The number of documents in the conversation's memory store, 0 without
    one. *)
Definition remembered (self : ConversationManager.t vector) : Z :=
  match ConversationManager.memory_manager self with
  | Some manager => Z.of_nat (Chroma.count (MemoryManager.collection manager))
  | None => 0
  end.

(** The merged results that came from the web. *)
Definition from_the_web (merged_results : list SearchAgent.item)
    : list SearchAgent.item :=
  List.filter (fun result => match result with
                             | SearchAgent.Web _ _ _ _ _ => true
                             | SearchAgent.Memory _ _ _ _ => false
                             end)
              merged_results.

End ConversationVocabulary.

(** * Properties *)

(** ** Lists, positions and the stable sort *)

Section ListFacts.
Import Py.
Context {A : Type}.

Lemma enumerate_from_lookup (l : list A) (start i : nat) (x : A) :
  In (i, x) (enumerate_from start l) <->
  (start <= i)%nat /\ l !! (i - start)%nat = Some x.
Proof.
  revert start. induction l as [|y l IH]; intros start; simpl.
  - split; [tauto | intros [_ H]; discriminate].
  - rewrite IH. split.
    + intros [H | [H1 H2]].
      * inversion H; subst. split; [lia|]. now rewrite Nat.sub_diag.
      * split; [lia|]. replace (i - start)%nat with (S (i - S start)) by lia.
        exact H2.
    + intros [H1 H2]. destruct (decide (i = start)) as [->|Hne].
      * left. rewrite Nat.sub_diag in H2. simpl in H2. congruence.
      * right. split; [lia|].
        replace (i - start)%nat with (S (i - S start)) in H2 by lia.
        exact H2.
Qed.

Lemma enumerate_lookup (l : list A) (i : nat) (x : A) :
  In (i, x) (enumerate l) <-> l !! i = Some x.
Proof.
  unfold enumerate. rewrite enumerate_from_lookup, Nat.sub_0_r.
  split; [tauto | intros H; split; [lia | exact H]].
Qed.



Lemma enumerate_from_ascending (l : list A) (start : nat) :
  ascending (enumerate_from start l).
Proof.
  revert start. induction l as [|y l IH]; intros start; simpl.
  - constructor.
  - constructor; [apply IH|].
    apply List.Forall_forall. intros [j u] Hin.
    apply enumerate_from_lookup in Hin. simpl. lia.
Qed.

Lemma filter_ascending (p : nat * A -> bool) (l : list (nat * A)) :
  ascending l -> ascending (List.filter p l).
Proof.
  induction 1 as [|a l Hl IH Ha]; simpl; [constructor|].
  destruct (p a); [|exact IH].
  constructor; [exact IH|].
  rewrite List.Forall_forall in *. intros b Hb.
  apply filter_In in Hb. now apply Ha.
Qed.

Lemma ascending_split (l1 l2 : list (nat * A)) (c : nat * A) :
  ascending (l1 ++ c :: l2) ->
  (forall b, In b l1 -> (b.1 < c.1)%nat) /\
  (forall b, In b l2 -> (c.1 < b.1)%nat).
Proof.
  induction l1 as [|a l1 IH]; simpl; intros H.
  - inversion H as [|? ? _ Hall]; subst. split; [tauto|].
    now apply List.Forall_forall.
  - inversion H as [|? ? Hrest Hall]; subst.
    destruct (IH Hrest) as [IH1 IH2]. split; [|exact IH2].
    intros b [<- | Hb]; [|now apply IH1].
    rewrite List.Forall_forall in Hall. apply Hall, in_elt.
Qed.

(** The head of a stable sort, for an order that is total and transitive:
    everything before it in the input is strictly above it, everything after
    it is at least it. *)
Lemma sorted_by_head (le : A -> A -> bool) (l : list A) :
  (forall x y z, le x y = true -> le y z = true -> le x z = true) ->
  (forall x y, le x y = false -> le y x = true) ->
  match sorted_by le l with
  | [] => l = []
  | x :: _ =>
      exists l1 l2, l = l1 ++ x :: l2 /\
        (forall y, In y l1 -> le y x = false) /\
        (forall y, In y l2 -> le x y = true)
  end.
Proof.
  intros Htrans Htotal. induction l as [|a l IH]; simpl; [reflexivity|].
  destruct (sorted_by le l) as [|y s]; simpl.
  - subst l. exists [], []. repeat split; simpl; tauto.
  - destruct IH as (l1 & l2 & -> & H1 & H2).
    destruct (le a y) eqn:Hay.
    + exists [], (l1 ++ y :: l2). repeat split; simpl; [tauto|].
      intros z Hz. apply in_app_or in Hz. destruct Hz as [Hz | [<- | Hz]].
      * apply (Htrans _ y); [exact Hay|]. apply Htotal, H1, Hz.
      * exact Hay.
      * apply (Htrans _ y); [exact Hay|]. apply H2, Hz.
    + exists (a :: l1), l2. repeat split; [|exact H2].
      intros z [<- | Hz]; [exact Hay | now apply H1].
Qed.

Lemma sorted_by_length (le : A -> A -> bool) (l : list A) :
  length (sorted_by le l) = length l.
Proof.
  induction l as [|a l IH]; simpl; [reflexivity|].
  rewrite <- IH. generalize (sorted_by le l). intros s.
  induction s as [|y s IHs]; simpl; [reflexivity|].
  destruct (le a y); simpl; [reflexivity|]. now rewrite IHs.
Qed.

Lemma insert_by_In (le : A -> A -> bool) (x a : A) (l : list A) :
  In x (insert_by le a l) <-> x = a \/ In x l.
Proof.
  induction l as [|y l IH]; simpl.
  - split; [intros [H|[]]; now left | intros [H|[]]; now left].
  - destruct (le a y); simpl; [split; intuition congruence|].
    rewrite IH. split; intuition congruence.
Qed.

Lemma sorted_by_In (le : A -> A -> bool) (x : A) (l : list A) :
  In x (sorted_by le l) <-> In x l.
Proof.
  induction l as [|a l IH]; simpl; [tauto|].
  rewrite insert_by_In, IH. split; intuition congruence.
Qed.

(** The head of [sorted(l, key=key)] is the first element of least key. *)
Lemma sorted_head (key : A -> Z) (l : list A) :
  match sorted key l with
  | [] => l = []
  | x :: _ =>
      exists l1 l2, l = l1 ++ x :: l2 /\
        (forall y, In y l1 -> key x < key y) /\
        (forall y, In y l2 -> key x <= key y)
  end.
Proof.
  unfold sorted.
  pose proof (sorted_by_head (fun x y => key x <=? key y) l) as H.
  destruct (sorted_by _ l) as [|x s].
  - apply H; intros; lia.
  - destruct H as (l1 & l2 & -> & H1 & H2); [intros; lia | intros; lia |].
    exists l1, l2. repeat split.
    + intros y Hy. specialize (H1 _ Hy). lia.
    + intros y Hy. specialize (H2 _ Hy). lia.
Qed.

End ListFacts.

(** ** Task scheduler *)

Section Scheduler.
Import Py TaskPlanner.

(** [_get_task_by_id] finds the first task carrying the id. *)
Lemma get_task_by_id_lookup (self : t) (task_id : string) (i : nat)
    (task : Subtask.t) :
  _get_task_by_id self task_id = Some (i, task) ->
  tasks self !! i = Some task /\ Subtask.id task = task_id.
Proof.
  unfold _get_task_by_id. intros H. apply find_some in H as [Hin Heq].
  apply enumerate_lookup in Hin. apply String.eqb_eq in Heq. now split.
Qed.



Lemma find_enumerate_from {A} (p : A -> bool) (l : list A) (start : nat) :
  match List.find (fun c => p c.2) (enumerate_from start l) with
  | Some (i, x) =>
      (start <= i)%nat /\ l !! (i - start)%nat = Some x /\ p x = true /\
      forall j y, (j < i - start)%nat -> l !! j = Some y -> p y = false
  | None => forall y, In y l -> p y = false
  end.
Proof.
  revert start. induction l as [|a l IH]; intros start; simpl.
  - intros y [].
  - destruct (p a) eqn:Hp.
    + rewrite Nat.sub_diag. repeat split; [lia | assumption | intros; lia].
    + specialize (IH (S start)).
      destruct (List.find _ (enumerate_from (S start) l)) as [[i x]|].
      * destruct IH as (Hle & Hx & Hpx & Hbefore).
        split; [lia|].
        replace (i - start)%nat with (S (i - S start)) by lia.
        repeat split; [exact Hx | exact Hpx |].
        intros j y Hj Hy. destruct j as [|j]; simpl in Hy.
        -- congruence.
        -- apply (Hbefore j); [lia | exact Hy].
      * intros y [<- | Hy]; [exact Hp | now apply IH].
Qed.

(** [_get_task_by_id] returns the first task that carries the id, and nothing
    when no task does. *)
Lemma get_task_by_id_first (self : t) (task_id : string) :
  match _get_task_by_id self task_id with
  | Some (i, task) =>
      tasks self !! i = Some task /\ Subtask.id task = task_id /\
      forall j other, (j < i)%nat -> tasks self !! j = Some other ->
        Subtask.id other <> task_id
  | None => forall other, In other (tasks self) -> Subtask.id other <> task_id
  end.
Proof.
  unfold _get_task_by_id, enumerate.
  pose proof (find_enumerate_from
                (fun task => String.eqb (Subtask.id task) task_id)
                (tasks self) 0) as H.
  destruct (List.find _ _) as [[i task]|].
  - destruct H as (_ & Hi & Hid & Hbefore). rewrite Nat.sub_0_r in *.
    apply String.eqb_eq in Hid. repeat split; [exact Hi | exact Hid |].
    intros j other Hj Hother Heq. specialize (Hbefore j other Hj Hother).
    apply String.eqb_neq in Hbefore. contradiction.
  - intros other Hin Heq. specialize (H other Hin).
    apply String.eqb_neq in H. contradiction.
Qed.

(** The lookup finds a task exactly when it is the first that carries the
    id. *)
Lemma get_task_by_id_iff (self : t) (task_id : string) (i : nat)
    (task : Subtask.t) :
  _get_task_by_id self task_id = Some (i, task) <->
  FirstWithId self task_id i task.
Proof.
  pose proof (get_task_by_id_first self task_id) as Hfirst.
  unfold FirstWithId. split.
  - intros Hfind. rewrite Hfind in Hfirst. exact Hfirst.
  - intros (Hi & Hid & Hbefore).
    destruct (_get_task_by_id self task_id) as [[j found]|].
    + destruct Hfirst as (Hj & Hfound & Hearlier).
      destruct (lt_eq_lt_dec i j) as [[Hlt | ->] | Hgt].
      * now destruct (Hearlier i task Hlt Hi).
      * congruence.
      * now destruct (Hbefore j found Hgt Hj).
    + destruct (Hfirst task); [|exact Hid].
      apply list_elem_of_In. now apply list_elem_of_lookup_2 in Hi.
Qed.

Lemma dependencies_met_iff (self : t) (task : Subtask.t) :
  _dependencies_met self task = true <-> DependenciesCompleted self task.
Proof.
  unfold _dependencies_met, DependenciesCompleted.
  induction (Subtask.dependencies task) as [|d ds IH]; simpl.
  - split; [intros _ ? [] | reflexivity].
  - destruct (_get_task_by_id self d) as [[i dep]|] eqn:Hfind.
    + case_bool_decide as Hst.
      * split; [discriminate|]. intros H.
        destruct (H d (or_introl eq_refl)) as (j & dep' & Heq & Hc).
        apply get_task_by_id_iff in Heq. rewrite Hfind in Heq. congruence.
      * rewrite IH. split.
        -- intros H x [<- | Hx]; [|now apply H].
           exists i, dep. split; [now apply get_task_by_id_iff|].
           destruct (decide (Subtask.status dep = COMPLETED)); tauto.
        -- intros H x Hx. apply H. now right.
    + split; [discriminate|]. intros H.
      destruct (H d (or_introl eq_refl)) as (j & dep' & Heq & _).
      apply get_task_by_id_iff in Heq. rewrite Hfind in Heq. discriminate.
Qed.



Lemma executable_iff (self : t) (i : nat) (task : Subtask.t) :
  In (i, task) (executable self) <-> Eligible self PENDING i task.
Proof.
  unfold executable, Eligible. rewrite filter_In, enumerate_lookup. simpl.
  rewrite !andb_true_iff, bool_decide_eq_true, dependencies_met_iff,
    Z.ltb_lt. tauto.
Qed.

Lemma retryable_iff (self : t) (i : nat) (task : Subtask.t) :
  In (i, task) (retryable self) <-> Eligible self FAILED i task.
Proof.
  unfold retryable, Eligible. rewrite filter_In, enumerate_lookup. simpl.
  rewrite !andb_true_iff, bool_decide_eq_true, dependencies_met_iff,
    Z.ltb_lt. tauto.
Qed.

(** What [take_first] does on a list of candidates that is in declaration
    order: it starts, in place, the candidate of least priority value, the
    earliest among equals. *)
Lemma take_first_spec (self : t) (candidates : list (nat * Subtask.t)) :
  ascending candidates ->
  candidates <> [] ->
  exists i task,
    In (i, task) candidates /\
    (forall j other, In (j, other) candidates ->
       Subtask.priority task < Subtask.priority other \/
       (Subtask.priority task = Subtask.priority other /\ (i <= j)%nat)) /\
    take_first self candidates =
      (mk (<[i := start task]> (tasks self)) (original_goal self),
       Some (i, start task)).
Proof.
  intros Hasc Hne. unfold take_first.
  pose proof (sorted_head (fun c : nat * Subtask.t => Subtask.priority c.2)
                candidates) as Hhead.
  destruct (sorted _ candidates) as [|[i task] rest]; [contradiction|].
  destruct Hhead as (l1 & l2 & -> & H1 & H2).
  apply ascending_split in Hasc as [Hbefore Hafter].
  exists i, task. split; [apply in_elt|]. split; [|reflexivity].
  intros j other Hin. apply in_app_or in Hin.
  destruct Hin as [Hin | [Heq | Hin]].
  - left. exact (H1 _ Hin).
  - inversion Heq; subst. right. split; [reflexivity | lia].
  - specialize (H2 _ Hin). specialize (Hafter _ Hin). simpl in *.
    destruct (Z.eq_dec (Subtask.priority task) (Subtask.priority other));
      [right; split; [assumption | lia] | left; lia].
Qed.

Lemma executable_ascending (self : t) : ascending (executable self).
Proof. apply filter_ascending, enumerate_from_ascending. Qed.

Lemma retryable_ascending (self : t) : ascending (retryable self).
Proof. apply filter_ascending, enumerate_from_ascending. Qed.

(** What [get_next_task] returns is an eligible task, and it touches no
    other position; when it returns nothing it changes nothing. *)
Lemma get_next_task_cases (self : t) :
  match get_next_task self with
  | (self', Some (i, _)) =>
      (exists st task, Eligible self st i task) /\
      (forall j, j <> i -> tasks self' !! j = tasks self !! j)
  | (self', None) => self' = self
  end.
Proof.
  unfold get_next_task.
  assert (Hpick : forall st candidates,
            (forall i task, In (i, task) candidates -> Eligible self st i task) ->
            ascending candidates -> candidates <> [] ->
            match take_first self candidates with
            | (self', Some (i, _)) =>
                (exists st task, Eligible self st i task) /\
                (forall j, j <> i -> tasks self' !! j = tasks self !! j)
            | (self', None) => self' = self
            end).
  { intros st candidates Hel Hasc Hne.
    destruct (take_first_spec self candidates Hasc Hne)
      as (i & task & Hin & _ & ->).
    split; [exists st, task; now apply Hel|].
    intros j Hj. simpl. now apply list_lookup_insert_ne. }
  destruct (executable self) as [|c cs] eqn:Hexe.
  - destruct (retryable self) as [|c cs] eqn:Hret; [reflexivity|].
    apply (Hpick FAILED); [| rewrite <- Hret; apply retryable_ascending
                           | discriminate].
    intros i task Hin. apply retryable_iff. now rewrite Hret.
  - apply (Hpick PENDING); [| rewrite <- Hexe; apply executable_ascending
                            | discriminate].
    intros i task Hin. apply executable_iff. now rewrite Hexe.
Qed.

(** C4.  [get_next_task] returns the pending task that is eligible (every
    dependency names a task of the list, the first that carries the id, and
    that task is completed; attempts below [max_attempts]) with the
    lowest priority value, the earliest declared among equal priorities; when
    no pending task is eligible it does the same among the failed ones.  The
    task returned is the one stored at its position, now [IN_PROGRESS] and
    with one more attempt, every other field and every other task as before.
    When neither a pending nor a failed task is eligible, nothing is returned
    and the planner is unchanged. *)
Theorem get_next_task_selects (self : t) :
  match get_next_task self with
  | (self', Some (i, returned)) =>
      exists task,
        (Preferred self PENDING i task \/
         ((forall j other, ~ Eligible self PENDING j other) /\
          Preferred self FAILED i task)) /\
        returned = start task /\
        Subtask.status returned = IN_PROGRESS /\
        Subtask.attempts returned = Subtask.attempts task + 1 /\
        tasks self' = <[i := returned]> (tasks self) /\
        (forall j, j <> i -> tasks self' !! j = tasks self !! j) /\
        original_goal self' = original_goal self
  | (self', None) =>
      self' = self /\
      (forall j other, ~ Eligible self PENDING j other) /\
      (forall j other, ~ Eligible self FAILED j other)
  end.
Proof.
  unfold get_next_task.
  destruct (executable self) as [|c cs] eqn:Hexe.
  - assert (Hnone : forall j other, ~ Eligible self PENDING j other).
    { intros j other H. apply executable_iff in H. rewrite Hexe in H.
      destruct H. }
    destruct (retryable self) as [|c cs] eqn:Hret.
    + split; [reflexivity|]. split; [exact Hnone|].
      intros j other H. apply retryable_iff in H. rewrite Hret in H.
      destruct H.
    + destruct (take_first_spec self (c :: cs)) as (i & task & Hin & Hmin & ->).
      { rewrite <- Hret. apply retryable_ascending. }
      { discriminate. }
      exists task. split.
      { right. split; [exact Hnone|]. rewrite <- Hret in Hin, Hmin. split.
        - now apply retryable_iff.
        - intros j other H. apply Hmin. now apply retryable_iff. }
      repeat split; simpl.
      intros j Hj. now apply list_lookup_insert_ne.
  - destruct (take_first_spec self (c :: cs)) as (i & task & Hin & Hmin & ->).
    { rewrite <- Hexe. apply executable_ascending. }
    { discriminate. }
    exists task. split.
    { left. rewrite <- Hexe in Hin, Hmin. split.
      - now apply executable_iff.
      - intros j other H. apply Hmin. now apply executable_iff. }
    repeat split; simpl.
    intros j Hj. now apply list_lookup_insert_ne.
Qed.


(** The scheduling order of the specification's example: A (priority 1),
    B (priority 2, after A), C (priority 1, after A). *)
Example scheduler_ordering :
  let A := Subtask.new "A" "first" 1 [] in
  let B := Subtask.new "B" "second" 2 ["A"] in
  let C := Subtask.new "C" "third" 1 ["A"] in
  let p0 := mk [A; B; C] "goal" in
  let '(p1, first) := get_next_task p0 in
  let '(p2, _) := update_status p1 "A" COMPLETED None in
  let '(p3, second) := get_next_task p2 in
  let '(p4, third) := get_next_task p3 in
  (option_map fst first, option_map fst second, option_map fst third)
  = (Some 0%nat, Some 2%nat, Some 1%nat).
Proof. reflexivity. Qed.



Lemma update_status_exhausted (self : t) (task_id : string)
    (status : TaskStatus) (result : option string) (i : nat) :
  Exhausted self i -> Exhausted (update_status self task_id status result).1 i.
Proof.
  intros (task & Hi & Hle). unfold update_status.
  destruct (_get_task_by_id self task_id) as [[j found]|] eqn:Hfind;
    [|now exists task].
  apply get_task_by_id_lookup in Hfind as [Hj _]. unfold Exhausted. simpl.
  destruct (decide (j = i)) as [->|Hne].
  - assert (found = task) as -> by congruence.
    eexists. split.
    + apply list_lookup_insert_eq. now apply lookup_lt_Some in Hi.
    + now destruct result.
  - exists task. split; [|exact Hle]. now rewrite list_lookup_insert_ne.
Qed.

Lemma get_next_task_exhausted (self : t) (i : nat) :
  Exhausted self i ->
  Exhausted (get_next_task self).1 i /\
  option_map fst (get_next_task self).2 <> Some i.
Proof.
  intros (task & Hi & Hle).
  pose proof (get_next_task_cases self) as Hsel.
  destruct (get_next_task self) as [self' [[j returned]|]]; simpl.
  - destruct Hsel as [(st & picked & Hj & _ & _ & Hlt) Hother].
    assert (j <> i) as Hne.
    { intros ->. assert (picked = task) by congruence. subst. lia. }
    split.
    + exists task. split; [|exact Hle]. rewrite Hother; [exact Hi|].
      congruence.
    + congruence.
  - subst self'. split; [now exists task | discriminate].
Qed.

Lemma run_exhausted (calls : list call) (self : t) (i : nat) :
  Exhausted self i -> ~ In (Some i) (run calls self).2.
Proof.
  revert self. induction calls as [|c calls IH]; intros self Hex; simpl.
  - tauto.
  - destruct c as [|task_id status result].
    + destruct (get_next_task_exhausted self i Hex) as [Hex' Hne].
      destruct (get_next_task self) as [self' got]. simpl in *.
      specialize (IH self' Hex').
      destruct (run calls self') as [final trace]. simpl in *.
      intros [H | H]; [now apply Hne | now apply IH].
    + apply IH. now apply update_status_exhausted.
Qed.

(** C5.  A task with [max_attempts = 3] that has been started three times
    ([attempts = 3]) and is [FAILED] is never handed out again: whatever
    calls of [get_next_task] and [update_status] follow (marking it failed
    again included), no [get_next_task] returns it. *)
Theorem retry_budget_is_final (self : t) (i : nat) (task : Subtask.t)
    (calls : list call) :
  tasks self !! i = Some task ->
  Subtask.max_attempts task = 3 ->
  Subtask.attempts task = 3 ->
  Subtask.status task = FAILED ->
  ~ In (Some i) (run calls self).2.
Proof.
  intros Hi Hmax Hatt _. apply run_exhausted. exists task. split; [exact Hi|].
  lia.
Qed.

Lemma retry_budget_is_final_witness :
  let spent := Subtask.mk "task_1" "collect" 1 [] FAILED None 3 3 in
  ~ In (Some 0%nat)
       (run [GetNextTask; UpdateStatus "task_1" FAILED None; GetNextTask;
             UpdateStatus "task_1" PENDING None; GetNextTask]
            (mk [spent] "goal")).2.
Proof.
  intros spent.
  apply (retry_budget_is_final (mk [spent] "goal") 0 spent); reflexivity.
Defined.

(** The budget is spent by exactly three rounds of start-and-fail; the fourth
    request returns nothing. *)
Example retry_budget_scenario :
  (run [GetNextTask; UpdateStatus "task_1" FAILED None;
        GetNextTask; UpdateStatus "task_1" FAILED None;
        GetNextTask; UpdateStatus "task_1" FAILED None;
        GetNextTask]
       (mk [Subtask.new "task_1" "collect" 1 []] "goal")).2
  = [Some 0%nat; Some 0%nat; Some 0%nat; None].
Proof. reflexivity. Qed.

(** [decompose] falls back to one task wrapping the goal when the reply is
    not JSON, whatever the planner held before. *)
Lemma decompose_fallback (self : t) (goal : string) :
  decompose self goal NotJson =
    (mk [Subtask.mk "task_1" goal 1 [] PENDING None 0 3] goal,
     Tasks [Subtask.mk "task_1" goal 1 [] PENDING None 0 3]).
Proof. reflexivity. Qed.

(** C3.  [decompose] does not always fall back: only a reply that is not
    JSON gives the single fallback task.  A reply that is valid JSON but
    malformed as a task list (a subtask without its [id], or a top-level list
    instead of an object), a reply without content and a failed request all
    raise to the caller, whatever the goal, and leave the planner without
    tasks. *)
Theorem decompose_raises_on_malformed_reply (self : t) (goal : string)
    (description priority : json) (others items : list json) :
  decompose self goal
    (Decoded (JDict [("subtasks",
                      JList (JDict [("description", description);
                                    ("priority", priority)] :: others))]))
    = (mk [] goal, Raises (KeyError "id")) /\
  decompose self goal (Decoded (JList items))
    = (mk [] goal, Raises AttributeError) /\
  decompose self goal NoContent = (mk [] goal, Raises TypeError) /\
  decompose self goal RequestFails = (mk [] goal, Raises ApiError).
Proof. repeat split. Qed.

(** The reply of the failing input: one subtask, described and prioritised,
    without an id. *)
Example decompose_missing_id :
  decompose init "survey the market"
    (Decoded (JDict [("subtasks",
                      JList [JDict [("description", JStr "find sources");
                                    ("priority", JInt 1)]])]))
  = (mk [] "survey the market", Raises (KeyError "id")).
Proof. reflexivity. Qed.

End Scheduler.

(** ** Strings *)

Section StringFacts.
Import Py.

Lemma append_cons (c : ascii) (s r : string) :
  String.append (String c s) r = String c (String.append s r).
Proof. reflexivity. Qed.

Lemma append_nil (r : string) : String.append EmptyString r = r.
Proof. reflexivity. Qed.

Lemma append_empty_r (s : string) : String.append s EmptyString = s.
Proof.
  induction s as [|c s IH]; [reflexivity|]. rewrite append_cons. now rewrite IH.
Qed.

Lemma lstrip_unfold (s : string) :
  lstrip s = match after_space s with
             | Some rest => lstrip rest
             | None => s
             end.
Proof.
  destruct s as [|a [|b [|c rest]]]; cbn [after_space]; [reflexivity| | |].
  - cbn [lstrip]. now destruct (isspace a).
  - cbn [lstrip]. destruct (isspace a); [reflexivity|].
    now destruct (isspace2 a b).
  - change (lstrip (String a (String b (String c rest))))
      with (if isspace a then lstrip (String b (String c rest))
            else if isspace2 a b then lstrip (String c rest)
            else if isspace3 a b c then lstrip rest
            else String a (String b (String c rest))).
    destruct (isspace a); [reflexivity|].
    destruct (isspace2 a b); [reflexivity|].
    now destruct (isspace3 a b c).
Qed.

Lemma after_space_shorter (s rest : string) :
  after_space s = Some rest -> (String.length rest < String.length s)%nat.
Proof.
  destruct s as [|a [|b [|c s]]]; cbn [after_space]; [discriminate| | |].
  - destruct (isspace a); [|discriminate]. intros H. inversion H. simpl. lia.
  - destruct (isspace a); [intros H; inversion H; simpl; lia|].
    destruct (isspace2 a b); [|discriminate].
    intros H. inversion H. simpl. lia.
  - destruct (isspace a); [intros H; inversion H; simpl; lia|].
    destruct (isspace2 a b); [intros H; inversion H; simpl; lia|].
    destruct (isspace3 a b c); [|discriminate].
    intros H. inversion H. simpl. lia.
Qed.

Lemma after_space_append (s rest tail : string) :
  after_space s = Some rest ->
  after_space (String.append s tail) = Some (String.append rest tail).
Proof.
  destruct s as [|a [|b [|c s]]]; cbn [after_space]; [discriminate| | |].
  - destruct (isspace a) eqn:Ha; [|discriminate]. intros H. inversion H.
    rewrite append_cons, !append_nil.
    destruct tail as [|x [|y tail]]; cbn [after_space]; now rewrite Ha.
  - rewrite !append_cons, append_nil.
    destruct (isspace a) eqn:Ha.
    + intros H. inversion H. rewrite append_cons, append_nil.
      destruct tail as [|x tail]; cbn [after_space]; now rewrite Ha.
    + destruct (isspace2 a b) eqn:Hb; [|discriminate].
      intros H. inversion H. rewrite append_nil.
      destruct tail as [|x tail]; cbn [after_space]; now rewrite Ha, Hb.
  - rewrite !append_cons. cbn [after_space].
    destruct (isspace a); [intros H; inversion H; reflexivity|].
    destruct (isspace2 a b); [intros H; inversion H; reflexivity|].
    destruct (isspace3 a b c); [|discriminate].
    intros H. inversion H. reflexivity.
Qed.

(** What [lstrip] leaves does not start with whitespace. *)
Lemma lstrip_after_space (s : string) : after_space (lstrip s) = None.
Proof.
  remember (String.length s) as n eqn:Hn. revert s Hn.
  induction n as [n IH] using lt_wf_ind. intros s ->.
  rewrite lstrip_unfold. destruct (after_space s) as [rest|] eqn:Hs;
    [|exact Hs].
  exact (IH _ (after_space_shorter _ _ Hs) rest eq_refl).
Qed.

(** Whitespace at the start of a text is stripped with it. *)
Lemma lstrip_append (s tail : string) :
  lstrip s = EmptyString -> lstrip (String.append s tail) = lstrip tail.
Proof.
  remember (String.length s) as n eqn:Hn. revert s Hn.
  induction n as [n IH] using lt_wf_ind. intros s -> Hs.
  destruct s as [|a s]; [reflexivity|].
  rewrite lstrip_unfold in Hs.
  destruct (after_space (String a s)) as [rest|] eqn:Hafter; [|discriminate].
  rewrite lstrip_unfold, (after_space_append _ _ tail Hafter).
  exact (IH _ (after_space_shorter _ _ Hafter) rest eq_refl Hs).
Qed.

(** [rstrip] cuts a text where only whitespace follows. *)
Lemma rstrip_split (s : string) :
  exists tail, s = String.append (rstrip s) tail /\ lstrip tail = EmptyString.
Proof.
  induction s as [|c rest (tail & Hrest & Htail)]; [now exists EmptyString|].
  cbn [rstrip]. destruct (lstrip (String c rest)) as [|x kept] eqn:Hl.
  - now exists (String c rest).
  - exists tail. rewrite append_cons. now rewrite <- Hrest.
Qed.

Lemma rstrip_idempotent (s : string) : rstrip (rstrip s) = rstrip s.
Proof.
  induction s as [|c rest IH]; [reflexivity|].
  cbn [rstrip]. destruct (lstrip (String c rest)) as [|x kept] eqn:Hl;
    [reflexivity|].
  cbn [rstrip]. destruct (lstrip (String c (rstrip rest))) as [|y kept'] eqn:Hr.
  - exfalso. destruct (rstrip_split rest) as (tail & Hrest & Htail).
    rewrite Hrest, <- append_cons, (lstrip_append _ _ Hr), Htail in Hl.
    discriminate.
  - now rewrite IH.
Qed.

(** A text that does not start with whitespace does not after [rstrip]. *)
Lemma lstrip_rstrip (s : string) :
  after_space s = None -> lstrip (rstrip s) = rstrip s.
Proof.
  intros Hs. destruct s as [|c rest]; [reflexivity|].
  cbn [rstrip]. rewrite (lstrip_unfold (String c rest)), Hs.
  rewrite lstrip_unfold.
  destruct (after_space (String c (rstrip rest))) as [found|] eqn:Hafter;
    [|reflexivity].
  exfalso. destruct (rstrip_split rest) as (tail & Hrest & _).
  apply (after_space_append _ _ tail) in Hafter.
  rewrite append_cons, <- Hrest in Hafter. congruence.
Qed.

Lemma strip_idempotent (s : string) : strip (strip s) = strip s.
Proof.
  unfold strip.
  rewrite (lstrip_rstrip (lstrip s) (lstrip_after_space s)).
  apply rstrip_idempotent.
Qed.

Lemma blank_strip (s : string) : blank s = false -> blank (strip s) = false.
Proof.
  unfold blank. rewrite strip_idempotent. intros H.
  apply orb_false_iff in H as [_ H]. now rewrite H.
Qed.

(** [needle in hay] is true exactly when [hay] has [needle] as a contiguous
    part. *)
Lemma prefix_iff (p s : string) :
  String.prefix p s = true <-> exists rest, s = String.append p rest.
Proof.
  revert s. induction p as [|c p IH]; intros s; simpl.
  - split; [intros _; now exists s | intros _; now destruct s].
  - destruct s as [|d s].
    + split; [discriminate | intros [rest H]; discriminate].
    + simpl. destruct (Ascii.ascii_dec c d) as [->|Hne].
      * rewrite IH. split; intros [rest H]; exists rest;
          rewrite append_cons in *; congruence.
      * split; [discriminate|].
        intros [rest H]. rewrite append_cons in H. congruence.
Qed.

Lemma contains_iff (needle hay : string) :
  contains needle hay = true <->
  exists before after,
    hay = String.append before (String.append needle after).
Proof.
  induction hay as [|d hay IH].
  - cbn [contains]. destruct (String.prefix needle EmptyString) eqn:Hp.
    + apply prefix_iff in Hp as [rest Hrest]. split; [|reflexivity].
      intros _. now exists EmptyString, rest.
    + split; [discriminate|]. intros (before & after & H).
      destruct before; rewrite ?append_cons, ?append_nil in H.
      * assert (String.prefix needle EmptyString = true)
          by (apply prefix_iff; now exists after).
        congruence.
      * discriminate.
  - cbn [contains]. destruct (String.prefix needle (String d hay)) eqn:Hp.
    + apply prefix_iff in Hp as [rest Hrest]. split; [|reflexivity].
      intros _. now exists EmptyString, rest.
    + rewrite IH. split.
      * intros (before & after & ->). now exists (String d before), after.
      * intros (before & after & H). destruct before as [|b before].
        -- rewrite append_nil in H.
           assert (String.prefix needle (String d hay) = true)
             by (apply prefix_iff; now exists after).
           congruence.
        -- rewrite append_cons in H. inversion H; subst.
           now exists before, after.
Qed.

End StringFacts.

(** ** Embedding cache and memory store *)

Section Memory.
Import Py.
Context {vector : Type}.
Variable provider : nat -> string -> option vector.
Variable distance : vector -> vector -> Q.
Variable query_fault : Chroma.collection (vector := vector) -> vector -> option exn.
Variable add_fault :
  Chroma.collection (vector := vector) -> Document.t vector -> option exn.

Abbreviation generator := (EmbeddingGenerator.t vector).
Abbreviation manager := (MemoryManager.t vector).
Abbreviation create_embedding := (EmbeddingGenerator.create_embedding provider).
Abbreviation search_memory :=
  (MemoryManager.search_memory provider distance query_fault).
Abbreviation check_duplicate :=
  (MemoryManager.check_duplicate provider distance query_fault).
Abbreviation add_to_memory :=
  (MemoryManager.add_to_memory provider distance query_fault add_fault).

(** The retry loop: the first answer of three attempts, at the cost of one
    provider call per attempt made; three failures raise. *)
Lemma retry_from_spec (text : string) (g : generator) :
  EmbeddingGenerator._call_api_with_retry provider text g =
    (EmbeddingGenerator.mk (EmbeddingGenerator.cache g)
       (EmbeddingGenerator.embedding_count g)
       (EmbeddingGenerator.api_call_count g + attempts provider text)
       (EmbeddingGenerator.cache_hit_count g)
       (EmbeddingGenerator.cache_hits g)
       (EmbeddingGenerator.total_requests g),
     match answer provider text with
     | Some e => Return e
     | None => Raise (Wrapped ApiError)
     end).
Proof.
  unfold EmbeddingGenerator._call_api_with_retry, answer, attempts. simpl.
  unfold bind, modify, ret, raise. simpl.
  destruct (provider 0%nat text); simpl; [reflexivity|].
  destruct (provider 1%nat text); simpl;
    [now rewrite <- Z.add_assoc|].
  destruct (provider 2%nat text); simpl; now rewrite <- !Z.add_assoc.
Qed.

Lemma attempts_bounds (text : string) : 1 <= attempts provider text <= 3.
Proof.
  unfold attempts. destruct (provider 0%nat text); [lia|].
  destruct (provider 1%nat text); lia.
Qed.

(** [create_embedding], case by case. *)
Lemma create_embedding_cases (text : string) (g : generator) :
  create_embedding text g =
    if blank text then (g, Raise ValueError)
    else
      match EmbeddingGenerator.cache g !! text with
      | Some e =>
          (EmbeddingGenerator.mk (EmbeddingGenerator.cache g)
             (EmbeddingGenerator.embedding_count g)
             (EmbeddingGenerator.api_call_count g)
             (EmbeddingGenerator.cache_hit_count g + 1)
             (EmbeddingGenerator.cache_hits g + 1)
             (EmbeddingGenerator.total_requests g + 1),
           Return e)
      | None =>
          match answer provider text with
          | Some e =>
              (EmbeddingGenerator.mk
                 (<[text := e]> (EmbeddingGenerator.cache g))
                 (EmbeddingGenerator.embedding_count g + 1)
                 (EmbeddingGenerator.api_call_count g + attempts provider text)
                 (EmbeddingGenerator.cache_hit_count g)
                 (EmbeddingGenerator.cache_hits g)
                 (EmbeddingGenerator.total_requests g + 1),
               Return e)
          | None =>
              (EmbeddingGenerator.mk (EmbeddingGenerator.cache g)
                 (EmbeddingGenerator.embedding_count g)
                 (EmbeddingGenerator.api_call_count g + attempts provider text)
                 (EmbeddingGenerator.cache_hit_count g)
                 (EmbeddingGenerator.cache_hits g)
                 (EmbeddingGenerator.total_requests g + 1),
               Raise (Wrapped ApiError))
          end
      end.
Proof.
  unfold EmbeddingGenerator.create_embedding.
  destruct (blank text); [reflexivity|].
  unfold bind, modify, gets, ret, raise. simpl.
  destruct (EmbeddingGenerator.cache g !! text) as [e|]; simpl; [reflexivity|].
  rewrite retry_from_spec. now destruct (answer provider text).
Qed.

(** [create_embedding] on a text that is not blank: its result is
    [embedding_of], and it leaves [embedding_of] as it was for every text. *)
Lemma create_embedding_spec (text : string) (g : generator) :
  blank text = false ->
  exists g',
    create_embedding text g =
      (g', match embedding_of provider g text with
           | Some e => Return e
           | None => Raise (Wrapped ApiError)
           end) /\
    (forall other, embedding_of provider g' other = embedding_of provider g other).
Proof.
  intros Hblank. unfold EmbeddingGenerator.create_embedding, embedding_of.
  rewrite Hblank. unfold bind, modify, gets, ret. simpl.
  destruct (EmbeddingGenerator.cache g !! text) as [e|] eqn:Hc; simpl.
  - eexists. split; [reflexivity|]. reflexivity.
  - rewrite retry_from_spec.
    destruct (answer provider text) as [e|] eqn:Hp; simpl.
    + eexists. split; [reflexivity|]. intros other. simpl.
      destruct (decide (text = other)) as [<-|Hne].
      * rewrite lookup_insert_eq, Hc. now rewrite Hp.
      * now rewrite lookup_insert_ne by exact Hne.
    + eexists. split; [reflexivity|]. intros other. reflexivity.
Qed.

(** [create_embedding] always counts the request, so a call is never without
    effect on the generator. *)
Lemma create_embedding_counts (text : string) (g g' : generator)
    (r : outcome vector) :
  blank text = false ->
  create_embedding text g = (g', r) ->
  EmbeddingGenerator.total_requests g' = EmbeddingGenerator.total_requests g + 1.
Proof.
  intros Hblank. unfold EmbeddingGenerator.create_embedding.
  rewrite Hblank. unfold bind, modify, gets, ret. simpl.
  destruct (EmbeddingGenerator.cache g !! text) as [e|]; simpl.
  - intros H. inversion H. reflexivity.
  - rewrite retry_from_spec.
    destruct (answer provider text); simpl; intros H; inversion H; reflexivity.
Qed.

(** [search_memory] on a text that is not blank. *)
Lemma search_memory_spec (text : string) (top_k : nat)
    (filter_dict : option (gmap string json -> bool)) (self : manager) :
  blank text = false ->
  exists g',
    search_memory text top_k filter_dict self =
      (MemoryManager.mk (MemoryManager.collection self) g',
       match embedding_of provider (MemoryManager.embedding_generator self)
                          (strip text) with
       | Some q =>
           match Chroma.query distance query_fault
                   (MemoryManager.collection self) q top_k filter_dict with
           | Return results => Return (map hit_of results)
           | Raise e => Raise (passed_on e)
           end
       | None => Raise (Wrapped (Wrapped ApiError))
       end) /\
    EmbeddingGenerator.total_requests g'
      = EmbeddingGenerator.total_requests
          (MemoryManager.embedding_generator self) + 1 /\
    (forall other,
       embedding_of provider g' other =
       embedding_of provider (MemoryManager.embedding_generator self) other).
Proof.
  intros Hblank. unfold MemoryManager.search_memory. rewrite Hblank.
  unfold try_except, bind, MemoryManager.with_generator, on_field, ret.
  pose proof (create_embedding_counts (strip text)
                (MemoryManager.embedding_generator self)) as Hcount.
  destruct (create_embedding_spec (strip text)
              (MemoryManager.embedding_generator self)
              (blank_strip _ Hblank)) as (g' & Hrun & Hsame).
  rewrite Hrun. specialize (Hcount _ _ (blank_strip _ Hblank) Hrun).
  exists g'. split; [|split; [exact Hcount | exact Hsame]].
  destruct (embedding_of _ _ (strip text)) as [q|]; [|reflexivity].
  simpl. destruct (Chroma.query _ _ _ q top_k filter_dict) as [results|e];
    [reflexivity|].
  now destruct e.
Qed.

(** The generator after [search_memory] is the one [create_embedding] leaves
    for the stripped text. *)
Lemma search_memory_generator (text : string) (top_k : nat)
    (filter_dict : option (gmap string json -> bool)) (self : manager) :
  blank text = false ->
  MemoryManager.embedding_generator
    (search_memory text top_k filter_dict self).1
  = (create_embedding (strip text) (MemoryManager.embedding_generator self)).1.
Proof.
  intros Hblank. unfold MemoryManager.search_memory. rewrite Hblank.
  unfold try_except, bind, MemoryManager.with_generator, on_field, ret.
  destruct (create_embedding (strip text) _) as [g' [q|e]]; simpl.
  - destruct (Chroma.query _ _ _ q top_k filter_dict) as [results|e];
      [reflexivity | now destruct e].
  - now destruct e.
Qed.

Lemma Qle_bool_trans (x y z : Q) :
  Qle_bool x y = true -> Qle_bool y z = true -> Qle_bool x z = true.
Proof. rewrite !Qle_bool_iff. apply Qle_trans. Qed.

Lemma Qle_bool_total (x y : Q) : Qle_bool x y = false -> Qle_bool y x = true.
Proof.
  intros H. apply Qle_bool_iff. destruct (Qlt_le_dec y x) as [Hlt|Hle].
  - now apply Qlt_le_weak.
  - apply Qle_bool_iff in Hle. congruence.
Qed.

(** The first entry of the ranking is a stored document that no stored
    document is nearer than. *)
Lemma ranked_head (c : Chroma.collection) (q : vector) :
  match ranked distance c q with
  | [] => c = []
  | (doc, dist) :: _ =>
      In doc c /\ dist = distance q (Document.embedding doc) /\
      forall other, In other c ->
        (dist <= distance q (Document.embedding other))%Q
  end.
Proof.
  unfold ranked.
  pose proof (sorted_by_head
    (fun a b : Document.t vector * Q => Qle_bool a.2 b.2)
    (map (fun d => (d, distance q (Document.embedding d))) c)) as H.
  destruct (sorted_by _ _) as [|[doc dist] rest].
  - destruct c; [reflexivity|]. simpl in H.
    discriminate H; eauto using Qle_bool_trans, Qle_bool_total.
  - destruct H as (l1 & l2 & Heq & H1 & H2);
      [intros ? ? ?; apply Qle_bool_trans | intros ? ?; apply Qle_bool_total |].
    assert (Hself : In (doc, dist)
              (map (fun d => (d, distance q (Document.embedding d))) c)).
    { rewrite Heq. apply in_elt. }
    apply in_map_iff in Hself as (d0 & Hd0 & Hc). inversion Hd0; subst d0 dist.
    split; [exact Hc|]. split; [reflexivity|].
    intros other Hother.
    assert (Ho : In (other, distance q (Document.embedding other))
              (l1 ++ (doc, distance q (Document.embedding doc)) :: l2)).
    { rewrite <- Heq. apply in_map_iff. now exists other. }
    apply in_app_or in Ho. destruct Ho as [Ho | [Ho | Ho]].
    + specialize (H1 _ Ho). simpl in H1. apply Qle_bool_total in H1.
      now apply Qle_bool_iff in H1.
    + inversion Ho. apply Qle_refl.
    + specialize (H2 _ Ho). simpl in H2. now apply Qle_bool_iff in H2.
Qed.

Lemma query_nearest (c : Chroma.collection) (q : vector) :
  Chroma.query distance query_fault c q 1 None =
    match query_fault c q with
    | Some e => Raise e
    | None => Return (take 1 (ranked distance c q))
    end.
Proof. reflexivity. Qed.

Lemma check_duplicate_spec (text : string) (threshold : Q) (self : manager) :
  blank text = false ->
  exists g',
    check_duplicate text threshold self =
      (MemoryManager.mk (MemoryManager.collection self) g',
       Return (found_duplicate provider distance query_fault
                 (MemoryManager.embedding_generator self)
                 (MemoryManager.collection self) text threshold)) /\
    EmbeddingGenerator.total_requests g'
      = EmbeddingGenerator.total_requests
          (MemoryManager.embedding_generator self) + 1 /\
    (forall other,
       embedding_of provider g' other =
       embedding_of provider (MemoryManager.embedding_generator self) other).
Proof.
  intros Hblank. unfold MemoryManager.check_duplicate. rewrite Hblank.
  unfold try_except, bind, found_duplicate.
  destruct (search_memory_spec text 1 None self Hblank)
    as (g' & -> & Hcount & Hsame).
  exists g'. split; [|split; [exact Hcount | exact Hsame]].
  destruct (embedding_of _ _ (strip text)) as [q|]; [|reflexivity].
  rewrite query_nearest. destruct (query_fault _ q); [reflexivity|].
  unfold duplicate_of.
  destruct (ranked _ _ q) as [|nearest rest]; [reflexivity|]. simpl.
  destruct (Qle_bool threshold _); reflexivity.
Qed.

Lemma duplicate_of_some (c : Chroma.collection) (q : vector) (threshold : Q)
    (hit : SearchHit.t) :
  duplicate_of distance c q threshold = Some hit ->
  (threshold <= SearchHit.similarity hit)%Q /\ Nearest distance c q hit.
Proof.
  unfold duplicate_of. pose proof (ranked_head c q) as Hhead.
  destruct (ranked distance c q) as [|[doc dist] rest]; [discriminate|].
  destruct (Qle_bool threshold _) eqn:Hle; [|discriminate].
  intros H. inversion H; subst hit. apply Qle_bool_iff in Hle.
  split; [exact Hle|]. destruct Hhead as (Hin & -> & Hmin).
  now exists doc.
Qed.

Lemma duplicate_of_none (c : Chroma.collection) (q : vector) (threshold : Q) :
  duplicate_of distance c q threshold = None ->
  forall doc, In doc c ->
    (1 - distance q (Document.embedding doc) < threshold)%Q.
Proof.
  unfold duplicate_of. pose proof (ranked_head c q) as Hhead.
  destruct (ranked distance c q) as [|[first dist] rest].
  - subst c. intros _ doc [].
  - destruct (Qle_bool threshold _) eqn:Hle; [discriminate|].
    intros _ doc Hdoc. destruct Hhead as (_ & -> & Hmin).
    specialize (Hmin _ Hdoc). simpl in Hle.
    assert (~ (threshold <= 1 - distance q (Document.embedding first))%Q)
      as Hnot by (rewrite <- Qle_bool_iff; congruence).
    apply Qnot_le_lt in Hnot. lra.
Qed.

(** [add_to_memory] on a text that is not blank, with the duplicate check on
    or off: the document it would write is the same either way. *)
Lemma add_to_memory_spec (env : MemoryManager.environment) (text : string)
    (metadata : option (gmap string json)) (document_id : option string)
    (self : manager) :
  blank text = false ->
  exists stamped, forall check_dup, exists g',
    add_to_memory env text metadata document_id check_dup self =
      match (if check_dup
             then found_duplicate provider distance query_fault
                    (MemoryManager.embedding_generator self)
                    (MemoryManager.collection self) text (95 # 100)
             else None) with
      | Some found =>
          (MemoryManager.mk (MemoryManager.collection self) g',
           Return (SearchHit.id found))
      | None =>
          match embedding_of provider (MemoryManager.embedding_generator self)
                             (strip text) with
          | None =>
              (MemoryManager.mk (MemoryManager.collection self) g',
               Raise (Wrapped (Wrapped ApiError)))
          | Some q =>
              match Chroma.add add_fault (MemoryManager.collection self)
                      (Document.mk (chosen_id env document_id) (strip text) q
                                   stamped) with
              | Return stored =>
                  (MemoryManager.mk stored g',
                   Return (chosen_id env document_id))
              | Raise e =>
                  (MemoryManager.mk (MemoryManager.collection self) g',
                   Raise (passed_on e))
              end
          end
      end /\
    (forall other,
       embedding_of provider g' other =
       embedding_of provider (MemoryManager.embedding_generator self) other).
Proof.
  intros Hblank. eexists ?[stamped]. intros check_dup.
  unfold MemoryManager.add_to_memory. rewrite Hblank.
  unfold try_except, bind.
  assert (Hstep : forall (g1 : generator),
    (forall other, embedding_of provider g1 other =
       embedding_of provider (MemoryManager.embedding_generator self) other) ->
    exists g2,
      MemoryManager.with_generator
        (create_embedding (strip text))
        (MemoryManager.mk (MemoryManager.collection self) g1)
      = (MemoryManager.mk (MemoryManager.collection self) g2,
         match embedding_of provider (MemoryManager.embedding_generator self)
                            (strip text) with
         | Some q => Return q
         | None => Raise (Wrapped ApiError)
         end) /\
      (forall other, embedding_of provider g2 other =
         embedding_of provider (MemoryManager.embedding_generator self) other)).
  { intros g1 Hsame1. unfold MemoryManager.with_generator, on_field. simpl.
    destruct (create_embedding_spec (strip text) g1 (blank_strip _ Hblank))
      as (g2 & -> & Hsame2).
    rewrite Hsame1. exists g2. split; [reflexivity|].
    intros other. now rewrite Hsame2. }
  destruct check_dup.
  - destruct (check_duplicate_spec (strip text) (95 # 100) self
                (blank_strip _ Hblank)) as (g1 & -> & _ & Hsame1).
    unfold found_duplicate at 1 2. rewrite strip_idempotent.
    fold (found_duplicate provider distance query_fault
            (MemoryManager.embedding_generator self)
            (MemoryManager.collection self) text (95 # 100)).
    destruct (found_duplicate _ _ _ _ _ text _) as [found|].
    + exists g1. split; [reflexivity | exact Hsame1].
    + destruct (Hstep g1 Hsame1) as (g2 & -> & Hsame2).
      destruct (embedding_of _ _ (strip text)) as [q|].
      * simpl.
        match goal with
        | |- context [Document.mk _ _ _ ?m] =>
            tryif is_evar m then fail else instantiate (stamped := m)
        end.
        destruct (Chroma.add _ _ _) as [stored|e].
        -- exists g2. split; [reflexivity | exact Hsame2].
        -- exists g2. split; [now destruct e | exact Hsame2].
      * exists g2. split; [reflexivity | exact Hsame2].
  - unfold ret at 1.
    destruct self as [c g]. simpl.
    destruct (Hstep g (fun _ => eq_refl)) as (g2 & Hrun & Hsame2).
    simpl in Hrun. rewrite Hrun.
    destruct (embedding_of _ g (strip text)) as [q|].
    + simpl. destruct (Chroma.add _ _ _) as [stored|e].
      * exists g2. split; [reflexivity | exact Hsame2].
      * exists g2. split; [now destruct e | exact Hsame2].
    + exists g2. split; [reflexivity | exact Hsame2].
Qed.


Lemma check_duplicate_generator (text : string) (threshold : Q)
    (self : manager) :
  blank text = false ->
  MemoryManager.embedding_generator (check_duplicate text threshold self).1
  = (create_embedding (strip text) (MemoryManager.embedding_generator self)).1.
Proof.
  intros Hblank. rewrite <- (search_memory_generator text 1 None self Hblank).
  unfold MemoryManager.check_duplicate. rewrite Hblank.
  unfold try_except, bind, ret.
  destruct (search_memory text 1 None self) as [self' [results|e]];
    [|reflexivity].
  destruct results as [|most_similar rest]; [reflexivity|].
  now destruct (Qle_bool threshold _).
Qed.

(** C6 (amended).  For a text that is not blank, [check_duplicate] returns
    and leaves the collection as it was.  When the text can be embedded and
    the search does not fail, it returns a stored document that no stored
    document is nearer than, with its id, text, metadata and similarity,
    exactly when that similarity reaches the threshold, and nothing when
    every nearest document stays below it (an empty store included);
    otherwise it returns nothing.  The embedding generator is not left as it
    was.  The request is counted.  When the stripped text is in the cache, a
    cache hit is counted, and the cache, the count of provider calls and the
    count of embeddings stay.  When it is not, one provider call is counted
    per attempt made, up to the first that answers (one to three); its
    vector is put into the cache under the stripped text and counted as an
    embedding; when no attempt answers, the cache and the count of
    embeddings stay. *)
Theorem check_duplicate_threshold (text : string) (threshold : Q)
    (self : manager) :
  blank text = false ->
  exists self' found,
    check_duplicate text threshold self = (self', Return found) /\
    MemoryManager.collection self' = MemoryManager.collection self /\
    (let g := MemoryManager.embedding_generator self in
     let g' := MemoryManager.embedding_generator self' in
     EmbeddingGenerator.total_requests g'
       = EmbeddingGenerator.total_requests g + 1 /\
     match EmbeddingGenerator.cache g !! strip text with
     | Some _ =>
         EmbeddingGenerator.cache g' = EmbeddingGenerator.cache g /\
         EmbeddingGenerator.api_call_count g'
           = EmbeddingGenerator.api_call_count g /\
         EmbeddingGenerator.embedding_count g'
           = EmbeddingGenerator.embedding_count g /\
         EmbeddingGenerator.cache_hits g'
           = EmbeddingGenerator.cache_hits g + 1 /\
         EmbeddingGenerator.cache_hit_count g'
           = EmbeddingGenerator.cache_hit_count g + 1
     | None =>
         EmbeddingGenerator.api_call_count g'
           = EmbeddingGenerator.api_call_count g
             + match provider 0%nat (strip text), provider 1%nat (strip text)
               with
               | Some _, _ => 1
               | None, Some _ => 2
               | None, None => 3
               end /\
         EmbeddingGenerator.cache_hits g' = EmbeddingGenerator.cache_hits g /\
         EmbeddingGenerator.cache_hit_count g'
           = EmbeddingGenerator.cache_hit_count g /\
         match embedding_of provider g (strip text) with
         | Some q =>
             EmbeddingGenerator.cache g'
               = <[strip text := q]> (EmbeddingGenerator.cache g) /\
             EmbeddingGenerator.embedding_count g'
               = EmbeddingGenerator.embedding_count g + 1
         | None =>
             EmbeddingGenerator.cache g' = EmbeddingGenerator.cache g /\
             EmbeddingGenerator.embedding_count g'
               = EmbeddingGenerator.embedding_count g
         end
     end) /\
    match embedding_of provider (MemoryManager.embedding_generator self)
                       (strip text) with
    | None => found = None
    | Some q =>
        match query_fault (MemoryManager.collection self) q with
        | Some _ => found = None
        | None =>
            match found with
            | Some hit =>
                (threshold <= SearchHit.similarity hit)%Q /\
                Nearest distance (MemoryManager.collection self) q hit
            | None =>
                forall hit,
                  Nearest distance (MemoryManager.collection self) q hit ->
                  (SearchHit.similarity hit < threshold)%Q
            end
        end
    end.
Proof.
  intros Hblank.
  pose proof (check_duplicate_generator text threshold self Hblank) as Hgen.
  destruct (check_duplicate_spec text threshold self Hblank)
    as (g' & Hrun & Hcount & _).
  rewrite Hrun in Hgen. cbn [fst MemoryManager.embedding_generator] in Hgen.
  eexists. eexists. split; [exact Hrun|]. split; [reflexivity|].
  split.
  - cbn zeta. cbn [MemoryManager.embedding_generator].
    split; [exact Hcount|]. rewrite Hgen, create_embedding_cases.
    rewrite (blank_strip _ Hblank). unfold embedding_of.
    destruct (EmbeddingGenerator.cache _ !! strip text) as [e|]; simpl;
      [repeat split|].
    assert (attempts provider (strip text)
            = match provider 0%nat (strip text), provider 1%nat (strip text)
              with
              | Some _, _ => 1
              | None, Some _ => 2
              | None, None => 3
              end) as <-.
    { unfold attempts. destruct (provider 0%nat (strip text)); [reflexivity|].
      now destruct (provider 1%nat (strip text)). }
    destruct (answer provider (strip text)); simpl; repeat split.
  - unfold found_duplicate.
    destruct (embedding_of _ _ (strip text)) as [q|]; [|reflexivity].
    destruct (query_fault _ q); [reflexivity|].
    destruct (duplicate_of _ _ q threshold) as [hit|] eqn:Hdup.
    + now apply duplicate_of_some.
    + intros hit (doc & Hin & -> & _). simpl.
      apply (duplicate_of_none _ _ _ Hdup doc Hin).
Qed.

(** C9.  [check_duplicate] never raises: it always returns, with nothing for
    a blank text and with nothing whenever [search_memory] raises; and when
    [add_to_memory] raises with the duplicate check on, it raises the same
    exception with the check off. *)
Theorem check_duplicate_never_raises (text : string) (threshold : Q)
    (self : manager) :
  (exists self' found,
     check_duplicate text threshold self = (self', Return found)) /\
  (blank text = true ->
     check_duplicate text threshold self = (self, Return None)) /\
  (forall self' e,
     search_memory text 1 None self = (self', Raise e) ->
     check_duplicate text threshold self = (self', Return None)) /\
  (forall env metadata document_id self' e,
     add_to_memory env text metadata document_id true self = (self', Raise e) ->
     exists self'',
       add_to_memory env text metadata document_id false self
       = (self'', Raise e)).
Proof.
  split; [|split; [|split]].
  - destruct (blank text) eqn:Hblank.
    + unfold MemoryManager.check_duplicate, try_except. rewrite Hblank.
      now exists self, None.
    + destruct (check_duplicate_spec text threshold self Hblank)
        as (g' & Hrun & _). eauto.
  - intros Hblank. unfold MemoryManager.check_duplicate, try_except.
    now rewrite Hblank.
  - intros self' e Hsearch.
    unfold MemoryManager.check_duplicate, try_except, bind.
    destruct (blank text) eqn:Hblank.
    + revert Hsearch. unfold MemoryManager.search_memory, try_except.
      rewrite Hblank. simpl. intros H. inversion H. reflexivity.
    + now rewrite Hsearch.
  - intros env metadata document_id self' e Hadd.
    destruct (blank text) eqn:Hblank.
    + revert Hadd. unfold MemoryManager.add_to_memory, try_except.
      rewrite Hblank. simpl. intros H. inversion H. now exists self'.
    + destruct (add_to_memory_spec env text metadata document_id self Hblank)
        as (stamped & Hspec).
      destruct (Hspec true) as (g1 & Hon & _).
      destruct (Hspec false) as (g2 & Hoff & _).
      rewrite Hadd in Hon. rewrite Hoff.
      destruct (found_duplicate _ _ _ _ _ text _); [discriminate|].
      destruct (embedding_of _ _ (strip text)) as [q|].
      * destruct (Chroma.add _ _ _) as [stored|x]; [discriminate|].
        inversion Hon. eauto.
      * inversion Hon. eauto.
Qed.

Lemma chroma_add_fresh (c stored : Chroma.collection)
    (doc : Document.t vector) :
  (forall other, In other c -> Document.id other <> Document.id doc) ->
  Chroma.add add_fault c doc = Return stored ->
  stored = c ++ [doc].
Proof.
  intros Hfresh. unfold Chroma.add.
  destruct (add_fault c doc); [discriminate|].
  destruct (existsb _ c) eqn:Hex; [|congruence].
  apply existsb_exists in Hex as (other & Hin & Heq).
  apply String.eqb_eq in Heq. now apply Hfresh in Hin.
Qed.

(** Once a copy of the text is stored under a fresh id, and nothing nearer
    was there before, the copy is what the duplicate check finds. *)
Lemma duplicate_of_stored_copy (c : Chroma.collection) (q : vector)
    (doc : Document.t vector) :
  (distance q q == 0)%Q ->
  Document.embedding doc = q ->
  duplicate_of distance c q (95 # 100) = None ->
  duplicate_of distance (c ++ [doc]) q (95 # 100)
  = Some (hit_of (doc, distance q q)).
Proof.
  intros Hzero Hemb Hnone. unfold duplicate_of.
  pose proof (ranked_head (c ++ [doc]) q) as Hhead.
  destruct (ranked distance (c ++ [doc]) q) as [|[first dist] rest].
  - now destruct c.
  - destruct Hhead as (Hin & -> & Hmin).
    assert (Hle : (distance q (Document.embedding first) <= 0)%Q).
    { specialize (Hmin doc (in_elt _ _ _)). rewrite Hemb in Hmin. lra. }
    apply in_app_or in Hin. destruct Hin as [Hin | [<- | []]].
    + pose proof (duplicate_of_none _ _ _ Hnone _ Hin). lra.
    + rewrite Hemb.
      assert (Qle_bool (95 # 100) (SearchHit.similarity
                (hit_of (doc, distance q q))) = true) as ->; [|reflexivity].
      apply Qle_bool_iff. simpl. lra.
Qed.

(** C2 (amended).  When a first [add_to_memory] of a text with the duplicate
    check on returns an id, a second one of the same text returns the same id
    and leaves the collection exactly as the first one left it.  The id is
    that of a stored document that no stored document is nearer to the text
    than, at a similarity of 0.95 or more.  When some stored document had
    reached 0.95 before the first call, that call wrote nothing either, and
    the id is that of a nearest document of the collection as it was: the
    count grows by 0.  When every stored document was below 0.95, the first
    call appended one document, the stripped text under the id it returned:
    the count grows by exactly 1.  (A text is at distance 0 from itself, the
    similarity search does not fail, and the id drawn by the first call is
    not in the store yet.) *)
Theorem add_to_memory_idempotent (env1 env2 : MemoryManager.environment)
    (text : string) (metadata1 metadata2 : option (gmap string json))
    (self self1 : manager) (id1 : string) :
  (forall q, distance q q == 0)%Q ->
  (forall c q, query_fault c q = None) ->
  (forall doc, In doc (MemoryManager.collection self) ->
     Document.id doc <> MemoryManager.uuid4 env1) ->
  add_to_memory env1 text metadata1 None true self = (self1, Return id1) ->
  exists self2 q,
    add_to_memory env2 text metadata2 None true self1 = (self2, Return id1) /\
    MemoryManager.collection self2 = MemoryManager.collection self1 /\
    Chroma.count (MemoryManager.collection self2)
      = Chroma.count (MemoryManager.collection self1) /\
    embedding_of provider (MemoryManager.embedding_generator self)
                 (strip text) = Some q /\
    (exists found,
       Nearest distance (MemoryManager.collection self1) q found /\
       SearchHit.id found = id1 /\
       (95 # 100 <= SearchHit.similarity found)%Q) /\
    ((exists doc, In doc (MemoryManager.collection self) /\
        (95 # 100 <= 1 - distance q (Document.embedding doc))%Q) ->
     MemoryManager.collection self1 = MemoryManager.collection self /\
     Chroma.count (MemoryManager.collection self1)
       = Chroma.count (MemoryManager.collection self) /\
     exists found,
       Nearest distance (MemoryManager.collection self) q found /\
       SearchHit.id found = id1 /\
       (95 # 100 <= SearchHit.similarity found)%Q) /\
    ((forall doc, In doc (MemoryManager.collection self) ->
        (1 - distance q (Document.embedding doc) < 95 # 100)%Q) ->
     id1 = MemoryManager.uuid4 env1 /\
     (exists stamped,
        MemoryManager.collection self1
        = MemoryManager.collection self
          ++ [Document.mk id1 (strip text) q stamped]) /\
     Chroma.count (MemoryManager.collection self1)
       = S (Chroma.count (MemoryManager.collection self))).
Proof.
  intros Hzero Hsearch Hfresh Hfirst.
  assert (Hblank : blank text = false).
  { destruct (blank text) eqn:Hb; [|reflexivity]. revert Hfirst.
    unfold MemoryManager.add_to_memory, try_except. rewrite Hb. discriminate. }
  destruct (add_to_memory_spec env1 text metadata1 None self Hblank)
    as (stamped1 & Hspec1).
  destruct (Hspec1 true) as (g1 & Hrun1 & Hsame1). clear Hspec1.
  rewrite Hfirst in Hrun1. unfold found_duplicate in Hrun1.
  destruct (embedding_of _ _ (strip text)) as [q|] eqn:Hq; [|discriminate].
  rewrite Hsearch in Hrun1.
  destruct (duplicate_of _ _ q _) as [found|] eqn:Hdup.
  - inversion Hrun1; subst self1 id1. clear Hrun1.
    destruct (add_to_memory_spec env2 text metadata2 None
                (MemoryManager.mk (MemoryManager.collection self) g1) Hblank)
      as (stamped2 & Hspec2).
    destruct (Hspec2 true) as (g2 & Hrun2 & _). clear Hspec2.
    unfold found_duplicate in Hrun2. simpl in Hrun2.
    rewrite Hsame1, Hq, Hsearch, Hdup in Hrun2.
    pose proof (duplicate_of_some _ _ _ _ Hdup) as [Hle Hnear].
    eexists. exists q. split; [exact Hrun2|]. simpl.
    split; [reflexivity|]. split; [reflexivity|]. split; [reflexivity|].
    split; [now exists found|]. split.
    + intros _. split; [reflexivity|]. split; [reflexivity|]. now exists found.
    + intros Hbelow. exfalso.
      destruct Hnear as (doc & Hin & -> & _).
      specialize (Hbelow doc Hin). simpl in Hle. lra.
  - destruct (Chroma.add _ _ _) as [stored|x] eqn:Hadd; [|discriminate].
    inversion Hrun1; subst self1 id1. clear Hrun1.
    apply chroma_add_fresh in Hadd; [|exact Hfresh]. subst stored.
    destruct (add_to_memory_spec env2 text metadata2 None
                (MemoryManager.mk
                   (MemoryManager.collection self ++
                      [Document.mk (chosen_id env1 None) (strip text) q
                                   stamped1]) g1) Hblank)
      as (stamped2 & Hspec2).
    destruct (Hspec2 true) as (g2 & Hrun2 & _). clear Hspec2.
    unfold found_duplicate in Hrun2. simpl in Hrun2.
    rewrite Hsame1, Hq, Hsearch in Hrun2.
    pose proof (duplicate_of_stored_copy (MemoryManager.collection self) q
                  (Document.mk (MemoryManager.uuid4 env1) (strip text) q
                               stamped1)
                  (Hzero q) eq_refl Hdup) as Hcopy.
    rewrite Hcopy in Hrun2.
    pose proof (duplicate_of_some _ _ _ _ Hcopy) as [Hle Hnear].
    eexists. exists q. split; [exact Hrun2|]. simpl.
    split; [reflexivity|]. split; [reflexivity|]. split; [reflexivity|].
    split; [eexists; split; [exact Hnear|]; split; [reflexivity | exact Hle]|].
    split.
    + intros (doc & Hin & Hle'). exfalso.
      pose proof (duplicate_of_none _ _ _ Hdup doc Hin). lra.
    + intros _. split; [reflexivity|]. split; [now exists stamped1|].
      unfold Chroma.count. rewrite length_app. simpl. lia.
Qed.

End Memory.

(** *** The memory store on sample services *)



Lemma sample_distance_refl (q : Z) : (sample_distance q q == 0)%Q.
Proof. unfold sample_distance. now rewrite Z.eqb_refl. Qed.

(** C2, as stated, fails on a store that already holds the text: both calls
    return the id of the stored document and the count does not grow. *)
Lemma add_to_memory_known_text_adds_nothing :
  let first :=
    MemoryManager.add_to_memory sample_provider sample_distance
      no_fault no_fault
      (sample_env "uuid-1") "tesla" None None true store_with_tesla in
  let second :=
    MemoryManager.add_to_memory sample_provider sample_distance
      no_fault no_fault
      (sample_env "uuid-2") "tesla" None None true first.1 in
  first.2 = Py.Return "doc-0" /\
  second.2 = Py.Return "doc-0" /\
  Chroma.count (MemoryManager.collection second.1)
  <> S (Chroma.count (MemoryManager.collection store_with_tesla)).
Proof. vm_compute. split; [reflexivity|]. split; [reflexivity | discriminate]. Qed.

Lemma add_to_memory_idempotent_witness :
  let first :=
    MemoryManager.add_to_memory sample_provider sample_distance
      no_fault no_fault
      (sample_env "uuid-1") "tesla" None None true empty_store in
  exists self2,
    MemoryManager.add_to_memory sample_provider sample_distance
      no_fault no_fault
      (sample_env "uuid-2") "tesla" None None true first.1
    = (self2, Py.Return "uuid-1") /\
    MemoryManager.collection self2 = MemoryManager.collection first.1 /\
    Chroma.count (MemoryManager.collection first.1) = 1%nat.
Proof.
  intros first.
  destruct (add_to_memory_idempotent sample_provider sample_distance
              no_fault no_fault
              (sample_env "uuid-1") (sample_env "uuid-2") "tesla" None None
              empty_store first.1 "uuid-1")
    as (self2 & q & Hsecond & Hsame & _ & _ & _ & _ & Hnew).
  - exact sample_distance_refl.
  - reflexivity.
  - intros doc [].
  - vm_compute. reflexivity.
  - exists self2. split; [exact Hsecond|]. split; [exact Hsame|].
    destruct Hnew as (_ & _ & Hcount); [intros doc [] | exact Hcount].
Defined.

(** A text of whitespace only is refused, whatever the whitespace: here a
    tab, a no-break space (U+00A0) and an ideographic space (U+3000). *)
Example add_to_memory_refuses_whitespace :
  (MemoryManager.add_to_memory sample_provider sample_distance
     no_fault no_fault
     (sample_env "uuid-1") "	  　" None None true empty_store).2
  = Py.Raise Py.ValueError.
Proof. reflexivity. Qed.

(** C6, as stated, fails in its last part: the call leaves its mark on the
    embedding generator (the request counter, and the cache on a miss). *)
Lemma check_duplicate_changes_generator :
  (MemoryManager.check_duplicate sample_provider sample_distance no_fault
     "tesla" (95 # 100) empty_store).1
  <> empty_store.
Proof.
  intros H.
  apply (f_equal (fun m => EmbeddingGenerator.total_requests
                             (MemoryManager.embedding_generator m))) in H.
  vm_compute in H. discriminate.
Qed.

Lemma check_duplicate_threshold_witness :
  exists self' hit,
    MemoryManager.check_duplicate sample_provider sample_distance no_fault
      "tesla" (95 # 100) store_with_tesla = (self', Py.Return (Some hit)) /\
    MemoryManager.collection self' = MemoryManager.collection store_with_tesla /\
    EmbeddingGenerator.api_call_count (MemoryManager.embedding_generator self')
      = 1 /\
    (95 # 100 <= SearchHit.similarity hit)%Q /\
    Nearest sample_distance (MemoryManager.collection store_with_tesla) 5 hit.
Proof.
  destruct (check_duplicate_threshold sample_provider sample_distance no_fault
              "tesla" (95 # 100) store_with_tesla eq_refl)
    as (self' & found & Hrun & Hsame & [_ Hgen] & Hfound).
  change (embedding_of sample_provider
            (MemoryManager.embedding_generator store_with_tesla)
            (Py.strip "tesla")) with (Some 5) in Hfound.
  unfold no_fault in Hfound.
  destruct found as [hit|].
  - exists self', hit. split; [exact Hrun|]. split; [exact Hsame|].
    split; [exact (proj1 Hgen) | exact Hfound].
  - exfalso. vm_compute in Hrun. discriminate.
Defined.

(** ** Retrieval merger *)

Section Merger.
Import Py SearchAgent.



(** The duplicate test lifts the test against one kept content to the list
    of kept contents. *)
Lemma is_duplicate_exists (content : string) (seen_contents : list string) :
  is_duplicate content seen_contents = true <->
  exists seen, In seen seen_contents /\ is_duplicate content [seen] = true.
Proof.
  induction seen_contents as [|seen rest IH].
  - split; [discriminate | intros (? & [] & _)].
  - assert (Hone : is_duplicate content (seen :: rest) =
                   is_duplicate content [seen] || is_duplicate content rest).
    { simpl. destruct (contains content seen || contains seen content);
        [|reflexivity].
      destruct ((50 <? len content) && (50 <? len seen)); [|reflexivity].
      destruct (String.eqb content seen); reflexivity. }
    rewrite Hone, orb_true_iff, IH. split.
    + intros [H | (s & Hin & H)]; [exists seen | exists s]; simpl; tauto.
    + intros (s & [<- | Hin] & H); [now left | right; now exists s].
Qed.

Lemma falsy_iff (s : string) : falsy s = true <-> s = EmptyString.
Proof. destruct s; simpl; split; congruence. Qed.

(** The test against one kept content is the heuristic. *)
Lemma is_duplicate_pair (content seen : string) :
  is_duplicate content [seen] = true <-> Duplicates content seen.
Proof.
  unfold Duplicates, Substring. rewrite <- !contains_iff. simpl.
  destruct (String.eqb_spec content seen) as [->|Hne].
  - assert (contains seen seen = true) as ->.
    { apply contains_iff. exists EmptyString, EmptyString.
      rewrite append_nil. symmetry. apply append_empty_r. }
    simpl. destruct ((50 <? len seen) && (50 <? len seen)); split; auto.
  - destruct (contains content seen || contains seen content) eqn:Hpart.
    + apply orb_true_iff in Hpart.
      destruct (Z.ltb_spec 50 (len content)) as [Hc|Hc];
        destruct (Z.ltb_spec 50 (len seen)) as [Hs|Hs]; simpl.
      * split; [discriminate|]. intros [_ Heq]. now destruct Hne, Heq.
      * split; [|reflexivity]. intros _. split; [exact Hpart | lia].
      * split; [|reflexivity]. intros _. split; [exact Hpart | lia].
      * split; [|reflexivity]. intros _. split; [exact Hpart | lia].
    + apply orb_false_iff in Hpart as [H1 H2]. rewrite H1, H2.
      split; [discriminate|]. now intros [[H | H] _].
Qed.

Lemma remove_duplicates_loop_acc (results unique_results : list item)
    (seen_contents : list string) :
  remove_duplicates_loop results unique_results seen_contents
    = unique_results ++ remove_duplicates_loop results [] seen_contents.
Proof.
  revert unique_results seen_contents.
  induction results as [|r rest IH]; intros u s; simpl.
  - now rewrite app_nil_r.
  - destruct (falsy (content_of r)); [apply IH|].
    destruct (is_duplicate (content_of r) s); [apply IH|].
    rewrite (IH (u ++ [r])), (IH [r]). now rewrite <- app_assoc.
Qed.

Lemma remove_duplicates_as_loop (results : list item) :
  _remove_duplicates results = remove_duplicates_loop results [] [].
Proof. now destruct results. Qed.

(** One more result at the end: it is tested against the contents kept
    from the results before it. *)
Lemma remove_duplicates_loop_snoc (results unique_results : list item)
    (seen_contents : list string) (result : item) :
  remove_duplicates_loop (results ++ [result]) unique_results seen_contents
  = let kept := remove_duplicates_loop results unique_results seen_contents in
    let seen :=
      seen_contents
      ++ map content_of (remove_duplicates_loop results [] seen_contents) in
    if falsy (content_of result) then kept
    else if is_duplicate (content_of result) seen then kept
    else kept ++ [result].
Proof.
  cbn zeta. revert unique_results seen_contents.
  induction results as [|r rest IH]; intros u s; simpl.
  - now rewrite app_nil_r.
  - destruct (falsy (content_of r)); [apply IH|].
    destruct (is_duplicate (content_of r) s); [apply IH|].
    rewrite IH, (remove_duplicates_loop_acc rest [r]). simpl.
    now rewrite <- app_assoc.
Qed.

(** C7.  The duplicate removal goes through the results in their order and
    keeps a result exactly when it has content and its content is no
    duplicate, under the heuristic, of the content of a result kept before
    it.  Under the heuristic two contents that are both longer than 50
    characters are duplicates only when they are equal; otherwise (at least
    one of them has 50 characters or fewer) they are duplicates as soon as
    one is a contiguous part of the other. *)
Theorem duplicate_heuristic :
  (forall a b, 50 < len a -> 50 < len b -> (Duplicates a b <-> a = b)) /\
  (forall a b, ~ (50 < len a /\ 50 < len b) ->
     (Duplicates a b <-> Substring a b \/ Substring b a)) /\
  _remove_duplicates [] = [] /\
  (forall results result,
     let kept := _remove_duplicates results in
     let content := content_of result in
     (content <> EmptyString ->
      (forall earlier, In earlier kept ->
         ~ Duplicates content (content_of earlier)) ->
      _remove_duplicates (results ++ [result]) = kept ++ [result]) /\
     (content = EmptyString \/
      (exists earlier, In earlier kept /\
         Duplicates content (content_of earlier)) ->
      _remove_duplicates (results ++ [result]) = kept)).
Proof.
  split; [|split; [|split; [reflexivity|]]].
  - intros a b Ha Hb. unfold Duplicates. split.
    + intros [_ Heq]. now apply Heq.
    + intros ->. split; [|reflexivity]. left.
      exists EmptyString, EmptyString.
      rewrite append_nil. symmetry. apply append_empty_r.
  - intros a b Hshort. unfold Duplicates. split; [now intros [H _]|].
    intros H. split; [exact H|]. intros Hlong. now destruct Hshort.
  - intros results result. cbn zeta.
    rewrite !remove_duplicates_as_loop, remove_duplicates_loop_snoc.
    cbn zeta. simpl app.
    assert (Hseen : is_duplicate (content_of result)
                      (map content_of (remove_duplicates_loop results [] []))
                    = true <->
                    exists earlier,
                      In earlier (remove_duplicates_loop results [] []) /\
                      Duplicates (content_of result) (content_of earlier)).
    { rewrite is_duplicate_exists. split.
      - intros (seen & Hin & Hdup). apply in_map_iff in Hin as (e & <- & He).
        exists e. split; [exact He|]. now apply is_duplicate_pair.
      - intros (e & He & Hdup). exists (content_of e).
        split; [now apply in_map | now apply is_duplicate_pair]. }
    split.
    + intros Hcontent Hnone.
      destruct (falsy (content_of result)) eqn:Hf;
        [apply falsy_iff in Hf; contradiction|].
      assert (is_duplicate (content_of result)
                (map content_of (remove_duplicates_loop results [] []))
              = false) as ->; [|reflexivity].
      apply not_true_is_false. intros Hd.
      apply Hseen in Hd as (e & He & Hdup). now destruct (Hnone e He).
    + intros [Hempty | Hsome].
      * apply falsy_iff in Hempty. now rewrite Hempty.
      * destruct (falsy (content_of result)); [reflexivity|].
        apply Hseen in Hsome. now rewrite Hsome.
Qed.

Lemma remove_duplicates_loop_In (results unique_results : list item)
    (seen_contents : list string) (x : item) :
  In x (remove_duplicates_loop results unique_results seen_contents) ->
  In x unique_results \/ (In x results /\ falsy (content_of x) = false).
Proof.
  revert unique_results seen_contents.
  induction results as [|r rest IH]; intros u s; simpl; [tauto|].
  destruct (falsy (content_of r)) eqn:Hf.
  - intros H. apply IH in H. tauto.
  - destruct (is_duplicate (content_of r) s).
    + intros H. apply IH in H. tauto.
    + intros H. apply IH in H. destruct H as [H | H]; [|tauto].
      apply in_app_or in H. destruct H as [H | [<- | []]]; [tauto|].
      right. split; [now left | exact Hf].
Qed.

Lemma remove_duplicates_loop_length (results unique_results : list item)
    (seen_contents : list string) :
  (length (remove_duplicates_loop results unique_results seen_contents)
   <= length unique_results
      + length (List.filter (fun r => negb (falsy (content_of r))) results))%nat.
Proof.
  revert unique_results seen_contents.
  induction results as [|r rest IH]; intros u s; simpl; [lia|].
  destruct (falsy (content_of r)) eqn:Hf; simpl.
  - apply IH.
  - destruct (is_duplicate (content_of r) s).
    + specialize (IH u s). lia.
    + specialize (IH (u ++ [r]) (s ++ [content_of r])).
      rewrite length_app in IH. simpl in IH. lia.
Qed.



(** C10.  No item with empty content is in the merged list; the merged list
    is at most as long as the number of results with content; and it can be
    shorter than the two inputs together although no two items are
    duplicates of each other (first example) and although all contents are
    different (second example). *)
Theorem merge_drops_empty_content :
  (forall now memory_results web_results x,
     In x (_merge_results now memory_results web_results) ->
     content_of x <> EmptyString) /\
  (forall now memory_results web_results,
     (length (_merge_results now memory_results web_results)
      <= length (List.filter (fun r => negb (falsy (content_of r)))
                   (tagged now memory_results web_results)))%nat) /\
  (exists now memory_results web_results,
     NoDuplicates (tagged now memory_results web_results) /\
     (length (_merge_results now memory_results web_results)
      < length memory_results + length web_results)%nat) /\
  (exists now memory_results web_results,
     List.NoDup (map content_of (tagged now memory_results web_results)) /\
     (length (_merge_results now memory_results web_results)
      < length memory_results + length web_results)%nat).
Proof.
  split; [|split; [|split]].
  - intros now memory_results web_results x Hin.
    unfold _merge_results, sorted_reverse in Hin.
    apply sorted_by_In in Hin. unfold _remove_duplicates in Hin.
    destruct (tagged now memory_results web_results) as [|r rest] eqn:Ht;
      [destruct Hin|].
    apply remove_duplicates_loop_In in Hin as [[] | [_ Hf]].
    intros Hempty. apply falsy_iff in Hempty. congruence.
  - intros now memory_results web_results.
    unfold _merge_results, sorted_reverse. rewrite sorted_by_length.
    unfold _remove_duplicates.
    destruct (tagged now memory_results web_results) as [|r rest] eqn:Ht;
      [simpl; lia|].
    apply (remove_duplicates_loop_length (r :: rest) [] []).
  - exists "2026-01-01T00:00:00",
      [MemoryResult.mk None (Some (9 # 10)) None], [].
    split; [|simpl; lia].
    intros i j a b Hij Hi Hj. unfold tagged in Hi, Hj. simpl in Hi, Hj.
    destruct i, j; simpl in *; try discriminate; congruence.
  - exists "2026-01-01T00:00:00",
      [MemoryResult.mk (Some "") (Some (9 # 10)) None],
      [WebResult.mk (Some "battery prices fell") (Some "https://example.org")
                    (Some "Prices") (Some (1 # 2))].
    split; [|simpl; lia].
    simpl. apply List.NoDup_cons; [simpl; intuition discriminate|].
    apply List.NoDup_cons; [simpl; tauto | apply List.NoDup_nil].
Qed.

(** The ranking of the specification's example: a web item scored 0.95 goes
    before a memory item of similarity 0.9, one scored 0.5 after it. *)
Example merge_ranking :
  let memory := [MemoryResult.mk (Some "solid state cells") (Some (9 # 10)) None] in
  let web score := [WebResult.mk (Some "battery prices fell") None None (Some score)] in
  map content_of (_merge_results "now" memory (web (95 # 100)))
    = ["battery prices fell"; "solid state cells"] /\
  map content_of (_merge_results "now" memory (web (1 # 2)))
    = ["solid state cells"; "battery prices fell"].
Proof. split; reflexivity. Qed.

(** The heuristic at work: ["battery prices fell"] contains the short
    ["battery"] and is dropped; the second copy of the long text is dropped;
    the longer text that contains the long one is kept, both being longer
    than 50 characters; the result without content is dropped. *)
Example remove_duplicates_sample :
  map content_of (_remove_duplicates sample_results)
  = ["battery"; long_text; String.append long_text ".."].
Proof. reflexivity. Qed.

(** Characters are counted, not bytes: the two Korean texts have 25 and 22
    characters, so the part is a duplicate of the whole. *)
Example remove_duplicates_korean :
  map (fun r => len (content_of r)) korean_results = [25; 22] /\
  length (_remove_duplicates korean_results) = 1%nat.
Proof. split; reflexivity. Qed.

End Merger.
(** ** Quality critic *)

Section Critic.
Import Py QualityCritic.
Variable float_of_str : string -> option Float.t.
Variable render : json -> string.

Lemma overflows_iff (z : Z) :
  Float.overflows z = true <-> 2 ^ 1024 - 2 ^ 970 <= Z.abs z.
Proof. unfold Float.overflows. apply Z.leb_le. Qed.

Lemma float_or_huge (z : Z) (fallback : Float.t) :
  2 ^ 1024 - 2 ^ 970 <= Z.abs z ->
  float_or float_of_str (JInt z) fallback = Raise OverflowError.
Proof.
  intros H. apply overflows_iff in H. unfold float_or, float. now rewrite H.
Qed.


Lemma float_or_number (val : json) (fallback x : Float.t) :
  float_or float_of_str val fallback = Return x ->
  x = number float_of_str (Some val) fallback.
Proof.
  unfold float_or, float, number.
  destruct val as [|b|z|q|s|items|entries];
    try (intros H; now inversion H).
  - destruct (Float.overflows z); [discriminate|]. intros H. now inversion H.
  - destruct (float_of_str s); intros H; now inversion H.
Qed.

Lemma score_for_raises (scores_raw : list (string * json)) (key : string)
    (e : exn) :
  score_for float_of_str scores_raw key = Raise e ->
  e = OverflowError /\
  exists z, dict_get scores_raw key = Some (JInt z) /\
            Float.overflows z = true.
Proof.
  unfold score_for.
  destruct (dict_get scores_raw key) as [val|]; [|discriminate].
  destruct val as [|b|z|q|s|items|entries]; unfold float_or, float;
    try discriminate.
  - destruct (Float.overflows z) eqn:Hz; [|discriminate].
    intros H. inversion H. split; [reflexivity|]. now exists z.
  - destruct (float_of_str s); discriminate.
Qed.

Lemma score_for_huge (scores_raw : list (string * json)) (key : string) :
  OutOfRange scores_raw key ->
  score_for float_of_str scores_raw key = Raise OverflowError.
Proof.
  intros (z & Hget & Hz). unfold score_for. rewrite Hget.
  now rewrite (float_or_huge z _ Hz).
Qed.

(** The clamp [max(1.0, min(10.0, x))] lies within 1.0 and 10.0 for every
    float, a NaN included. *)
Lemma clamp_in_range (x : Float.t) :
  InRange (Float.max (Float.of_Z 1) (Float.min (Float.of_Z 10) x)).
Proof.
  unfold InRange, Float.max, Float.min.
  destruct (Float.ltb x (Float.of_Z 10)) eqn:Hhigh.
  - destruct (Float.ltb (Float.of_Z 1) x) eqn:Hlow.
    + revert Hhigh Hlow. unfold Float.ltb, Float.leb, SpecFloat.SFltb,
        SpecFloat.SFleb.
      destruct (SpecFloat.SFcompare x _) as [[]|]; try discriminate.
      destruct (SpecFloat.SFcompare _ x) as [[]|]; try discriminate.
      now split.
    + now vm_compute.
  - now vm_compute.
Qed.

Lemma score_for_in_range (scores_raw : list (string * json)) (key : string)
    (x : Float.t) :
  score_for float_of_str scores_raw key = Return x -> InRange x.
Proof.
  unfold score_for.
  match goal with
  | |- match ?parsed with _ => _ end = _ -> _ => destruct parsed as [y|e]
  end; [|discriminate].
  intros H. inversion H. apply clamp_in_range.
Qed.

Lemma clamp_clamped (x : Float.t) :
  Clamped x (Float.max (Float.of_Z 1) (Float.min (Float.of_Z 10) x)).
Proof.
  unfold Clamped, Float.max, Float.min.
  destruct (Float.ltb x (Float.of_Z 10)).
  - destruct (Float.ltb (Float.of_Z 1) x); repeat split; congruence.
  - split; [intros _; now vm_compute | split; discriminate].
Qed.

Lemma score_for_clamped (scores_raw : list (string * json)) (key : string)
    (y : Float.t) :
  score_for float_of_str scores_raw key = Return y ->
  Clamped (number float_of_str (dict_get scores_raw key) _DEFAULT_SCORE) y.
Proof.
  unfold score_for.
  destruct (dict_get scores_raw key) as [val|].
  2: { intros H. inversion H. apply clamp_clamped. }
  destruct val as [|b|z|q|s|items|entries].
  1: { intros H. inversion H. apply clamp_clamped. }
  all: match goal with
       | |- context [float_or float_of_str ?v ?f] =>
           pose proof (float_or_number v f) as Hnumber;
           destruct (float_or float_of_str v f) as [x|e]
       end; [|discriminate].
  all: specialize (Hnumber x eq_refl); intros H; inversion H;
    rewrite <- Hnumber; apply clamp_clamped.
Qed.

(** The loop stores one clamped score per key, in the order of the keys, and
    stops at the first [OverflowError]. *)
Lemma score_loop_spec (scores_raw : list (string * json)) (keys : list string)
    (acc : list (string * Float.t)) :
  match score_loop float_of_str scores_raw keys acc with
  | Return scores =>
      exists added,
        scores = acc ++ added /\ map fst added = keys /\
        Forall (fun entry =>
                  InRange entry.2 /\
                  Clamped (number float_of_str (dict_get scores_raw entry.1)
                                  _DEFAULT_SCORE) entry.2) added /\
        Forall (fun key => exists x,
                  score_for float_of_str scores_raw key = Return x) keys
  | Raise e =>
      e = OverflowError /\
      exists key, In key keys /\
        score_for float_of_str scores_raw key = Raise OverflowError
  end.
Proof.
  revert acc. induction keys as [|key rest IH]; intros acc; cbn [score_loop].
  - exists []. rewrite app_nil_r. repeat split; constructor.
  - destruct (score_for float_of_str scores_raw key) as [x|e] eqn:Hkey.
    + specialize (IH (acc ++ [(key, x)])).
      destruct (score_loop _ _ rest _) as [scores|e].
      * destruct IH as (added & -> & Hkeys & Hrange & Hall).
        exists ((key, x) :: added). rewrite <- app_assoc.
        split; [reflexivity|]. split; [simpl; now rewrite Hkeys|].
        split; constructor; try assumption.
        -- split; [exact (score_for_in_range _ _ _ Hkey)|].
           exact (score_for_clamped _ _ _ Hkey).
        -- now exists x.
      * destruct IH as (-> & other & Hin & Hother).
        split; [reflexivity|]. exists other. split; [now right | exact Hother].
    + destruct (score_for_raises _ _ _ Hkey) as [-> _].
      split; [reflexivity|]. exists key. split; [now left | exact Hkey].
Qed.

Lemma score_loop_huge (scores_raw : list (string * json)) (keys : list string)
    (acc : list (string * Float.t)) (key : string) :
  In key keys -> OutOfRange scores_raw key ->
  score_loop float_of_str scores_raw keys acc = Raise OverflowError.
Proof.
  intros Hin Hhuge. pose proof (score_loop_spec scores_raw keys acc) as Hspec.
  destruct (score_loop _ _ keys acc) as [scores|e].
  - destruct Hspec as (_ & _ & _ & _ & Hall).
    rewrite List.Forall_forall in Hall. destruct (Hall key Hin) as (x & Hx).
    rewrite (score_for_huge _ _ Hhuge) in Hx. discriminate.
  - now destruct Hspec as [-> _].
Qed.

Lemma graded_scores (data scores_raw : list (string * json)) :
  graded data = Some scores_raw ->
  data <> [] /\ dict_get data "scores" = Some (JDict scores_raw).
Proof.
  unfold graded. destruct data as [|entry data]; [discriminate|].
  destruct (dict_get (entry :: data) "scores") as [[| | | | | |raw]|];
    try discriminate.
  intros H. inversion H. now split.
Qed.

(** What [execute] does on a reply with a scores object. *)
Lemma execute_graded (data scores_raw : list (string * json)) :
  graded data = Some scores_raw ->
  execute float_of_str render data =
    match score_loop float_of_str scores_raw _SCORE_KEYS [] with
    | Raise e => Raise e
    | Return scores =>
        match
          match dict_get data "overall" with
          | None => Return (mean scores)
          | Some JNull => Return (mean scores)
          | Some overall => float_or float_of_str overall (mean scores)
          end
        with
        | Raise e => Raise e
        | Return overall =>
            Return (mk_review scores (Float.round1 overall)
                      (eval_feedback
                         (match _evaluate_report float_of_str render data with
                          | Return result => result
                          | Raise _ => _default_evaluation_result
                          end))
                      (Float.leb PASS_THRESHOLD (Float.round1 overall)))
        end
    end.
Proof.
  intros Hg. apply graded_scores in Hg as [Hdata Hscores].
  unfold execute, _evaluate_report. destruct data as [|entry data]; [easy|].
  rewrite Hscores.
  destruct (score_loop _ _ _SCORE_KEYS []) as [scores|e]; [|reflexivity].
  destruct (match dict_get (entry :: data) "overall" with
            | None => Return (mean scores)
            | Some JNull => Return (mean scores)
            | Some overall => float_or float_of_str overall (mean scores)
            end) as [overall|e]; reflexivity.
Qed.


(** C8.  A reply whose scores object grades one of the five dimensions with
    an integer that rounds to no finite float, or that has a scores object
    and supplies such an integer as the overall score, makes [execute] raise
    [OverflowError]: no scores, no overall score and no pass are returned,
    where an unparsable value should have counted as 5 (or, for the overall
    score, as the mean of the five). *)
Theorem critic_raises_on_huge_score (data scores_raw : list (string * json)) :
  graded data = Some scores_raw ->
  (exists key, In key _SCORE_KEYS /\ OutOfRange scores_raw key) \/
  OutOfRange data "overall" ->
  execute float_of_str render data = Raise OverflowError.
Proof.
  intros Hg Hhuge. rewrite (execute_graded data scores_raw Hg).
  destruct Hhuge as [(key & Hin & Hkey) | (z & Hget & Hz)].
  - now rewrite (score_loop_huge scores_raw _SCORE_KEYS [] key Hin Hkey).
  - pose proof (score_loop_spec scores_raw _SCORE_KEYS []) as Hspec.
    destruct (score_loop _ _ _SCORE_KEYS []) as [scores|e].
    + rewrite Hget. now rewrite (float_or_huge z _ Hz).
    + now destruct Hspec as [-> _].
Qed.



End Critic.

Lemma critic_raises_on_huge_score_witness :
  graded huge_reply <> None /\
  QualityCritic.execute (fun _ => None) (fun _ => EmptyString) huge_reply
  = Py.Raise Py.OverflowError.
Proof.
  split; [discriminate|].
  apply (critic_raises_on_huge_score (fun _ => None) (fun _ => EmptyString)
           huge_reply
           [("completeness", Py.JInt (10 ^ 400)); ("accuracy", Py.JInt 8)]);
    [reflexivity|].
  left. exists "completeness". split; [now left|].
  exists (10 ^ 400). split; [reflexivity|]. vm_compute. discriminate.
Defined.

(** The bound of [Float.overflows] is where the nearest float stops being
    finite: the integer just below it is the largest float, the bound itself
    rounds to the infinity. *)
Example float_range_of_integers :
  Py.Float.of_Z (2 ^ 1024 - 2 ^ 970 - 1)
    = SpecFloat.S754_finite false (2 ^ 53 - 1) 971 /\
  Py.Float.of_Z (2 ^ 1024 - 2 ^ 970) = SpecFloat.S754_infinity false /\
  Py.Float.of_Z (- (2 ^ 1024 - 2 ^ 970)) = SpecFloat.S754_infinity true.
Proof. now vm_compute. Qed.

(** A reply that supplies an overall score but no scores object: the overall
    score returned is 5.0, not the supplied 8, and the report fails although
    8 is above the bar. *)
Example critic_ignores_overall_without_scores :
  exists r,
    QualityCritic.execute (fun _ => None) (fun _ => EmptyString)
      [("overall", Py.JInt 8)] = Py.Return r /\
    QualityCritic.overall_score r = Py.Float.of_Z 5 /\
    QualityCritic.pass r = false.
Proof. eexists. now vm_compute. Qed.

(** The overall score is rounded as a binary float is: the literal 6.65
    denotes a float just above 6.65 and comes back as 6.7, and a supplied
    6.96 comes back as 7.0 and passes. *)
Example critic_rounds_overall :
  (exists r,
     QualityCritic.execute (fun _ => None) (fun _ => EmptyString)
       [("scores", Py.JDict []); ("overall", Py.JFloat (665 # 100))]
     = Py.Return r /\
     QualityCritic.overall_score r = Py.Float.of_Q (67 # 10) /\
     QualityCritic.pass r = false) /\
  (exists r,
     QualityCritic.execute (fun _ => None) (fun _ => EmptyString)
       [("scores", Py.JDict []); ("overall", Py.JFloat (696 # 100))]
     = Py.Return r /\
     QualityCritic.overall_score r = Py.Float.of_Z 7 /\
     QualityCritic.pass r = true).
Proof. split; eexists; now vm_compute. Qed.

(** The mean is computed in floats: the scores 5, 5.1, 8.2, 8.65 and 7.8 add
    up to a float below 34.75, so the overall score is 6.9 and the report
    fails; and a score that is not a number is stored as 10.0. *)
Example critic_mean_in_floats :
  (exists r,
     QualityCritic.execute (fun _ => None) (fun _ => EmptyString)
       [("scores",
         Py.JDict [("completeness", Py.JInt 5);
                   ("accuracy", Py.JFloat (51 # 10));
                   ("clarity", Py.JFloat (82 # 10));
                   ("structure", Py.JFloat (865 # 100));
                   ("source_quality", Py.JFloat (78 # 10))])]
     = Py.Return r /\
     QualityCritic.overall_score r = Py.Float.of_Q (69 # 10) /\
     QualityCritic.pass r = false) /\
  (exists r,
     QualityCritic.execute (fun _ => Some SpecFloat.S754_nan)
       (fun _ => EmptyString)
       [("scores", Py.JDict [("clarity", Py.JStr "nan")])]
     = Py.Return r /\
     QualityCritic.scores r
     = [("completeness", Py.Float.of_Z 5); ("accuracy", Py.Float.of_Z 5);
        ("clarity", Py.Float.of_Z 10); ("structure", Py.Float.of_Z 5);
        ("source_quality", Py.Float.of_Z 5)]).
Proof. split; eexists; now vm_compute. Qed.

(** ** Pipeline coordinator *)

Section Coordinator.
Import Py ResearchCoordinator.
Variable researcher : string -> outcome research_data.
Variable analyzer : option research_data -> outcome analysis.
Variable writer : nat -> writer_input -> outcome draft.
Variable critic : nat -> critic_input -> outcome QualityCritic.review.



(** With such stages every round of the loop runs to its end: each one calls
    Write once and counts one revision. *)
Lemma rounds_never_passing (round_nums : list nat) (topic : string)
    (research : option research_data) (analysed : option analysis)
    (st : loop_state) :
  NeverPasses writer critic ->
  let final := rounds writer critic round_nums topic research analysed st in
  l_revision_count final = l_revision_count st + Z.of_nat (length round_nums) /\
  l_write_calls final = (l_write_calls st + length round_nums)%nat.
Proof.
  intros [Hwrite Hcritic]. revert st.
  induction round_nums as [|round_num rest IH]; intros st; simpl.
  - split; lia.
  - match goal with
    | |- context [writer ?n ?i] => destruct (Hwrite n i) as [d ->]
    end.
    destruct (Hcritic round_num (mk_critic_input topic (report d)))
      as (r & -> & ->).
    match goal with
    | |- context [rounds _ _ rest _ _ _ ?s] => destruct (IH s) as [H1 H2]
    end.
    simpl in H1, H2. split; lia.
Qed.

(** C1.  With [max_revision_rounds = 2] and a Critique stage that never
    passes, [run] calls the Write stage three times, which is two revisions,
    but the [revision_count] it returns is 3, not 2: the failed check of the
    last round is counted although no revision follows it. *)
Theorem run_counts_last_failed_round (topic : string) :
  NeverPasses writer critic ->
  write_calls researcher analyzer writer critic 2 topic = 3%nat /\
  r_revision_count (run researcher analyzer writer critic 2 topic) = 3.
Proof.
  intros Hnever. unfold write_calls, run, run_loop.
  match goal with
  | |- context [rounds _ _ ?ns ?t ?r ?a ?s] =>
      pose proof (rounds_never_passing ns t r a s Hnever) as H
  end.
  cbn zeta in H. destruct H as [H1 H2]. simpl in *. split; assumption.
Qed.

End Coordinator.



Lemma run_counts_last_failed_round_witness :
  ResearchCoordinator.write_calls sample_researcher sample_analyzer
    sample_writer failing_critic 2 "electric vehicle battery trends" = 3%nat /\
  ResearchCoordinator.r_revision_count
    (ResearchCoordinator.run sample_researcher sample_analyzer
       sample_writer failing_critic 2 "electric vehicle battery trends") = 3.
Proof.
  apply (run_counts_last_failed_round sample_researcher sample_analyzer
           sample_writer failing_critic).
  split; intros n input; eexists; [reflexivity | split; reflexivity].
Defined.

(** The end-to-end scenario of the specification: a first review of 6.5
    fails, the second of 7.8 passes; one revision, score 7.8. *)
Example run_end_to_end :
  let r := ResearchCoordinator.run sample_researcher sample_analyzer
             sample_writer second_time_critic 2
             "electric vehicle battery trends" in
  ResearchCoordinator.r_revision_count r = 1 /\
  ResearchCoordinator.r_score r = Py.Float.of_Q (78 # 10) /\
  ResearchCoordinator.r_report r = "revised report".
Proof. vm_compute. repeat split. Qed.

(** ** More on the stable sort *)

Section SortFacts.
Import Py.
Context {A : Type}.
Variable le : A -> A -> bool.
Hypothesis le_trans :
  forall x y z, le x y = true -> le y z = true -> le x z = true.
Hypothesis le_total : forall x y, le x y = false -> le y x = true.

Lemma insert_by_sorted (x : A) (l : list A) :
  StronglySorted (fun a b => le a b = true) l ->
  StronglySorted (fun a b => le a b = true) (insert_by le x l).
Proof.
  induction 1 as [|y l Hl IH Hy]; simpl.
  - repeat constructor.
  - destruct (le x y) eqn:Hxy.
    + constructor; [now constructor|].
      constructor; [exact Hxy|].
      rewrite List.Forall_forall in Hy |- *. intros z Hz.
      apply (le_trans _ y); [exact Hxy | now apply Hy].
    + constructor; [exact IH|].
      rewrite List.Forall_forall in Hy |- *. intros z Hz.
      apply insert_by_In in Hz as [-> | Hz]; [now apply le_total | now apply Hy].
Qed.

Lemma sorted_by_sorted (l : list A) :
  StronglySorted (fun a b => le a b = true) (sorted_by le l).
Proof.
  induction l as [|x l IH]; simpl; [constructor | now apply insert_by_sorted].
Qed.

End SortFacts.

Section OrderFacts.
Context {A B : Type}.

Lemma In_take (n : nat) (x : A) (l : list A) : In x (take n l) -> In x l.
Proof.
  revert n. induction l as [|y l IH]; intros [|n]; simpl; try tauto.
  intros [-> | H]; [now left | right; now apply (IH n)].
Qed.

Lemma StronglySorted_take (R : A -> A -> Prop) (n : nat) (l : list A) :
  StronglySorted R l -> StronglySorted R (take n l).
Proof.
  intros Hl. revert n. induction Hl as [|x l Hl IH Hx]; intros [|n]; simpl;
    try constructor.
  - apply IH.
  - rewrite List.Forall_forall in Hx |- *. intros y Hy. apply Hx.
    now apply In_take in Hy.
Qed.

Lemma StronglySorted_map (R : A -> A -> Prop) (R' : B -> B -> Prop)
    (f : A -> B) (l : list A) :
  (forall x y, R x y -> R' (f x) (f y)) ->
  StronglySorted R l -> StronglySorted R' (map f l).
Proof.
  intros Hf. induction 1 as [|x l Hl IH Hx]; simpl; constructor; [exact IH|].
  rewrite List.Forall_forall in Hx |- *. intros y Hy.
  apply in_map_iff in Hy as (z & <- & Hz). now apply Hf, Hx.
Qed.

Lemma StronglySorted_filter (R : A -> A -> Prop) (p : A -> bool) (l : list A) :
  StronglySorted R l -> StronglySorted R (List.filter p l).
Proof.
  induction 1 as [|x l Hl IH Hx]; simpl; [constructor|].
  destruct (p x); [|exact IH]. constructor; [exact IH|].
  rewrite List.Forall_forall in Hx |- *. intros y Hy.
  apply filter_In in Hy as [Hy _]. now apply Hx.
Qed.

Lemma StronglySorted_weaken (R R' : A -> A -> Prop) (l : list A) :
  (forall x y, R x y -> R' x y) ->
  StronglySorted R l -> StronglySorted R' l.
Proof.
  intros Himp. induction 1 as [|x l Hl IH Hx]; constructor; [exact IH|].
  rewrite List.Forall_forall in Hx |- *. intros y Hy. now apply Himp, Hx.
Qed.

Lemma enumerate_snd (l : list A) : map snd (Py.enumerate l) = l.
Proof.
  unfold Py.enumerate. generalize 0%nat.
  induction l as [|x l IH]; intros start; simpl; [reflexivity|].
  now rewrite IH.
Qed.

End OrderFacts.

(** * Further properties *)

(** ** Task scheduler: lookup, status updates, budget, summary *)

Section SchedulerMore.
Import Py TaskPlanner.

(** X1.  [update_status] reports failure and changes nothing when no task
    carries the id.  Otherwise it reports success and marks the first task
    that carries the id: the status is set, the result only when one is
    given, and attempts, budget and every other task stay as they were. *)
Theorem update_status_marks_first (self : t) (task_id : string)
    (status : TaskStatus) (result : option string) :
  match update_status self task_id status result with
  | (self', true) =>
      exists i task,
        tasks self !! i = Some task /\ Subtask.id task = task_id /\
        (forall j other, (j < i)%nat -> tasks self !! j = Some other ->
           Subtask.id other <> task_id) /\
        tasks self' = <[i := marked task status result]> (tasks self) /\
        original_goal self' = original_goal self
  | (self', false) =>
      self' = self /\
      forall other, In other (tasks self) -> Subtask.id other <> task_id
  end.
Proof.
  unfold update_status. pose proof (get_task_by_id_first self task_id) as H.
  destruct (_get_task_by_id self task_id) as [[i task]|].
  - destruct H as (Hi & Hid & Hbefore). exists i, task.
    repeat split; try assumption. simpl. now destruct result.
  - now split.
Qed.

Lemma is_complete_iff (self : t) :
  is_complete self = true <->
  forall task, In task (tasks self) ->
    Subtask.status task = COMPLETED \/ Subtask.status task = SKIPPED.
Proof.
  unfold is_complete. rewrite forallb_forall. split; intros H task Hin.
  - specialize (H task Hin). apply orb_true_iff in H.
    rewrite !bool_decide_eq_true in H. exact H.
  - apply orb_true_iff. rewrite !bool_decide_eq_true. now apply H.
Qed.

(** X2.  On a plan that [is_complete] reports complete, [get_next_task]
    returns nothing and changes nothing. *)
Theorem complete_plan_has_no_next_task (self : t) :
  is_complete self = true -> get_next_task self = (self, None).
Proof.
  intros Hdone. rewrite is_complete_iff in Hdone.
  assert (Hnone : forall st, st = PENDING \/ st = FAILED ->
            forall i task, ~ Eligible self st i task).
  { intros st Hst i task (Hi & Hstatus & _).
    assert (In task (tasks self)) as Hin.
    { apply list_elem_of_In. eapply list_elem_of_lookup_2. exact Hi. }
    destruct (Hdone task Hin); destruct Hst; congruence. }
  unfold get_next_task.
  destruct (executable self) as [|[i task] rest] eqn:Hexe.
  - destruct (retryable self) as [|[i task] rest] eqn:Hret; [reflexivity|].
    exfalso. apply (Hnone FAILED (or_intror eq_refl) i task).
    apply retryable_iff. rewrite Hret. now left.
  - exfalso. apply (Hnone PENDING (or_introl eq_refl) i task).
    apply executable_iff. rewrite Hexe. now left.
Qed.

Lemma complete_plan_has_no_next_task_witness :
  let done :=
    mk [Subtask.mk "a" "collect" 1 [] COMPLETED (Some "ok") 1 3;
        Subtask.mk "b" "optional" 2 ["a"] SKIPPED None 0 3] "goal" in
  get_next_task done = (done, None).
Proof.
  intros done. apply (complete_plan_has_no_next_task done). reflexivity.
Defined.

(** One call of [get_next_task]: the task handed out had attempts left and is
    replaced, at its position, by the started task. *)
Lemma get_next_task_step (self : t) :
  match get_next_task self with
  | (self', Some (i, returned)) =>
      exists task,
        tasks self !! i = Some task /\
        Subtask.attempts task < Subtask.max_attempts task /\
        returned = start task /\
        tasks self' = <[i := start task]> (tasks self)
  | (self', None) => self' = self
  end.
Proof.
  unfold get_next_task.
  assert (Hpick : forall st candidates,
            (forall i task, In (i, task) candidates -> Eligible self st i task) ->
            ascending candidates -> candidates <> [] ->
            match take_first self candidates with
            | (self', Some (i, returned)) =>
                exists task,
                  tasks self !! i = Some task /\
                  Subtask.attempts task < Subtask.max_attempts task /\
                  returned = start task /\
                  tasks self' = <[i := start task]> (tasks self)
            | (self', None) => self' = self
            end).
  { intros st candidates Hel Hasc Hne.
    destruct (take_first_spec self candidates Hasc Hne)
      as (i & task & Hin & _ & ->).
    destruct (Hel i task Hin) as (Hi & _ & _ & Hlt).
    exists task. now repeat split. }
  destruct (executable self) as [|c cs] eqn:Hexe.
  - destruct (retryable self) as [|c cs] eqn:Hret; [reflexivity|].
    apply (Hpick FAILED); [| rewrite <- Hret; apply retryable_ascending
                           | discriminate].
    intros i task Hin. apply retryable_iff. now rewrite Hret.
  - apply (Hpick PENDING); [| rewrite <- Hexe; apply executable_ascending
                            | discriminate].
    intros i task Hin. apply executable_iff. now rewrite Hexe.
Qed.

(** [update_status] changes neither attempts nor budget, id or dependencies
    of any task. *)
Lemma update_status_keeps (self : t) (task_id : string) (status : TaskStatus)
    (result : option string) (i : nat) (task : Subtask.t) :
  tasks self !! i = Some task ->
  exists task1,
    tasks (update_status self task_id status result).1 !! i = Some task1 /\
    Subtask.max_attempts task1 = Subtask.max_attempts task /\
    Subtask.attempts task1 = Subtask.attempts task /\
    Subtask.id task1 = Subtask.id task /\
    Subtask.dependencies task1 = Subtask.dependencies task.
Proof.
  intros Hi. unfold update_status.
  destruct (_get_task_by_id self task_id) as [[j found]|] eqn:Hfind;
    [|now exists task].
  apply get_task_by_id_lookup in Hfind as [Hj _]. simpl.
  destruct (decide (j = i)) as [->|Hne].
  - assert (found = task) as -> by congruence.
    eexists. split.
    + apply list_lookup_insert_eq. now apply lookup_lt_Some in Hi.
    + now destruct result.
  - exists task. now rewrite list_lookup_insert_ne.
Qed.

(** Along any sequence of calls, the attempts of a task grow by the number of
    times it was handed out, and its budget does not change. *)
Lemma run_counts_attempts (calls : list call) (self : t) (i : nat)
    (task : Subtask.t) :
  tasks self !! i = Some task ->
  Subtask.attempts task <= Subtask.max_attempts task ->
  exists task',
    tasks (run calls self).1 !! i = Some task' /\
    (Subtask.max_attempts task' = Subtask.max_attempts task) /\
    (Subtask.attempts task' =
       Subtask.attempts task + times_returned i (run calls self).2) /\
    (Subtask.attempts task' <= Subtask.max_attempts task').
Proof.
  revert self task. induction calls as [|c calls IH]; intros self task Hi Hle.
  - exists task. simpl. unfold times_returned. simpl.
    repeat split; [exact Hi | lia | lia].
  - destruct c as [|task_id status result]; simpl.
    + pose proof (get_next_task_step self) as Hstep.
      destruct (get_next_task self) as [self' [[j returned]|]].
      * destruct Hstep as (picked & Hj & Hlt & -> & Htasks).
        destruct (decide (j = i)) as [->|Hne].
        -- assert (picked = task) by congruence. subst picked.
           destruct (IH self' (start task)) as (task' & H1 & H2 & H3 & H4).
           { rewrite Htasks. apply list_lookup_insert_eq.
             now apply lookup_lt_Some in Hi. }
           { simpl. lia. }
           destruct (run calls self') as [final trace]. simpl in *.
           exists task'. repeat split; [exact H1 | exact H2 | | exact H4].
           rewrite H3. unfold times_returned. simpl.
           rewrite bool_decide_eq_true_2 by reflexivity. simpl. lia.
        -- destruct (IH self' task) as (task' & H1 & H2 & H3 & H4).
           { rewrite Htasks. now rewrite list_lookup_insert_ne. }
           { exact Hle. }
           destruct (run calls self') as [final trace]. simpl in *.
           exists task'. repeat split; [exact H1 | exact H2 | | exact H4].
           rewrite H3. unfold times_returned. simpl.
           rewrite bool_decide_eq_false_2 by congruence. reflexivity.
      * subst self'. destruct (IH self task Hi Hle) as (task' & H1 & H2 & H3 & H4).
        destruct (run calls self) as [final trace]. simpl in *.
        exists task'. repeat split; [exact H1 | exact H2 | | exact H4].
        rewrite H3. unfold times_returned. simpl. reflexivity.
    + pose proof (update_status_keeps self task_id status result i task Hi)
        as (task1 & H1 & Hmax & Hatt & _).
      destruct (IH _ task1 H1) as (task' & H2 & H3 & H4 & H5); [lia|].
      exists task'. repeat split; [exact H2 | congruence | | exact H5].
      rewrite H4, Hatt. reflexivity.
Qed.


(** X3.  The retry budget bounds the work: along any sequence of
    [get_next_task] and [update_status] calls, a task that is within its
    budget is handed out at most [max_attempts - attempts] times. *)
Theorem task_started_within_budget (calls : list call) (self : t) (i : nat)
    (task : Subtask.t) :
  tasks self !! i = Some task ->
  Subtask.attempts task <= Subtask.max_attempts task ->
  times_returned i (run calls self).2
    <= Subtask.max_attempts task - Subtask.attempts task.
Proof.
  intros Hi Hle.
  destruct (run_counts_attempts calls self i task Hi Hle)
    as (task' & _ & Hmax & Hatt & Hle').
  lia.
Qed.

Lemma task_started_within_budget_witness :
  let plan := mk [Subtask.new "task_1" "collect" 1 []] "goal" in
  times_returned 0
    (run [GetNextTask; UpdateStatus "task_1" FAILED None;
          GetNextTask; UpdateStatus "task_1" PENDING None;
          GetNextTask; UpdateStatus "task_1" FAILED None;
          GetNextTask; GetNextTask] plan).2 <= 3 - 0.
Proof.
  intros plan.
  apply (task_started_within_budget _ plan 0 (Subtask.new "task_1" "collect" 1 []));
    [reflexivity | simpl; lia].
Defined.

Lemma insert_keeps_ids (l : list Subtask.t) (i : nat) (task new : Subtask.t) :
  l !! i = Some task ->
  Subtask.id new = Subtask.id task ->
  map Subtask.id (<[i := new]> l) = map Subtask.id l.
Proof.
  revert i. induction l as [|a l IH]; intros i Hi Hid; [reflexivity|].
  destruct i as [|i]; simpl in *.
  - inversion Hi; subst. now rewrite Hid.
  - f_equal. now apply IH.
Qed.

Lemma missing_id_by_ids (l l' : list Subtask.t) (dep_id : string) :
  map Subtask.id l' = map Subtask.id l ->
  (forall other, In other l -> Subtask.id other <> dep_id) ->
  forall other, In other l' -> Subtask.id other <> dep_id.
Proof.
  intros Hids Hmissing other Hin Heq.
  assert (In dep_id (map Subtask.id l)) as Hdep.
  { rewrite <- Hids, <- Heq. now apply in_map. }
  apply in_map_iff in Hdep as (found & Hid & Hfound).
  now apply (Hmissing found Hfound).
Qed.

Lemma update_status_depends_on_missing (self : t) (task_id : string)
    (status : TaskStatus) (result : option string) (i : nat) :
  DependsOnMissing self i ->
  DependsOnMissing (update_status self task_id status result).1 i.
Proof.
  intros (task & dep_id & Hi & Hdep & Hmissing).
  destruct (update_status_keeps self task_id status result i task Hi)
    as (task1 & H1 & _ & _ & _ & Hdeps).
  exists task1, dep_id. split; [exact H1|]. split; [now rewrite Hdeps|].
  apply (missing_id_by_ids (tasks self)); [|exact Hmissing].
  unfold update_status.
  destruct (_get_task_by_id self task_id) as [[j found]|] eqn:Hfind;
    [|reflexivity].
  apply get_task_by_id_lookup in Hfind as [Hj _]. simpl.
  apply (insert_keeps_ids _ _ found); [exact Hj | now destruct result].
Qed.

Lemma get_next_task_depends_on_missing (self : t) (i : nat) :
  DependsOnMissing self i ->
  DependsOnMissing (get_next_task self).1 i /\
  option_map fst (get_next_task self).2 <> Some i.
Proof.
  intros (task & dep_id & Hi & Hdep & Hmissing).
  pose proof (get_next_task_cases self) as Hsel.
  pose proof (get_next_task_step self) as Hstep.
  destruct (get_next_task self) as [self' [[j returned]|]]; simpl.
  - destruct Hsel as [(st & picked & Hj & _ & Hdeps & _) Hother].
    destruct Hstep as (picked' & Hj' & _ & _ & Htasks).
    assert (picked' = picked) by congruence. subst picked'.
    assert (j <> i) as Hne.
    { intros ->. assert (picked = task) by congruence. subst picked.
      destruct (Hdeps dep_id Hdep) as (k & dep & Hfind & _).
      destruct Hfind as (Hk & Hid & _).
      apply (Hmissing dep); [|exact Hid].
      apply list_elem_of_In. eapply list_elem_of_lookup_2. exact Hk. }
    split; [|congruence].
    exists task, dep_id. split; [rewrite Hother; [exact Hi | congruence]|].
    split; [exact Hdep|].
    apply (missing_id_by_ids (tasks self)); [|exact Hmissing].
    rewrite Htasks. now apply (insert_keeps_ids _ _ picked).
  - subst self'. split; [|discriminate]. now exists task, dep_id.
Qed.

(** X4.  A task that names a dependency no task carries is blocked for good:
    whatever calls of [get_next_task] and [update_status] follow, it is never
    handed out. *)
Theorem missing_dependency_blocks (calls : list call) (self : t) (i : nat) :
  DependsOnMissing self i -> ~ In (Some i) (run calls self).2.
Proof.
  revert self. induction calls as [|c calls IH]; intros self Hblocked; simpl.
  - tauto.
  - destruct c as [|task_id status result].
    + destruct (get_next_task_depends_on_missing self i Hblocked) as [Hnext Hne].
      destruct (get_next_task self) as [self' got]. simpl in *.
      specialize (IH self' Hnext).
      destruct (run calls self') as [final trace]. simpl in *.
      intros [H | H]; [now apply Hne | now apply IH].
    + apply IH. now apply update_status_depends_on_missing.
Qed.

Lemma missing_dependency_blocks_witness :
  let plan := mk [Subtask.new "a" "collect" 1 [];
                  Subtask.new "b" "write" 1 ["a"; "review"]] "goal" in
  ~ In (Some 1%nat)
       (run [GetNextTask; UpdateStatus "a" COMPLETED None; GetNextTask;
             UpdateStatus "b" FAILED None; GetNextTask] plan).2.
Proof.
  intros plan. apply (missing_dependency_blocks _ plan 1).
  exists (Subtask.new "b" "write" 1 ["a"; "review"]), "review".
  split; [reflexivity|]. split; [simpl; tauto|].
  intros other [<- | [<- | []]]; discriminate.
Defined.







(** An exception in the middle of the reply leaves the tasks decoded before
    it in the planner. *)
Example decompose_partial_plan :
  decompose init "survey"
    (Decoded (JDict [("subtasks",
       JList [JDict [("id", JStr "t1"); ("description", JStr "collect");
                     ("priority", JInt 1)];
              JDict [("description", JStr "write"); ("priority", JInt 2)]])]))
  = (mk [Subtask.new "t1" "collect" 1 []] "survey", Raises (KeyError "id")).
Proof. reflexivity. Qed.

Lemma count_status_from (l : list Subtask.t) (status : TaskStatus) (n : Z) :
  fold_left (fun n task =>
               if bool_decide (Subtask.status task = status) then n + 1 else n)
            l n
  = n + Z.of_nat (length (List.filter
                    (fun task => bool_decide (Subtask.status task = status)) l)).
Proof.
  revert n. induction l as [|a l IH]; intros n; simpl; [lia|].
  rewrite IH. destruct (bool_decide (Subtask.status a = status)); simpl; lia.
Qed.

Lemma count_status_length (self : t) (status : TaskStatus) :
  count_status self status =
  Z.of_nat (length (List.filter
              (fun task => bool_decide (Subtask.status task = status))
              (tasks self))).
Proof. unfold count_status. rewrite count_status_from. lia. Qed.

Lemma count_status_zero (self : t) (status : TaskStatus) :
  count_status self status = 0 <->
  forall task, In task (tasks self) -> Subtask.status task <> status.
Proof.
  rewrite count_status_length. generalize (tasks self). intros l.
  induction l as [|a l IH]; simpl.
  - split; [intros _ ? [] | reflexivity].
  - case_bool_decide as Ha; simpl.
    + split; [lia|]. intros H. exfalso. now apply (H a (or_introl eq_refl)).
    + rewrite IH. split.
      * intros H task [<- | Hin]; [exact Ha | now apply H].
      * intros H task Hin. apply H. now right.
Qed.

(** X6.  The counts of [get_summary] partition the plan: completed, failed,
    pending and in-progress tasks, together with the skipped ones it does
    not report, add up to [total_tasks]; and [is_complete] holds exactly when
    no task is failed, pending or in progress. *)
Theorem summary_counts_partition (self : t) :
  let s := get_summary self in
  Summary.total_tasks s = Z.of_nat (length (tasks self)) /\
  Summary.completed s + Summary.failed s + Summary.pending s
    + Summary.in_progress s + count_status self SKIPPED
    = Summary.total_tasks s /\
  (Summary.is_complete s = true <->
   Summary.failed s = 0 /\ Summary.pending s = 0 /\ Summary.in_progress s = 0).
Proof.
  cbn zeta. unfold get_summary. simpl. split; [reflexivity|]. split.
  - rewrite !count_status_length. generalize (tasks self). intros l.
    induction l as [|a l IH]; simpl; [reflexivity|].
    destruct (Subtask.status a); simpl; lia.
  - rewrite is_complete_iff, !count_status_zero. split.
    + intros H. repeat split; intros task Hin; destruct (H task Hin);
        congruence.
    + intros (Hf & Hp & Hi) task Hin.
      specialize (Hf task Hin). specialize (Hp task Hin).
      specialize (Hi task Hin).
      destruct (Subtask.status task); tauto.
Qed.

End SchedulerMore.

(** ** More on the embedding cache *)

Section EmbeddingMore.
Import Py EmbeddingGenerator.
Context {vector : Type}.
Variable provider : nat -> string -> option vector.

#[local] Set Default Proof Using "Type".

(** X7.  Once [create_embedding] has returned a vector for a text, asking
    again returns the same vector from the cache: no provider call is made,
    the cache and the count of embeddings stay as they are, and one more
    cache hit is counted. *)
Theorem create_embedding_repeat_is_cached (text : string) (g g1 : t vector)
    (v : vector) :
  create_embedding provider text g = (g1, Return v) ->
  exists g2,
    create_embedding provider text g1 = (g2, Return v) /\
    cache g2 = cache g1 /\
    api_call_count g2 = api_call_count g1 /\
    embedding_count g2 = embedding_count g1 /\
    cache_hits g2 = cache_hits g1 + 1 /\
    total_requests g2 = total_requests g1 + 1.
Proof.
  intros Hfirst. rewrite create_embedding_cases in Hfirst.
  rewrite create_embedding_cases.
  destruct (blank text); [discriminate|].
  assert (cache g1 !! text = Some v) as Hcached.
  { destruct (cache g !! text) as [e|] eqn:Hc.
    - inversion Hfirst; subst. exact Hc.
    - destruct (answer provider text) as [e|]; [|discriminate].
      inversion Hfirst; subst. simpl. apply lookup_insert_eq. }
  rewrite Hcached. eexists. split; [reflexivity|]. simpl. repeat split.
Qed.

(** X8.  What one [create_embedding] costs: no provider call for a blank
    text or a cached one; otherwise one call per attempt up to the first
    that answers, which are one, two or three calls, and three calls when
    every attempt fails.  On a cache miss the call returns the first answer
    and raises when there is none; a call that raises leaves the cache and
    the count of embeddings untouched. *)
Theorem create_embedding_api_calls (text : string) (g : t vector) :
  api_call_count (create_embedding provider text g).1
    = api_call_count g
      + (if blank text then 0
         else match cache g !! text with
              | Some _ => 0
              | None => attempts provider text
              end) /\
  attempts provider text
    = match provider 0%nat text, provider 1%nat text with
      | Some _, _ => 1
      | None, Some _ => 2
      | None, None => 3
      end /\
  (blank text = false -> cache g !! text = None ->
     (create_embedding provider text g).2
       = match provider 0%nat text, provider 1%nat text, provider 2%nat text with
         | Some e, _, _ => Return e
         | None, Some e, _ => Return e
         | None, None, Some e => Return e
         | None, None, None => Raise (Wrapped ApiError)
         end) /\
  (forall e, (create_embedding provider text g).2 = Raise e ->
     cache (create_embedding provider text g).1 = cache g /\
     embedding_count (create_embedding provider text g).1 = embedding_count g).
Proof.
  rewrite create_embedding_cases.
  split; [|split; [|split]].
  - destruct (blank text); simpl; [lia|].
    destruct (cache g !! text); simpl; [lia|].
    now destruct (answer provider text).
  - unfold attempts. destruct (provider 0%nat text); [reflexivity|].
    now destruct (provider 1%nat text).
  - intros -> ->. unfold answer.
    destruct (provider 0%nat text); [reflexivity|].
    destruct (provider 1%nat text); [reflexivity|].
    now destruct (provider 2%nat text).
  - destruct (blank text); simpl; [intros; now split|].
    destruct (cache g !! text); simpl; [discriminate|].
    destruct (answer provider text); simpl; [discriminate | intros; now split].
Qed.

Lemma create_embedding_consistent (text : string) (g : t vector) :
  Consistent g -> Consistent (create_embedding provider text g).1.
Proof.
  unfold Consistent. intros (Hhits & Hcount & Hsize & Hcalls).
  rewrite create_embedding_cases.
  destruct (blank text); simpl; [repeat split; lia|].
  destruct (cache g !! text) as [e|] eqn:Hc; simpl; [repeat split; lia|].
  pose proof (attempts_bounds provider text) as Hattempts.
  destruct (answer provider text); simpl; [|repeat split; lia].
  rewrite map_size_insert_None by exact Hc. repeat split; lia.
Qed.

Lemma requested_consistent (texts : list string) (g : t vector) :
  Consistent g -> Consistent (requested provider texts g).
Proof.
  revert g. induction texts as [|text texts IH]; intros g Hg; [exact Hg|].
  simpl. apply IH. now apply create_embedding_consistent.
Qed.

(** X9.  After any series of [create_embedding] calls on a new generator,
    [get_cache_info] is coherent: the hit rate lies between 0 and 1, the
    cache holds exactly the embeddings counted, and no embedding was obtained
    without a provider call. *)
Theorem cache_info_coherent (texts : list string) :
  let info := get_cache_info (requested provider texts init) in
  (0 <= CacheInfo.hit_rate info)%Q /\
  (CacheInfo.hit_rate info <= 1)%Q /\
  CacheInfo.size info = CacheInfo.embedding_count info /\
  CacheInfo.embedding_count info <= CacheInfo.api_call_count info.
Proof.
  cbn zeta.
  assert (Consistent (vector := vector) init) as Hinit.
  { unfold Consistent, init. simpl. rewrite map_size_empty. lia. }
  destruct (requested_consistent texts init Hinit)
    as (Hhits & _ & Hsize & Hcalls).
  unfold get_cache_info. simpl.
  set (g := requested provider texts init) in *.
  assert (0 < inject_Z (Z.max (total_requests g) 1))%Q as Hpos.
  { rewrite <- (Zlt_Qlt 0). lia. }
  repeat split; [| |exact Hsize | exact Hcalls].
  - apply Qle_shift_div_l; [exact Hpos|].
    rewrite Qmult_0_l. rewrite <- (Zle_Qle 0). lia.
  - apply Qle_shift_div_r; [exact Hpos|].
    rewrite Qmult_1_l. rewrite <- Zle_Qle. lia.
Qed.

(** *** Batches *)

Variable batch_provider : nat -> list string -> option (list vector).

Lemma call_batch_api_spec (texts : list string) (g : t vector) :
  let run := _call_batch_api_with_retry batch_provider texts g in
  cache run.1 = cache g /\
  embedding_count run.1 = embedding_count g /\
  api_call_count g <= api_call_count run.1 <= api_call_count g + 3.
Proof.
  cbn zeta. unfold _call_batch_api_with_retry. simpl.
  unfold bind, modify, ret, raise. simpl.
  destruct (batch_provider 0%nat texts); simpl; [repeat split; lia|].
  destruct (batch_provider 1%nat texts); simpl; [repeat split; lia|].
  destruct (batch_provider 2%nat texts); simpl; repeat split; lia.
Qed.

Lemma set_item_in_range {A} (l : list A) (idx : nat) (value : A) :
  (idx < length l)%nat -> set_item l idx value = Some (<[idx := value]> l).
Proof.
  intros H. unfold set_item. apply Nat.ltb_lt in H. now rewrite H.
Qed.

Lemma scan_cache_spec (g0 : t vector) (rest : list string) (k : nat)
    (acc : scan) (g : t vector) :
  cache g = cache g0 ->
  length (results acc) = (k + length rest)%nat ->
  (forall i, (k <= i)%nat -> (i < k + length rest)%nat ->
     results acc !! i = Some None) ->
  match scan_cache (enumerate_from k rest) acc g with
  | (g1, inl IndexError) => False
  | (g1, inl (Raised e)) =>
      e = ValueError /\ cache g1 = cache g0 /\
      api_call_count g1 = api_call_count g /\
      embedding_count g1 = embedding_count g
  | (g1, inr scanned) =>
      cache g1 = cache g0 /\
      api_call_count g1 = api_call_count g /\
      embedding_count g1 = embedding_count g /\
      length (results scanned) = length (results acc) /\
      (forall i, (i < k)%nat -> results scanned !! i = results acc !! i) /\
      (forall i text, rest !! i = Some text ->
         results scanned !! (k + i)%nat = Some (cache g0 !! text) /\
         blank text = false) /\
      uncached_indices scanned
        = uncached_indices acc
          ++ map fst (List.filter (uncached g0) (enumerate_from k rest)) /\
      uncached_texts scanned
        = uncached_texts acc
          ++ map snd (List.filter (uncached g0) (enumerate_from k rest))
  end.
Proof.
  revert k acc g. induction rest as [|text rest IH]; intros k acc g Hc Hlen Hnone.
  - simpl. rewrite !app_nil_r.
    repeat split; try assumption; try reflexivity;
      match goal with H : [] !! _ = Some _ |- _ => now rewrite lookup_nil in H end.
  - cbn [enumerate_from scan_cache List.filter].
    simpl length in Hlen, Hnone.
    destruct (blank text) eqn:Hblank; [now repeat split|].
    rewrite Hc. destruct (cache g0 !! text) as [e|] eqn:Hcached.
    + assert (uncached g0 (k, text) = false) as ->
        by (unfold uncached; simpl; now rewrite Hcached).
      rewrite set_item_in_range by lia.
      match goal with
      | |- context [scan_cache _ ?acc' ?g'] =>
          specialize (IH (S k) acc' g' eq_refl)
      end.
      cbn [results uncached_indices uncached_texts api_call_count
           embedding_count] in IH.
      rewrite length_insert in IH.
      assert (forall i, (S k <= i)%nat -> (i < S k + length rest)%nat ->
                <[k := Some e]> (results acc) !! i = Some None) as Hnone'.
      { intros i Hi Hi'. rewrite list_lookup_insert_ne by lia.
        apply Hnone; lia. }
      specialize (IH ltac:(lia) Hnone').
      destruct (scan_cache _ _ _) as [g1 [[e'|]|scanned]]; try exact IH.
      destruct IH as (H1 & H2 & H3 & H4 & H5 & H6 & H7 & H8).
      split; [exact H1|]. split; [exact H2|]. split; [exact H3|].
      split; [exact H4|]. split; [|split; [|split; assumption]].
      * intros i Hi. rewrite H5 by lia.
        apply list_lookup_insert_ne. lia.
      * intros i other Hi. destruct i as [|i]; simpl in Hi.
        -- inversion Hi; subst other. rewrite Nat.add_0_r.
           rewrite H5 by lia. split; [|exact Hblank].
           rewrite list_lookup_insert_eq by lia. now rewrite Hcached.
        -- replace (k + S i)%nat with (S k + i)%nat by lia.
           now apply H6.
    + assert (uncached g0 (k, text) = true) as ->
        by (unfold uncached; simpl; now rewrite Hcached).
      match goal with
      | |- context [scan_cache _ ?acc' g] =>
          specialize (IH (S k) acc' g Hc)
      end.
      cbn [results uncached_indices uncached_texts] in IH.
      assert (forall i, (S k <= i)%nat -> (i < S k + length rest)%nat ->
                results acc !! i = Some None) as Hnone'.
      { intros i Hi Hi'. apply Hnone; lia. }
      specialize (IH ltac:(lia) Hnone').
      destruct (scan_cache _ _ _) as [g1 [[e'|]|scanned]]; try exact IH.
      destruct IH as (H1 & H2 & H3 & H4 & H5 & H6 & H7 & H8).
      split; [exact H1|]. split; [exact H2|]. split; [exact H3|].
      split; [exact H4|]. split; [|split; [|split]].
      * intros i Hi. apply H5. lia.
      * intros i other Hi. destruct i as [|i]; simpl in Hi.
        -- inversion Hi; subst other. rewrite Nat.add_0_r.
           rewrite H5 by lia. split; [|exact Hblank].
           rewrite Hcached. apply Hnone; lia.
        -- replace (k + S i)%nat with (S k + i)%nat by lia.
           now apply H6.
      * rewrite H7. simpl. now rewrite <- app_assoc.
      * rewrite H8. simpl. now rewrite <- app_assoc.
Qed.

Lemma fill_spec (texts : list string) (pairs : list (nat * vector))
    (slots : list (option vector)) (g : t vector) :
  (forall idx, In idx (map fst pairs) ->
     (idx < length slots)%nat /\ is_Some (texts !! idx)) ->
  exists g2 slots2,
    fill texts pairs slots g = (g2, inr slots2) /\
    length slots2 = length slots /\
    api_call_count g2 = api_call_count g /\
    (forall i, ~ In i (map fst pairs) -> slots2 !! i = slots !! i) /\
    (forall i, In i (map fst pairs) -> exists e, slots2 !! i = Some (Some e)) /\
    (forall text,
       (forall idx, In idx (map fst pairs) -> texts !! idx <> Some text) ->
       cache g2 !! text = cache g !! text) /\
    (forall text, is_Some (cache g !! text) -> is_Some (cache g2 !! text)) /\
    (forall idx text, In idx (map fst pairs) -> texts !! idx = Some text ->
       is_Some (cache g2 !! text)).
Proof.
  revert slots g. induction pairs as [|[idx e] rest IH]; intros slots g Hok.
  - exists g, slots. simpl. repeat split; try easy.
  - cbn [fill map fst] in *.
    destruct (Hok idx (or_introl eq_refl)) as [Hidx [text Htext]].
    rewrite Htext, set_item_in_range by exact Hidx.
    match goal with
    | |- context [fill texts rest ?slots' ?g'] =>
        destruct (IH slots' g') as (g2 & slots2 & -> & H1 & H2 & H3 & H4 & H5 & H6 & H7)
    end.
    { intros i Hi. rewrite length_insert. apply Hok. now right. }
    rewrite length_insert in H1. simpl in H2, H5, H6.
    exists g2, slots2. split; [reflexivity|]. split; [exact H1|].
    split; [exact H2|]. split; [|split; [|split; [|split]]].
    + intros i Hi. rewrite H3 by (intros H; apply Hi; now right).
      apply list_lookup_insert_ne. intros ->. apply Hi. now left.
    + intros i [<- | Hi]; [|now apply H4].
      destruct (in_dec Nat.eq_dec idx (map fst rest)) as [Hin | Hnot];
        [now apply H4|].
      rewrite H3 by exact Hnot. exists e.
      now apply list_lookup_insert_eq.
    + intros other Hother. rewrite H5.
      * apply lookup_insert_ne. intros ->.
        now apply (Hother idx (or_introl eq_refl)).
      * intros i Hi. apply Hother. now right.
    + intros other Hsome. apply H6.
      destruct (decide (text = other)) as [<- | Hne].
      * rewrite lookup_insert_eq. eauto.
      * now rewrite lookup_insert_ne.
    + intros i other [<- | Hi] Hi'; [|now apply (H7 i)].
      assert (other = text) as -> by congruence.
      apply H6. rewrite lookup_insert_eq. eauto.
Qed.

Lemma finish_spec (slots : list (option vector)) (final_results : list vector) :
  match finish slots final_results with
  | inr found => map Some found = map Some final_results ++ slots
  | inl e => e = RuntimeError
  end.
Proof.
  revert final_results. induction slots as [|[v|] slots IH];
    intros final_results; simpl.
  - now rewrite app_nil_r.
  - specialize (IH (final_results ++ [v])).
    destruct (finish slots (final_results ++ [v])); [exact IH|].
    rewrite IH, map_app. simpl. now rewrite <- app_assoc.
  - reflexivity.
Qed.

Lemma uncached_indices_in_range (g : t vector) (texts : list string) (idx : nat) :
  In idx (map fst (List.filter (uncached g) (enumerate texts))) ->
  exists text, texts !! idx = Some text /\ cache g !! text = None.
Proof.
  intros H. apply in_map_iff in H as ([i text] & <- & H).
  apply filter_In in H as [Hin Hun]. apply enumerate_lookup in Hin.
  exists text. split; [exact Hin|]. unfold uncached in Hun. simpl in *.
  now destruct (cache g !! text).
Qed.

(** X30.  [create_embeddings] never fails on a subscript.  It makes at most
    three provider calls, and none, leaving the cache as it is, when every
    text is cached.  When it returns there is one vector per text, a cached
    text getting its cached vector; no text is blank, every text is in the
    cache afterwards and no entry that was cached has changed.  An empty
    list is a [ValueError]. *)
Theorem create_embeddings_outcome (texts : list string) (g : t vector) :
  let run := create_embeddings batch_provider texts g in
  run.2 <> inl IndexError /\
  (texts = [] -> run = (g, inl (Raised ValueError))) /\
  api_call_count g <= api_call_count run.1 <= api_call_count g + 3 /\
  ((forall text, In text texts -> is_Some (cache g !! text)) ->
   api_call_count run.1 = api_call_count g /\ cache run.1 = cache g) /\
  (forall found, run.2 = inr found ->
     length found = length texts /\
     (forall i text e, texts !! i = Some text -> cache g !! text = Some e ->
        found !! i = Some e) /\
     (forall text, In text texts ->
        blank text = false /\ is_Some (cache run.1 !! text)) /\
     (forall text e, cache g !! text = Some e -> cache run.1 !! text = Some e)).
Proof.
  cbn zeta. unfold create_embeddings.
  destruct texts as [|first others] eqn:Htexts.
  { simpl. repeat split; try easy; try lia. }
  rewrite <- Htexts. assert (texts <> []) as Hne by (subst; discriminate).
  clear Htexts first others.
  pose proof (scan_cache_spec g texts 0
                (mk_scan (replicate (length texts) None) [] []) g eq_refl) as Hscan.
  cbn [results uncached_indices uncached_texts app Nat.add] in Hscan.
  fold (enumerate texts) in Hscan.
  destruct (scan_cache (enumerate texts) _ g) as [g1 [[e|]|scanned]].
  - destruct Hscan as (-> & Hc & Ha & He).
    + now rewrite length_replicate.
    + intros i _ Hi. now apply lookup_replicate_2.
    + simpl. split; [discriminate|]. split; [easy|]. split; [lia|].
      split; [|discriminate]. intros _. split; [exact Ha | exact Hc].
  - destruct Hscan.
    + now rewrite length_replicate.
    + intros i _ Hi. now apply lookup_replicate_2.
  - destruct Hscan as (Hc & Ha & He & Hlen & _ & Hslots & Hidx & Htxt).
    + now rewrite length_replicate.
    + intros i _ Hi. now apply lookup_replicate_2.
    + rewrite length_replicate in Hlen.
      assert (Hall : forall text, In text texts -> blank text = false).
      { intros text Hin. apply list_elem_of_In, list_elem_of_lookup_1 in Hin
          as [i Hi]. now apply (Hslots i text). }
      destruct (uncached_texts scanned) as [|t ts] eqn:Hun.
      * (* every text was cached *)
        assert (Hcached : forall i text, texts !! i = Some text ->
                  is_Some (cache g !! text)).
        { intros i text Hi.
          destruct (cache g !! text) as [e|] eqn:Hce; [eauto|].
          exfalso. symmetry in Htxt. apply map_eq_nil in Htxt.
          assert (In (i, text) (List.filter (uncached g) (enumerate texts)))
            as Hin.
          { apply filter_In. split; [now apply enumerate_lookup|].
            unfold uncached. simpl. now rewrite Hce. }
          rewrite Htxt in Hin. destruct Hin. }
        pose proof (finish_spec (results scanned) []) as Hfin.
        destruct (finish (results scanned) []) as [e|found]; simpl.
        -- split; [discriminate|]. split; [easy|]. split; [lia|].
           split; [now split | discriminate].
        -- simpl in Hfin. split; [discriminate|]. split; [easy|].
           split; [lia|]. split; [now split|].
           intros found' H. inversion H; subst found'. clear H.
           assert (length found = length texts) as Hflen.
           { rewrite <- Hlen, <- Hfin. now rewrite length_map. }
           split; [exact Hflen|]. split; [|split].
           ++ intros i text e Hi Hce.
              destruct (Hslots i text Hi) as [Hslot _]. simpl in Hslot.
              rewrite <- Hfin, Hce in Hslot.
              rewrite list_lookup_fmap in Hslot.
              destruct (found !! i); simpl in Hslot; congruence.
           ++ intros text Hin. split; [now apply Hall|]. rewrite Hc.
              apply list_elem_of_In, list_elem_of_lookup_1 in Hin as [i Hi].
              now apply (Hcached i).
           ++ intros text e. now rewrite Hc.
      * (* some text has to be fetched *)
        pose proof (call_batch_api_spec (t :: ts) g1) as Hcall.
        cbn zeta in Hcall.
        destruct (_call_batch_api_with_retry batch_provider (t :: ts) g1)
          as [g2 [embeddings|e]]; simpl in Hcall;
          destruct Hcall as (Hc2 & He2 & Ha2).
        2:{ simpl. split; [discriminate|]. split; [easy|]. split; [lia|].
            split; [|discriminate]. intros Hcached. exfalso.
            assert (In t (map snd (List.filter (uncached g) (enumerate texts))))
              as Hin by (rewrite <- Htxt; now left).
            apply in_map_iff in Hin as ([i text] & Heq & Hin). simpl in Heq.
            subst text. apply filter_In in Hin as [Hin Hu].
            apply enumerate_lookup in Hin.
            assert (In t texts) as Ht
              by (apply list_elem_of_In; eapply list_elem_of_lookup_2; exact Hin).
            destruct (Hcached t Ht) as [e' He']. unfold uncached in Hu.
            simpl in Hu. now rewrite He' in Hu. }
        assert (Hpairs : forall idx,
                  In idx (map fst (combine (uncached_indices scanned) embeddings)) ->
                  exists text, texts !! idx = Some text /\ cache g !! text = None).
        { intros idx Hin. apply uncached_indices_in_range.
          rewrite <- Hidx. apply in_map_iff in Hin as ([i e] & <- & Hin).
          now apply in_combine_l in Hin. }
        destruct (fill_spec texts (combine (uncached_indices scanned) embeddings)
                    (results scanned) g2)
          as (g3 & slots & -> & Hl3 & Ha3 & Hkeep & Hset & Hcache & Hsome & Hnew).
        { intros idx Hin. destruct (Hpairs idx Hin) as (text & Hi & _).
          split; [|eauto]. rewrite Hlen. now apply lookup_lt_Some in Hi. }
        assert (Hnot_all : ~ (forall text, In text texts -> is_Some (cache g !! text))).
        { intros Hcached.
          assert (In t (map snd (List.filter (uncached g) (enumerate texts))))
            as Hin by (rewrite <- Htxt; now left).
          apply in_map_iff in Hin as ([i text] & Heq & Hin). simpl in Heq.
          subst text. apply filter_In in Hin as [Hin Hu].
          apply enumerate_lookup in Hin.
          assert (In t texts) as Ht
            by (apply list_elem_of_In; eapply list_elem_of_lookup_2; exact Hin).
          destruct (Hcached t Ht) as [e' He']. unfold uncached in Hu.
          simpl in Hu. now rewrite He' in Hu. }
        pose proof (finish_spec slots []) as Hfin.
        destruct (finish slots []) as [e|found]; simpl.
        -- split; [discriminate|]. split; [easy|]. split; [lia|].
           split; [intros H; now destruct Hnot_all | discriminate].
        -- simpl in Hfin. split; [discriminate|]. split; [easy|].
           split; [lia|]. split; [intros H; now destruct Hnot_all|].
           intros found' H. inversion H; subst found'. clear H.
           assert (length found = length texts) as Hflen.
           { rewrite <- Hlen, <- Hl3, <- Hfin. now rewrite length_map. }
           assert (Hstay : forall text e, cache g !! text = Some e ->
                     cache g3 !! text = Some e).
           { intros text e Hce. rewrite Hcache, Hc2, Hc; [exact Hce|].
             intros idx Hin Hi. destruct (Hpairs idx Hin) as (text' & Hi' & Hn).
             congruence. }
           split; [exact Hflen|]. split; [|split; [|exact Hstay]].
           ++ intros i text e Hi Hce.
              destruct (Hslots i text Hi) as [Hslot _]. simpl in Hslot.
              rewrite Hce in Hslot. rewrite <- Hkeep in Hslot.
              ** rewrite <- Hfin, list_lookup_fmap in Hslot.
                 destruct (found !! i); simpl in Hslot; congruence.
              ** intros Hin. destruct (Hpairs i Hin) as (text' & Hi' & Hn).
                 congruence.
           ++ intros text Hin. split; [now apply Hall|].
              apply list_elem_of_In, list_elem_of_lookup_1 in Hin as [i Hi].
              destruct (cache g !! text) as [e|] eqn:Hce.
              ** rewrite (Hstay text e Hce). eauto.
              ** destruct (in_dec Nat.eq_dec i
                             (map fst (combine (uncached_indices scanned)
                                               embeddings))) as [Hin | Hnot].
                 --- now apply (Hnew i).
                 --- exfalso. destruct (Hslots i text Hi) as [Hslot _].
                     simpl in Hslot. rewrite Hce, <- (Hkeep i Hnot) in Hslot.
                     rewrite <- Hfin, list_lookup_fmap in Hslot.
                     destruct (found !! i); simpl in Hslot; congruence.
Qed.

End EmbeddingMore.

Lemma create_embedding_repeat_is_cached_witness :
  exists g2,
    EmbeddingGenerator.create_embedding sample_provider "tesla"
      (EmbeddingGenerator.create_embedding sample_provider "tesla" EmbeddingGenerator.init).1
      = (g2, Py.Return 5%Z) /\
    EmbeddingGenerator.api_call_count g2 = 1.
Proof.
  destruct (create_embedding_repeat_is_cached sample_provider "tesla" EmbeddingGenerator.init
              (EmbeddingGenerator.create_embedding sample_provider "tesla" EmbeddingGenerator.init).1 5%Z eq_refl)
    as (g2 & Hrun & _ & Hcalls & _).
  exists g2. split; [exact Hrun | exact Hcalls].
Defined.


(** A first attempt that fails and a second that answers: two provider
    calls, and the vector is returned and cached. *)
Example create_embedding_second_attempt :
  let run :=
    EmbeddingGenerator.create_embedding flaky_provider "tesla"
      EmbeddingGenerator.init in
  run.2 = Py.Return 5 /\
  EmbeddingGenerator.api_call_count run.1 = 2 /\
  EmbeddingGenerator.cache run.1 !! "tesla" = Some 5 /\
  EmbeddingGenerator.embedding_count run.1 = 1.
Proof. vm_compute. repeat split. Qed.

(** When the provider answers with fewer vectors than texts, the batch fails
    with [RuntimeError], but the vectors that did arrive are cached and
    counted. *)
Example create_embeddings_short_reply :
  let short (attempt : nat) (texts : list string) : option (list Z) :=
    Some [1] in
  let run :=
    EmbeddingGenerator.create_embeddings short ["anode"; "cathode"]
      EmbeddingGenerator.init in
  run.2 = inl (EmbeddingGenerator.Raised Py.RuntimeError) /\
  EmbeddingGenerator.cache run.1 !! "anode" = Some 1 /\
  EmbeddingGenerator.cache run.1 !! "cathode" = None /\
  EmbeddingGenerator.embedding_count run.1 = 1.
Proof. vm_compute. repeat split. Qed.

(** ** More on the memory store *)

Section MemoryMore.
Import Py.
Context {vector : Type}.
Variable provider : nat -> string -> option vector.
Variable distance : vector -> vector -> Q.
Variable query_fault : Chroma.collection (vector := vector) -> vector -> option exn.
Variable add_fault :
  Chroma.collection (vector := vector) -> Document.t vector -> option exn.
Variable get_fault : Chroma.collection (vector := vector) -> option exn.
Variable delete_fault :
  Chroma.collection (vector := vector) -> list string -> option exn.
Variable reset_fault : Chroma.collection (vector := vector) -> option exn.
Variable age_days : string -> option Z.

#[local] Set Default Proof Using "Type".

Abbreviation manager := (MemoryManager.t vector).
Abbreviation search_memory :=
  (MemoryManager.search_memory provider distance query_fault).
Abbreviation add_to_memory :=
  (MemoryManager.add_to_memory provider distance query_fault add_fault).
Abbreviation search_memory_by_source :=
  (MemoryManager.search_memory_by_source provider distance query_fault).
Abbreviation delete_memory :=
  (MemoryManager.delete_memory get_fault delete_fault).
Abbreviation get_all_documents := (MemoryManager.get_all_documents get_fault).
Abbreviation clear_all_memory := (MemoryManager.clear_all_memory reset_fault).
Abbreviation mark_as_important :=
  (MemoryManager.mark_as_important provider add_fault get_fault delete_fault).
Abbreviation cleanup_old_memories :=
  (MemoryManager.cleanup_old_memories get_fault delete_fault).
Abbreviation get_statistics :=
  (MemoryManager.get_statistics get_fault age_days).

Lemma search_memory_blank (query : string) (top_k : nat)
    (filter_dict : option (gmap string json -> bool)) (self : manager) :
  blank query = true ->
  search_memory query top_k filter_dict self = (self, Raise ValueError).
Proof.
  intros Hblank. unfold MemoryManager.search_memory. now rewrite Hblank.
Qed.

Lemma query_results (c : Chroma.collection) (q : vector) (top_k : nat)
    (filter_dict : option (gmap string json -> bool))
    (results : list (Document.t vector * Q)) :
  Chroma.query distance query_fault c q top_k filter_dict = Return results ->
  (length results <= top_k)%nat /\
  (forall r, In r results ->
     In r.1 c /\
     match filter_dict with
     | Some f => f (Document.metadata r.1) = true
     | None => True
     end) /\
  StronglySorted (fun a b => (a.2 <= b.2)%Q) results.
Proof.
  unfold Chroma.query. destruct (query_fault c q); [discriminate|].
  intros H. inversion H as [Hres]. clear H. split; [|split].
  - rewrite length_take. lia.
  - intros r Hr. apply In_take, sorted_by_In, in_map_iff in Hr
      as (d & <- & Hd). simpl.
    destruct filter_dict as [f|]; [|now split].
    now apply filter_In in Hd.
  - apply StronglySorted_take.
    apply (StronglySorted_weaken (fun a b => Qle_bool a.2 b.2 = true)).
    + intros x y Hxy. now apply Qle_bool_iff.
    + apply sorted_by_sorted.
      * intros x y z. apply Qle_bool_trans.
      * intros x y. apply Qle_bool_total.
Qed.

Lemma search_memory_bounded (query : string) (top_k : nat)
    (filter_dict : option (gmap string json -> bool)) (self : manager) :
  MemoryManager.collection (search_memory query top_k filter_dict self).1
    = MemoryManager.collection self /\
  forall hits, (search_memory query top_k filter_dict self).2 = Return hits ->
    (length hits <= top_k)%nat.
Proof.
  destruct (blank query) eqn:Hblank.
  { rewrite search_memory_blank by exact Hblank. now split. }
  destruct (search_memory_spec provider distance query_fault query top_k
              filter_dict self Hblank) as (g' & -> & _).
  split; [reflexivity|]. simpl. intros hits.
  destruct (embedding_of _ _ _) as [q|]; [|discriminate].
  destruct (Chroma.query _ _ _ q top_k filter_dict) as [results|e] eqn:Hq;
    [|discriminate].
  intros H. inversion H. rewrite length_map.
  now apply query_results in Hq as [Hlen _].
Qed.

Lemma search_memory_filtered (query : string) (top_k : nat)
    (passes : gmap string json -> bool) (self : manager)
    (hits : list SearchHit.t) :
  (search_memory query top_k (Some passes) self).2 = Return hits ->
  forall hit, In hit hits -> passes (SearchHit.metadata hit) = true.
Proof.
  destruct (blank query) eqn:Hblank.
  { rewrite search_memory_blank by exact Hblank. discriminate. }
  destruct (search_memory_spec provider distance query_fault query top_k
              (Some passes) self Hblank) as (g' & -> & _).
  simpl. destruct (embedding_of _ _ _) as [q|]; [|discriminate].
  destruct (Chroma.query _ _ _ q top_k (Some passes)) as [results|e] eqn:Hq;
    [|discriminate].
  intros H hit Hhit. inversion H; subst hits.
  apply in_map_iff in Hhit as (r & <- & Hr).
  apply query_results in Hq as (_ & Hin & _).
  now destruct (Hin r Hr) as [_ Hpass].
Qed.

(** X10.  What a successful [search_memory] returns: at most [top_k] hits,
    each showing a stored document that passes the filter, in order of
    falling similarity; the collection is not touched. *)
Theorem search_memory_results (query : string) (top_k : nat)
    (filter_dict : option (gmap string json -> bool)) (self self' : manager)
    (hits : list SearchHit.t) :
  search_memory query top_k filter_dict self = (self', Return hits) ->
  (length hits <= top_k)%nat /\
  MemoryManager.collection self' = MemoryManager.collection self /\
  (forall hit, In hit hits ->
     exists d, In d (MemoryManager.collection self) /\ Shows hit d /\
       match filter_dict with
       | Some f => f (Document.metadata d) = true
       | None => True
       end) /\
  StronglySorted
    (fun a b => (SearchHit.similarity b <= SearchHit.similarity a)%Q) hits.
Proof.
  intros Hrun. destruct (blank query) eqn:Hblank.
  { rewrite search_memory_blank in Hrun by exact Hblank. discriminate. }
  destruct (search_memory_spec provider distance query_fault query top_k
              filter_dict self Hblank) as (g' & Hspec & _).
  rewrite Hspec in Hrun. clear Hspec.
  destruct (embedding_of _ _ _) as [q|]; [|discriminate].
  destruct (Chroma.query _ _ _ q top_k filter_dict) as [results|e] eqn:Hq;
    [|discriminate].
  inversion Hrun; subst self' hits. clear Hrun.
  destruct (query_results _ _ _ _ _ Hq) as (Hlen & Hin & Hsorted).
  split; [now rewrite length_map|]. split; [reflexivity|]. split.
  - intros hit Hhit. apply in_map_iff in Hhit as (r & <- & Hr).
    destruct (Hin r Hr) as [Hstored Hpass].
    exists r.1. split; [exact Hstored|]. split; [|exact Hpass].
    repeat split.
  - eapply StronglySorted_map; [|exact Hsorted].
    intros x y Hxy. unfold hit_of. simpl in *. lra.
Qed.

(** X11.  [search_memory_by_source] returns only hits whose stored source is
    the one asked for, and every failure comes out wrapped: a blank query,
    which [search_memory] answers with [ValueError], is reported as a plain
    exception caused by it. *)
Theorem search_by_source_results (query source : string) (top_k : nat)
    (self : manager) :
  match (search_memory_by_source query source top_k self).2 with
  | Return hits =>
      forall hit, In hit hits ->
        SearchHit.metadata hit !! "source" = Some (JStr source)
  | Raise e => exists cause, e = Wrapped cause
  end /\
  (blank query = true ->
   search_memory_by_source query source top_k self
     = (self, Raise (Wrapped ValueError))).
Proof.
  unfold MemoryManager.search_memory_by_source, try_except. split.
  - pose proof (search_memory_filtered query top_k
                  (MemoryManager.source_is source) self) as Hres.
    destruct (search_memory query top_k _ self) as [self' [hits|e]]; simpl.
    + intros hit Hhit. specialize (Hres hits eq_refl hit Hhit).
      unfold MemoryManager.source_is in Hres.
      destruct (SearchHit.metadata hit !! "source") as [[| | | |s| |]|];
        try discriminate.
      apply String.eqb_eq in Hres. now subst s.
    + now exists e.
  - intros Hblank. now rewrite search_memory_blank.
Qed.

Lemma has_id_single (document_id : string) (d : Document.t vector) :
  Chroma.has_id [document_id] d = String.eqb (Document.id d) document_id.
Proof. unfold Chroma.has_id. simpl. apply orb_false_r. Qed.

Lemma filter_has_id_nil (document_id : string)
    (c : Chroma.collection (vector := vector)) :
  List.filter (Chroma.has_id [document_id]) c = [] <->
  ~ Stored c document_id.
Proof.
  split.
  - intros Hnil (d & Hd & Hid).
    assert (In d (List.filter (Chroma.has_id [document_id]) c)) as Hin.
    { apply filter_In. split; [exact Hd|].
      rewrite has_id_single. now apply String.eqb_eq. }
    rewrite Hnil in Hin. destruct Hin.
  - intros Hnot. destruct (List.filter _ c) as [|d rest] eqn:Hf; [reflexivity|].
    exfalso. apply Hnot. exists d.
    assert (In d (List.filter (Chroma.has_id [document_id]) c)) as Hin
      by (rewrite Hf; now left).
    apply filter_In in Hin as [Hd Hid]. split; [exact Hd|].
    rewrite has_id_single in Hid. now apply String.eqb_eq.
Qed.

Lemma delete_single (document_id : string)
    (c : Chroma.collection (vector := vector)) :
  List.filter (fun d => negb (Chroma.has_id [document_id] d)) c
    = without document_id c.
Proof.
  unfold without. apply filter_ext. intros d. now rewrite has_id_single.
Qed.

Lemma delete_memory_cases (document_id : string) (self : manager) :
  delete_memory document_id self =
    match get_fault (MemoryManager.collection self) with
    | Some _ => (self, Return false)
    | None =>
        match List.filter (Chroma.has_id [document_id])
                (MemoryManager.collection self) with
        | [] => (self, Return false)
        | _ =>
            match delete_fault (MemoryManager.collection self) [document_id] with
            | Some _ => (self, Return false)
            | None =>
                (MemoryManager.mk
                   (without document_id (MemoryManager.collection self))
                   (MemoryManager.embedding_generator self),
                 Return true)
            end
        end
    end.
Proof.
  unfold MemoryManager.delete_memory, try_except, bind, MemoryManager.engine,
    Chroma.get, Chroma.delete, modify, ret.
  cbn -[Chroma.has_id List.filter].
  destruct (get_fault _); [reflexivity|].
  cbn -[Chroma.has_id List.filter].
  destruct (List.filter _ _) as [|d rest]; [reflexivity|].
  cbn -[Chroma.has_id List.filter].
  destruct (delete_fault _ _); [reflexivity|].
  cbn -[Chroma.has_id List.filter]. now rewrite delete_single.
Qed.

Lemma delete_memory_effect (document_id : string) (self : manager) :
  exists done : bool,
    (delete_memory document_id self).2 = Return done /\
    (delete_memory document_id self).1
      = if done
        then MemoryManager.mk
               (without document_id (MemoryManager.collection self))
               (MemoryManager.embedding_generator self)
        else self.
Proof.
  rewrite delete_memory_cases.
  destruct (get_fault _); [now exists false|].
  destruct (List.filter _ _); [now exists false|].
  destruct (delete_fault _ _); [now exists false | now exists true].
Qed.

(** X12.  [delete_memory] never raises.  It answers [True] only for an id
    that was stored, and then every document of that id is gone while the
    others stay in place; when it answers [False] nothing has changed, and
    for a stored id that happens only if the engine failed.  The embedding
    generator is never touched. *)
Theorem delete_memory_outcome (document_id : string) (self : manager) :
  exists done : bool,
    (delete_memory document_id self).2 = Return done /\
    MemoryManager.embedding_generator (delete_memory document_id self).1
      = MemoryManager.embedding_generator self /\
    if done
    then Stored (MemoryManager.collection self) document_id /\
         MemoryManager.collection (delete_memory document_id self).1
           = without document_id (MemoryManager.collection self)
    else (delete_memory document_id self).1 = self /\
         (Stored (MemoryManager.collection self) document_id ->
          get_fault (MemoryManager.collection self) <> None \/
          delete_fault (MemoryManager.collection self) [document_id] <> None).
Proof.
  rewrite delete_memory_cases.
  destruct (get_fault _) eqn:Hget.
  { exists false. simpl. repeat split. intros _. left. discriminate. }
  destruct (List.filter _ _) as [|d rest] eqn:Hf.
  { exists false. simpl. repeat split. intros Hstored.
    apply filter_has_id_nil in Hf. now destruct Hf. }
  destruct (delete_fault _ _) eqn:Hdel.
  { exists false. simpl. repeat split. intros _. right. discriminate. }
  exists true. simpl. repeat split.
  exists d.
  assert (In d (List.filter (Chroma.has_id [document_id])
                  (MemoryManager.collection self))) as Hin
    by (rewrite Hf; now left).
  apply filter_In in Hin as [Hd Hid]. split; [exact Hd|].
  rewrite has_id_single in Hid. now apply String.eqb_eq.
Qed.

Lemma without_absent (document_id : string)
    (c : Chroma.collection (vector := vector)) :
  ~ Stored c document_id -> without document_id c = c.
Proof.
  intros Hnot. unfold without. induction c as [|d c IH]; [reflexivity|].
  simpl. destruct (String.eqb (Document.id d) document_id) eqn:Heq.
  - exfalso. apply Hnot. exists d. split; [now left|].
    now apply String.eqb_eq.
  - simpl. f_equal. apply IH. intros (d' & Hd' & Hid). apply Hnot.
    exists d'. split; [now right | exact Hid].
Qed.

Lemma without_app (document_id : string)
    (c1 c2 : Chroma.collection (vector := vector)) :
  without document_id (c1 ++ c2)
    = without document_id c1 ++ without document_id c2.
Proof. unfold without. apply List.filter_app. Qed.

Lemma without_self (d : Document.t vector) :
  without (Document.id d) [d] = [].
Proof. unfold without. simpl. now rewrite String.eqb_refl. Qed.

Lemma found_duplicate_stored (g : EmbeddingGenerator.t vector)
    (c : Chroma.collection) (text : string) (threshold : Q)
    (found : SearchHit.t) :
  found_duplicate provider distance query_fault g c text threshold = Some found ->
  Stored c (SearchHit.id found).
Proof.
  unfold found_duplicate.
  destruct (embedding_of provider g (strip text)) as [q|]; [|discriminate].
  destruct (query_fault c q); [discriminate|].
  intros Hdup. apply duplicate_of_some in Hdup as [_ (doc & Hin & -> & _)].
  now exists doc.
Qed.

(** X13.  Adding and deleting are inverse on the collection: when
    [add_to_memory] returns an id that was not stored before, a
    [delete_memory] of that id which the engine does not refuse answers
    [True] and leaves the collection exactly as it was before the add. *)
Theorem add_then_delete_restores (env : MemoryManager.environment)
    (text : string) (metadata : option (gmap string json))
    (document_id : option string) (check_dup : bool)
    (self self1 : manager) (new_id : string) :
  add_to_memory env text metadata document_id check_dup self
    = (self1, Return new_id) ->
  ~ Stored (MemoryManager.collection self) new_id ->
  get_fault (MemoryManager.collection self1) = None ->
  delete_fault (MemoryManager.collection self1) [new_id] = None ->
  exists self2,
    delete_memory new_id self1 = (self2, Return true) /\
    MemoryManager.collection self2 = MemoryManager.collection self /\
    MemoryManager.embedding_generator self2
      = MemoryManager.embedding_generator self1.
Proof.
  intros Hadd Hfresh Hget Hdel.
  destruct (blank text) eqn:Hblank.
  { unfold MemoryManager.add_to_memory in Hadd. rewrite Hblank in Hadd.
    discriminate. }
  destruct (add_to_memory_spec provider distance query_fault add_fault
              env text metadata document_id self Hblank) as (stamped & Hspec).
  destruct (Hspec check_dup) as (g' & Hrun & _). clear Hspec.
  rewrite Hrun in Hadd. clear Hrun.
  assert (exists q,
            MemoryManager.collection self1
              = MemoryManager.collection self
                  ++ [Document.mk new_id (strip text) q stamped]) as (q & Hc).
  { destruct (if check_dup then _ else None) as [found|] eqn:Hfound.
    - exfalso. inversion Hadd; subst. apply Hfresh.
      destruct check_dup; [|discriminate].
      now apply found_duplicate_stored in Hfound.
    - destruct (embedding_of _ _ _) as [q|]; [|discriminate].
      destruct (Chroma.add _ _ _) as [stored|e] eqn:Hstore; [|discriminate].
      inversion Hadd; subst. exists q. simpl.
      apply (chroma_add_fresh add_fault) in Hstore; [exact Hstore|].
      intros other Hin Hid. apply Hfresh. now exists other. }
  rewrite delete_memory_cases, Hget, Hdel, Hc.
  rewrite List.filter_app.
  assert (List.filter (Chroma.has_id [new_id])
            [Document.mk new_id (strip text) q stamped]
          = [Document.mk new_id (strip text) q stamped]) as ->.
  { cbn [List.filter]. rewrite has_id_single. simpl.
    now rewrite String.eqb_refl. }
  destruct (List.filter _ _ ++ _) as [|first rest] eqn:Hf.
  { now apply app_eq_nil in Hf as [_ Hf]. }
  eexists. split; [reflexivity|]. simpl. split; [|reflexivity].
  rewrite without_app, without_absent by exact Hfresh.
  change new_id with (Document.id (Document.mk new_id (strip text) q stamped))
    at 1.
  rewrite without_self. apply app_nil_r.
Qed.

(** [clear_all_memory] empties the collection and answers with the number
    of documents it held; the embedding generator, its cache included, is not
    touched.  A failure of the engine comes out wrapped, the store as it
    was. *)
Lemma clear_all_memory_cases (self : manager) :
  clear_all_memory self =
    match reset_fault (MemoryManager.collection self) with
    | Some e => (self, Raise (Wrapped e))
    | None =>
        (MemoryManager.mk [] (MemoryManager.embedding_generator self),
         Return (Z.of_nat (Chroma.count (MemoryManager.collection self))))
    end.
Proof.
  unfold MemoryManager.clear_all_memory, try_except, bind, gets,
    MemoryManager.engine, modify, ret, MemoryManager.wrap, raise. simpl.
  now destruct (reset_fault _).
Qed.

Lemma unique_ids_eq (c : Chroma.collection (vector := vector))
    (d d' : Document.t vector) :
  UniqueIds c -> In d c -> In d' c -> Document.id d = Document.id d' -> d = d'.
Proof.
  unfold UniqueIds. induction c as [|a c IH]; simpl; [intros _ []|].
  intros Hnodup Hd Hd' Hid. apply List.NoDup_cons_iff in Hnodup as [Hnot Hnodup].
  destruct Hd as [<- | Hd], Hd' as [<- | Hd']; [reflexivity | | |now apply IH].
  - exfalso. apply Hnot. rewrite Hid. now apply in_map.
  - exfalso. apply Hnot. rewrite <- Hid. now apply in_map.
Qed.

Lemma unique_ids_without (document_id : string)
    (c : Chroma.collection (vector := vector)) :
  UniqueIds c -> UniqueIds (without document_id c).
Proof.
  unfold UniqueIds, without. induction c as [|a c IH]; simpl; [easy|].
  intros Hnodup. apply List.NoDup_cons_iff in Hnodup as [Hnot Hnodup].
  destruct (negb _); simpl; [|now apply IH].
  apply List.NoDup_cons; [|now apply IH].
  intros Hin. apply Hnot. apply in_map_iff in Hin as (d & Hid & Hd).
  apply filter_In in Hd as [Hd _]. rewrite <- Hid. now apply in_map.
Qed.

Lemma unique_ids_split (c1 c2 : Chroma.collection (vector := vector))
    (d : Document.t vector) :
  UniqueIds (c1 ++ d :: c2) ->
  without (Document.id d) (c1 ++ d :: c2) = c1 ++ c2 /\
  List.filter (Chroma.has_id [Document.id d]) (c1 ++ d :: c2) = [d].
Proof.
  unfold UniqueIds. rewrite map_app. simpl. intros Hnodup.
  pose proof (List.NoDup_remove_2 _ _ _ Hnodup) as Hnot.
  assert (~ Stored c1 (Document.id d)) as H1.
  { intros (d' & Hd' & Hid). apply Hnot, in_or_app. left.
    rewrite <- Hid. now apply in_map. }
  assert (~ Stored c2 (Document.id d)) as H2.
  { intros (d' & Hd' & Hid). apply Hnot, in_or_app. right.
    rewrite <- Hid. now apply in_map. }
  split.
  - rewrite without_app. change (d :: c2) with ([d] ++ c2).
    rewrite without_app, without_self.
    now rewrite !without_absent by assumption.
  - rewrite List.filter_app. cbn [List.filter].
    rewrite has_id_single, String.eqb_refl.
    apply filter_has_id_nil in H1, H2. now rewrite H1, H2.
Qed.

Lemma mark_as_important_cases (document_id : string) (self : manager) :
  mark_as_important document_id self =
    match get_fault (MemoryManager.collection self) with
    | Some _ => (self, Return false)
    | None =>
        match List.filter (Chroma.has_id [document_id])
                (MemoryManager.collection self) with
        | [] => (self, Return false)
        | first :: _ =>
            match EmbeddingGenerator.create_embedding provider
                    (Document.text first)
                    (MemoryManager.embedding_generator self) with
            | (g', Raise _) =>
                (MemoryManager.mk (MemoryManager.collection self) g',
                 Return false)
            | (g', Return q) =>
                match delete_fault (MemoryManager.collection self)
                        [document_id] with
                | Some _ =>
                    (MemoryManager.mk (MemoryManager.collection self) g',
                     Return false)
                | None =>
                    match add_fault
                            (without document_id (MemoryManager.collection self))
                            (Document.mk document_id (Document.text first) q
                               (<["important" := JBool true]>
                                  (Document.metadata first))) with
                    | Some _ =>
                        (MemoryManager.mk
                           (without document_id (MemoryManager.collection self))
                           g',
                         Return false)
                    | None =>
                        (MemoryManager.mk
                           (without document_id (MemoryManager.collection self)
                            ++ [Document.mk document_id (Document.text first) q
                                  (<["important" := JBool true]>
                                     (Document.metadata first))])
                           g',
                         Return true)
                    end
                end
            end
        end
    end.
Proof.
  unfold MemoryManager.mark_as_important, try_except, bind,
    MemoryManager.engine, Chroma.get, Chroma.delete, modify, ret,
    MemoryManager.with_generator, on_field.
  cbn -[Chroma.has_id List.filter EmbeddingGenerator.create_embedding Chroma.add].
  destruct (get_fault _); [reflexivity|].
  cbn -[Chroma.has_id List.filter EmbeddingGenerator.create_embedding Chroma.add].
  destruct (List.filter _ _) as [|first rest]; [reflexivity|].
  cbn -[Chroma.has_id List.filter EmbeddingGenerator.create_embedding Chroma.add].
  destruct (EmbeddingGenerator.create_embedding _ _ _) as [g' [q|e]];
    [|reflexivity].
  cbn -[Chroma.has_id List.filter EmbeddingGenerator.create_embedding Chroma.add].
  destruct (delete_fault _ _); [reflexivity|].
  cbn -[Chroma.has_id List.filter EmbeddingGenerator.create_embedding Chroma.add].
  rewrite delete_single. unfold Chroma.add.
  destruct (add_fault _ _); [reflexivity|].
  destruct (existsb _ _) eqn:Hex; [|reflexivity].
  exfalso. apply existsb_exists in Hex as (d & Hd & Hid).
  apply filter_In in Hd as [_ Hd]. simpl in Hid.
  rewrite Hid in Hd. discriminate.
Qed.

(** X14.  When nothing fails, [mark_as_important] answers [True] and the
    store holds the same number of documents: the marked one, with its id
    and text, [important] set and the rest of its metadata kept, now last in
    the collection, and every other document as before.  (Ids are unique,
    as the engine keeps them.) *)
Theorem mark_as_important_marks (self : manager) (d : Document.t vector)
    (q : vector) :
  UniqueIds (MemoryManager.collection self) ->
  In d (MemoryManager.collection self) ->
  get_fault (MemoryManager.collection self) = None ->
  delete_fault (MemoryManager.collection self) [Document.id d] = None ->
  blank (Document.text d) = false ->
  embedding_of provider (MemoryManager.embedding_generator self)
               (Document.text d) = Some q ->
  add_fault (without (Document.id d) (MemoryManager.collection self))
            (marked_important d q) = None ->
  exists g',
    mark_as_important (Document.id d) self
      = (MemoryManager.mk
           (without (Document.id d) (MemoryManager.collection self)
            ++ [marked_important d q]) g',
         Return true) /\
    Chroma.count (without (Document.id d) (MemoryManager.collection self)
                  ++ [marked_important d q])
      = Chroma.count (MemoryManager.collection self).
Proof.
  intros Hunique Hd Hget Hdel Hblank Hq Hadd.
  apply in_split in Hd as (c1 & c2 & Hc).
  rewrite Hc in Hunique. destruct (unique_ids_split _ _ _ Hunique) as [Hw Hf].
  rewrite <- Hc in Hw, Hf.
  rewrite mark_as_important_cases, Hget, Hf.
  destruct (create_embedding_spec provider (Document.text d)
              (MemoryManager.embedding_generator self) Hblank)
    as (g' & -> & _).
  rewrite Hq, Hdel. unfold marked_important in Hadd. rewrite Hadd.
  exists g'. split; [reflexivity|].
  rewrite Hw, Hc. unfold Chroma.count. rewrite !length_app. simpl. lia.
Qed.

(** X15.  [mark_as_important] never raises.  [True] means that the document
    stored under the id was replaced by its marked copy.  [False] means that
    the collection is as it was, or, when the engine refused to store the
    marked copy after the original had been deleted, that the document is
    lost. *)
Theorem mark_as_important_outcome (document_id : string) (self : manager) :
  exists done : bool,
    (mark_as_important document_id self).2 = Return done /\
    if done
    then exists first q,
           In first (MemoryManager.collection self) /\
           Document.id first = document_id /\
           MemoryManager.collection (mark_as_important document_id self).1
             = without document_id (MemoryManager.collection self)
               ++ [marked_important first q]
    else MemoryManager.collection (mark_as_important document_id self).1
           = MemoryManager.collection self \/
         (Stored (MemoryManager.collection self) document_id /\
          MemoryManager.collection (mark_as_important document_id self).1
            = without document_id (MemoryManager.collection self) /\
          ~ Stored (MemoryManager.collection
                      (mark_as_important document_id self).1) document_id).
Proof.
  rewrite mark_as_important_cases.
  destruct (get_fault _); [exists false; simpl; split; [reflexivity | now left]|].
  destruct (List.filter _ _) as [|first rest] eqn:Hf;
    [exists false; simpl; split; [reflexivity | now left]|].
  assert (In first (MemoryManager.collection self) /\
          Document.id first = document_id) as [Hin Hid].
  { assert (In first (List.filter (Chroma.has_id [document_id])
                        (MemoryManager.collection self))) as H
      by (rewrite Hf; now left).
    apply filter_In in H as [H1 H2]. split; [exact H1|].
    rewrite has_id_single in H2. now apply String.eqb_eq. }
  destruct (EmbeddingGenerator.create_embedding _ _ _) as [g' [q|e]];
    [|exists false; simpl; split; [reflexivity | now left]].
  destruct (delete_fault _ _); [exists false; simpl; split; [reflexivity | now left]|].
  destruct (add_fault _ _).
  - exists false. simpl. split; [reflexivity|]. right.
    split; [now exists first|]. split; [reflexivity|].
    intros (d & Hd & Hd'). apply filter_In in Hd as [_ Hd].
    rewrite Hd', String.eqb_refl in Hd. discriminate.
  - exists true. simpl. split; [reflexivity|]. exists first, q.
    split; [exact Hin|]. split; [exact Hid|].
    unfold marked_important. now rewrite Hid.
Qed.

Lemma get_all_documents_cases (self : manager) :
  get_all_documents self =
    match get_fault (MemoryManager.collection self) with
    | Some e => (self, Raise (Wrapped e))
    | None => (self, Return (map MemoryManager.entry_of
                               (MemoryManager.collection self)))
    end.
Proof.
  unfold MemoryManager.get_all_documents, try_except, bind,
    MemoryManager.engine, Chroma.get, MemoryManager.wrap, raise, ret.
  now destruct (get_fault _).
Qed.

(** One round of the clean-up loop on a document it passes over: the loop
    goes on with the store as it is, or stops on a timestamp that is not a
    string. *)
Lemma cleanup_loop_passes (cutoff : string) (keep_important : bool)
    (doc : Entry.t) (rest : list Entry.t) (deleted kept : Z) (self : manager) :
  Targeted cutoff keep_important (Entry.metadata doc) = false ->
  MemoryManager.cleanup_loop get_fault delete_fault cutoff keep_important
    (doc :: rest) deleted kept self
  = MemoryManager.cleanup_loop get_fault delete_fault cutoff keep_important
      rest deleted (kept + 1) self \/
  MemoryManager.cleanup_loop get_fault delete_fault cutoff keep_important
    (doc :: rest) deleted kept self
  = (self, Raise TypeError).
Proof.
  unfold Targeted. cbn [MemoryManager.cleanup_loop].
  destruct (Entry.metadata doc !! "timestamp") as [v|]; [|now left].
  destruct v as [|b|z|x|stamp|items|entries]; cbn [MemoryManager.truthy];
    try (intros _;
         match goal with
         | |- context [if ?c then _ else _] => destruct c
         end; [now right | now left]).
  - now left.
  - destruct (negb (falsy stamp)); [|now left].
    destruct (String.ltb stamp cutoff); [|now left].
    simpl. intros H. apply negb_false_iff in H. rewrite H. now left.
Qed.

(** One round on a document it goes after: the document is deleted, and
    counted when the deletion succeeded. *)
Lemma cleanup_loop_deletes (cutoff : string) (keep_important : bool)
    (doc : Entry.t) (rest : list Entry.t) (deleted kept : Z) (self : manager) :
  Targeted cutoff keep_important (Entry.metadata doc) = true ->
  exists done : bool,
    (delete_memory (Entry.id doc) self).2 = Return done /\
    MemoryManager.cleanup_loop get_fault delete_fault cutoff keep_important
      (doc :: rest) deleted kept self
    = MemoryManager.cleanup_loop get_fault delete_fault cutoff keep_important
        rest (if done then deleted + 1 else deleted) kept
        (delete_memory (Entry.id doc) self).1.
Proof.
  unfold Targeted. cbn [MemoryManager.cleanup_loop].
  destruct (Entry.metadata doc !! "timestamp") as [v|]; [|discriminate].
  destruct v as [|b|z|x|stamp|items|entries]; try discriminate.
  cbn [MemoryManager.truthy].
  destruct (negb (falsy stamp)); [|discriminate].
  destruct (String.ltb stamp cutoff); [|discriminate].
  simpl. intros H. apply negb_true_iff in H. rewrite H.
  destruct (delete_memory_effect (Entry.id doc) self) as (done & Hdone & _).
  exists done. split; [exact Hdone|]. unfold bind.
  destruct (delete_memory (Entry.id doc) self) as [self1 r]. simpl in *.
  subst r. now destruct done.
Qed.

Lemma cleanup_loop_spares (cutoff : string) (keep_important : bool)
    (d : Document.t vector) (all_docs : list Entry.t) (deleted kept : Z)
    (self : manager) :
  (forall doc, In doc all_docs -> Entry.id doc = Document.id d ->
     Targeted cutoff keep_important (Entry.metadata doc) = false) ->
  In d (MemoryManager.collection self) ->
  In d (MemoryManager.collection
          (MemoryManager.cleanup_loop get_fault delete_fault cutoff
             keep_important all_docs deleted kept self).1).
Proof.
  revert deleted kept self.
  induction all_docs as [|doc rest IH]; intros deleted kept self Hdocs Hd;
    [exact Hd|].
  destruct (Targeted cutoff keep_important (Entry.metadata doc)) eqn:Ht.
  - destruct (cleanup_loop_deletes cutoff keep_important doc rest deleted kept
                self Ht) as (done & _ & ->).
    apply IH; [intros doc' H; apply Hdocs; now right|].
    destruct (delete_memory_effect (Entry.id doc) self)
      as (done' & _ & ->).
    destruct done'; [|exact Hd].
    simpl. apply filter_In. split; [exact Hd|].
    apply negb_true_iff. apply String.eqb_neq. intros Hid.
    specialize (Hdocs doc (or_introl eq_refl) (eq_sym Hid)). congruence.
  - destruct (cleanup_loop_passes cutoff keep_important doc rest deleted kept
                self Ht) as [-> | ->]; [|exact Hd].
    apply IH; [intros doc' H; apply Hdocs; now right | exact Hd].
Qed.

(** X16.  [cleanup_old_memories] never removes a document it is not after:
    one without a timestamp, one stamped at the cutoff or later, or, when
    important documents are kept, one marked important stays in the store,
    whether the clean-up returns or raises and whatever the engine does.
    (Ids are unique, as the engine keeps them.) *)
Theorem cleanup_spares (cutoff : string) (keep_important : bool)
    (self : manager) (d : Document.t vector) :
  UniqueIds (MemoryManager.collection self) ->
  In d (MemoryManager.collection self) ->
  Targeted cutoff keep_important (Document.metadata d) = false ->
  In d (MemoryManager.collection
          (cleanup_old_memories cutoff keep_important self).1).
Proof.
  intros Hunique Hd Hspared.
  unfold MemoryManager.cleanup_old_memories, try_except, bind.
  rewrite get_all_documents_cases.
  destruct (get_fault _); [exact Hd|].
  pose proof (cleanup_loop_spares cutoff keep_important d
                (map MemoryManager.entry_of (MemoryManager.collection self))
                0 0 self) as Hloop.
  destruct (MemoryManager.cleanup_loop _ _ _ _ _ _ _ self) as [self' [counts|e]];
    simpl in *; apply Hloop; try exact Hd;
    intros doc Hdoc Hid; apply in_map_iff in Hdoc as (d' & <- & Hd');
    simpl in *; now rewrite (unique_ids_eq _ d' d Hunique Hd' Hd Hid).
Qed.

Lemma cleanup_loop_exact (cutoff : string) (keep_important : bool)
    (rest pre : Chroma.collection (vector := vector))
    (g : EmbeddingGenerator.t vector) (deleted kept : Z) (self' : manager)
    (counts : Z * Z) :
  (forall c, get_fault c = None) ->
  (forall c ids, delete_fault c ids = None) ->
  UniqueIds (pre ++ rest) ->
  MemoryManager.cleanup_loop get_fault delete_fault cutoff keep_important
    (map MemoryManager.entry_of rest) deleted kept
    (MemoryManager.mk (pre ++ rest) g) = (self', Return counts) ->
  self' = MemoryManager.mk
            (pre ++ List.filter
                      (fun d => negb (Targeted cutoff keep_important
                                        (Document.metadata d))) rest) g /\
  counts.1 = deleted
             + Z.of_nat (length (List.filter
                  (fun d => Targeted cutoff keep_important (Document.metadata d))
                  rest)) /\
  counts.2 = kept
             + Z.of_nat (length (List.filter
                  (fun d => negb (Targeted cutoff keep_important
                                    (Document.metadata d))) rest)).
Proof.
  intros Hget Hdel. revert pre deleted kept.
  induction rest as [|d rest IH]; intros pre deleted kept Hunique Hrun.
  - simpl in Hrun. inversion Hrun. simpl. rewrite !Z.add_0_r. now repeat split.
  - cbn [map] in Hrun. cbn [List.filter].
    destruct (Targeted cutoff keep_important (Document.metadata d)) eqn:Ht.
    + destruct (cleanup_loop_deletes cutoff keep_important
                  (MemoryManager.entry_of d)
                  (map MemoryManager.entry_of rest) deleted kept
                  (MemoryManager.mk (pre ++ d :: rest) g) Ht)
        as (done & Hdone & Hstep).
      rewrite Hstep in Hrun. clear Hstep.
      rewrite delete_memory_cases in Hrun, Hdone. simpl in Hrun, Hdone.
      rewrite Hget, Hdel in Hrun, Hdone.
      destruct (unique_ids_split _ _ _ Hunique) as [Hw Hf].
      rewrite Hf in Hrun, Hdone. rewrite Hw in Hrun.
      simpl in Hdone. inversion Hdone; subst done. simpl in Hrun.
      apply IH in Hrun.
      * destruct Hrun as (-> & -> & ->). simpl. repeat split; lia.
      * unfold UniqueIds in *. rewrite map_app in *. simpl in Hunique.
        now apply List.NoDup_remove_1 in Hunique.
    + destruct (cleanup_loop_passes cutoff keep_important
                  (MemoryManager.entry_of d)
                  (map MemoryManager.entry_of rest) deleted kept
                  (MemoryManager.mk (pre ++ d :: rest) g) Ht) as [Hstep | Hstep];
        rewrite Hstep in Hrun; [|discriminate].
      change (pre ++ d :: rest) with (pre ++ [d] ++ rest) in Hrun, Hunique.
      rewrite app_assoc in Hrun, Hunique. apply IH in Hrun; [|exact Hunique].
      destruct Hrun as (-> & -> & ->). simpl. rewrite <- app_assoc.
      repeat split; lia.
Qed.

(** X17.  When the engine does not fail and the clean-up returns, it has
    done exactly its job: the store holds the documents it is not after, in
    their order, [deleted] counts the documents it was after and [kept] the
    others, so the two add up to the number of documents there were. *)
Theorem cleanup_result (cutoff : string) (keep_important : bool)
    (self self' : manager) (report : MemoryManager.cleanup_report) :
  (forall c, get_fault c = None) ->
  (forall c ids, delete_fault c ids = None) ->
  UniqueIds (MemoryManager.collection self) ->
  cleanup_old_memories cutoff keep_important self = (self', Return report) ->
  MemoryManager.collection self'
    = List.filter (fun d => negb (Targeted cutoff keep_important
                                    (Document.metadata d)))
                  (MemoryManager.collection self) /\
  MemoryManager.deleted report
    = Z.of_nat (Chroma.count (MemoryManager.collection self))
      - Z.of_nat (Chroma.count (MemoryManager.collection self')) /\
  MemoryManager.kept report
    = Z.of_nat (Chroma.count (MemoryManager.collection self')) /\
  MemoryManager.cutoff_date report = cutoff.
Proof.
  intros Hget Hdel Hunique.
  unfold MemoryManager.cleanup_old_memories, try_except, bind.
  rewrite get_all_documents_cases, Hget.
  destruct self as [c g]. simpl.
  pose proof (cleanup_loop_exact cutoff keep_important c [] g 0 0) as Hloop.
  simpl in Hloop.
  destruct (MemoryManager.cleanup_loop _ _ _ _ _ _ _ _) as [self1 [counts|e]];
    [|discriminate].
  destruct (Hloop self1 counts Hget Hdel Hunique eq_refl) as (-> & Hd & Hk).
  unfold ret. intros H. inversion H; subst. simpl.
  split; [reflexivity|]. unfold Chroma.count. rewrite Hd, Hk.
  pose proof (List.filter_length
                (fun d => Targeted cutoff keep_important (Document.metadata d))
                c) as Hlen.
  repeat split; lia.
Qed.

Lemma count_key_total (source : json) (sources : list (json * Z)) :
  total_of (MemoryManager.count_key source sources) = total_of sources + 1.
Proof.
  induction sources as [|[k n] rest IH]; simpl; [reflexivity|].
  destruct (MemoryManager.key_eqb k source); simpl; [lia|].
  unfold total_of in *. simpl. lia.
Qed.

Lemma count_sources_total (all_docs : list Entry.t)
    (sources counted : list (json * Z)) :
  MemoryManager.count_sources all_docs sources = Return counted ->
  total_of counted = total_of sources + Z.of_nat (length all_docs).
Proof.
  revert sources. induction all_docs as [|doc rest IH]; intros sources; simpl.
  - intros H. inversion H. lia.
  - destruct (MemoryManager.hashable _); [|discriminate].
    intros H. apply IH in H. rewrite count_key_total in H. lia.
Qed.

Lemma count_date_buckets (doc : Entry.t) (counts : MemoryManager.date_counts)
    (n : Z) :
  0 <= MemoryManager.last_24h counts <= MemoryManager.last_7days counts ->
  MemoryManager.last_7days counts <= MemoryManager.last_30days counts ->
  MemoryManager.last_30days counts + MemoryManager.older counts = n ->
  0 <= MemoryManager.older counts ->
  let counts' := MemoryManager.count_date age_days doc counts in
  0 <= MemoryManager.last_24h counts' <= MemoryManager.last_7days counts' /\
  MemoryManager.last_7days counts' <= MemoryManager.last_30days counts' /\
  MemoryManager.last_30days counts' + MemoryManager.older counts' = n + 1 /\
  0 <= MemoryManager.older counts'.
Proof.
  intros H1 H2 H3 H4. cbn zeta. unfold MemoryManager.count_date.
  destruct (MemoryManager.truthy _); [|simpl; lia].
  destruct (match Entry.metadata doc !! "timestamp" with
            | Some v => v
            | None => JStr ""
            end) as [|b|z|x|stamp|items|entries]; try (simpl; lia).
  destruct (age_days stamp) as [age|]; [|simpl; lia].
  destruct (Z.ltb_spec age 1), (Z.ltb_spec age 7), (Z.ltb_spec age 30);
    simpl; lia.
Qed.

Lemma count_dates_buckets (all_docs : list Entry.t)
    (counts : MemoryManager.date_counts) (n : Z) :
  0 <= MemoryManager.last_24h counts <= MemoryManager.last_7days counts ->
  MemoryManager.last_7days counts <= MemoryManager.last_30days counts ->
  MemoryManager.last_30days counts + MemoryManager.older counts = n ->
  0 <= MemoryManager.older counts ->
  let counts' :=
    fold_left (fun counts doc => MemoryManager.count_date age_days doc counts)
              all_docs counts in
  0 <= MemoryManager.last_24h counts' <= MemoryManager.last_7days counts' /\
  MemoryManager.last_7days counts' <= MemoryManager.last_30days counts' /\
  MemoryManager.last_30days counts' + MemoryManager.older counts'
    = n + Z.of_nat (length all_docs) /\
  0 <= MemoryManager.older counts'.
Proof.
  revert counts n. induction all_docs as [|doc rest IH];
    intros counts n H1 H2 H3 H4; cbn zeta.
  - simpl. lia.
  - cbn [fold_left].
    destruct (count_date_buckets doc counts n H1 H2 H3 H4) as (H1' & H2' & H3' & H4').
    specialize (IH _ _ H1' H2' H3' H4'). cbn zeta in IH.
    cbn [length]. lia.
Qed.

(** X18.  The report of [get_statistics] is coherent with the store, which
    it does not change: [total_documents] is the number of stored
    documents; the date buckets are nested (last day within last week
    within last thirty days) and the thirty-day bucket and [older] together
    count every document once; the counts of [by_source] add up to the
    total. *)
Theorem statistics_coherent (self self' : manager)
    (stats : MemoryManager.statistics) :
  get_statistics self = (self', Return stats) ->
  self' = self /\
  MemoryManager.total_documents stats
    = Z.of_nat (Chroma.count (MemoryManager.collection self)) /\
  (let by_date := MemoryManager.by_date stats in
   0 <= MemoryManager.last_24h by_date <= MemoryManager.last_7days by_date /\
   MemoryManager.last_7days by_date <= MemoryManager.last_30days by_date /\
   0 <= MemoryManager.older by_date /\
   MemoryManager.last_30days by_date + MemoryManager.older by_date
     = MemoryManager.total_documents stats) /\
  total_of (MemoryManager.by_source stats)
    = MemoryManager.total_documents stats.
Proof.
  unfold MemoryManager.get_statistics, try_except, bind.
  rewrite get_all_documents_cases.
  destruct (get_fault _); [discriminate|].
  set (all_docs := map MemoryManager.entry_of (MemoryManager.collection self)).
  destruct (MemoryManager.count_sources all_docs []) as [sources|e] eqn:Hsrc;
    [|discriminate].
  unfold gets, ret. intros H. injection H as <- <-. simpl.
  apply count_sources_total in Hsrc. unfold total_of in Hsrc at 2.
  simpl in Hsrc.
  assert (length all_docs = Chroma.count (MemoryManager.collection self))
    as Hlen by apply length_map.
  split; [reflexivity|]. split; [now rewrite Hlen|].
  split; [|now rewrite Hsrc].
  destruct (count_dates_buckets all_docs
              {| MemoryManager.last_24h := 0; MemoryManager.last_7days := 0;
                 MemoryManager.last_30days := 0; MemoryManager.older := 0 |} 0)
    as (H1 & H2 & H3 & H4); simpl; try lia.
Qed.

(** Two documents whose sources are the numbers [1] and [1.0] are counted
    under one key, as Python dictionaries do. *)
Example by_source_numeric_keys :
  MemoryManager.count_sources
    [Entry.mk "a" "x" {["source" := JInt 1]};
     Entry.mk "b" "y" {["source" := JFloat 1]};
     Entry.mk "c" "z" ∅] []
  = Return [(JInt 1, 2); (JStr "unknown", 1)].
Proof. reflexivity. Qed.

End MemoryMore.

(** *** The maintenance operations on sample services *)

Lemma search_memory_results_witness :
  let run :=
    MemoryManager.search_memory sample_provider sample_distance no_fault
      "tesla" 2 None sample_library in
  exists hits,
    run.2 = Py.Return hits /\
    (length hits <= 2)%nat /\
    StronglySorted
      (fun a b => (SearchHit.similarity b <= SearchHit.similarity a)%Q) hits.
Proof.
  intros run.
  set (hits := match run.2 with Py.Return found => found | Py.Raise _ => [] end).
  destruct (search_memory_results sample_provider sample_distance no_fault
              "tesla" 2 None sample_library run.1 hits)
    as (Hlen & _ & _ & Hsorted).
  - vm_compute. reflexivity.
  - exists hits. split; [vm_compute; reflexivity|]. split; assumption.
Defined.

Lemma add_then_delete_restores_witness :
  let added :=
    MemoryManager.add_to_memory sample_provider sample_distance
      no_fault no_fault (sample_env "uuid-9") "graphene" None None true
      sample_library in
  exists self2,
    MemoryManager.delete_memory never_fails no_fault "uuid-9" added.1
      = (self2, Py.Return true) /\
    MemoryManager.collection self2 = MemoryManager.collection sample_library.
Proof.
  intros added.
  destruct (add_then_delete_restores sample_provider sample_distance
              no_fault no_fault never_fails no_fault
              (sample_env "uuid-9") "graphene" None None true
              sample_library added.1 "uuid-9")
    as (self2 & Hdelete & Hsame & _).
  - vm_compute. reflexivity.
  - intros (d & Hd & Hid). simpl in Hd.
    destruct Hd as [<- | [<- | [<- | []]]]; discriminate.
  - reflexivity.
  - reflexivity.
  - exists self2. split; assumption.
Defined.

Lemma sample_library_unique :
  UniqueIds (MemoryManager.collection sample_library).
Proof.
  unfold UniqueIds. simpl.
  repeat (apply List.NoDup_cons;
          [simpl; intuition discriminate|]).
  apply List.NoDup_nil.
Qed.

Lemma mark_as_important_marks_witness :
  exists g',
    (MemoryManager.mark_as_important sample_provider no_fault never_fails
       no_fault "doc-0" sample_library).2 = Py.Return true /\
    MemoryManager.collection
      (MemoryManager.mark_as_important sample_provider no_fault never_fails
         no_fault "doc-0" sample_library).1
    = MemoryManager.collection
        (MemoryManager.mk
           [Document.mk "doc-1" "solid state" 11
              (<["source" := Py.JStr "user_input"]>
                 (stamped_at "2026-01-01T00:00:00"));
            Document.mk "doc-2" "lithium" 7
              (<["important" := Py.JBool true]>
                 (stamped_at "2025-06-01T00:00:00"));
            Document.mk "doc-0" "tesla" 5
              (<["important" := Py.JBool true]>
                 (<["source" := Py.JStr "web_search"]>
                    (stamped_at "2025-06-01T00:00:00")))] g').
Proof.
  destruct (mark_as_important_marks sample_provider no_fault never_fails
              no_fault sample_library
              (Document.mk "doc-0" "tesla" 5
                 (<["source" := Py.JStr "web_search"]>
                    (stamped_at "2025-06-01T00:00:00"))) 5)
    as (g' & Hrun & _).
  - exact sample_library_unique.
  - simpl. now left.
  - reflexivity.
  - reflexivity.
  - reflexivity.
  - reflexivity.
  - reflexivity.
  - exists g'. simpl in Hrun. rewrite Hrun. split; reflexivity.
Defined.

(** When the engine refuses to store the marked copy, the original is already
    deleted: [mark_as_important] answers [False] and the document is lost. *)
Example mark_as_important_loses_document :
  let refuse (c : Chroma.collection (vector := Z)) (d : Document.t Z) :=
    Some Py.RuntimeError in
  let run :=
    MemoryManager.mark_as_important sample_provider refuse never_fails
      no_fault "doc-0" sample_library in
  run.2 = Py.Return false /\
  map Document.id (MemoryManager.collection run.1) = ["doc-1"; "doc-2"].
Proof. vm_compute. split; reflexivity. Qed.

Lemma cleanup_spares_witness :
  In (Document.mk "doc-2" "lithium" 7
        (<["important" := Py.JBool true]> (stamped_at "2025-06-01T00:00:00")))
     (MemoryManager.collection
        (MemoryManager.cleanup_old_memories never_fails no_fault
           "2025-12-02T00:00:00" true sample_library).1).
Proof.
  apply cleanup_spares.
  - exact sample_library_unique.
  - simpl. right. right. now left.
  - vm_compute. reflexivity.
Defined.

Lemma cleanup_result_witness :
  let run :=
    MemoryManager.cleanup_old_memories never_fails no_fault
      "2025-12-02T00:00:00" true sample_library in
  exists report,
    run.2 = Py.Return report /\
    MemoryManager.deleted report = 1 /\
    MemoryManager.kept report = 2 /\
    map Document.id (MemoryManager.collection run.1) = ["doc-1"; "doc-2"].
Proof.
  intros run.
  set (report := match run.2 with
                 | Py.Return r => r
                 | Py.Raise _ => MemoryManager.Build_cleanup_report 0 0 ""
                 end).
  destruct (cleanup_result never_fails no_fault "2025-12-02T00:00:00" true
              sample_library run.1 report)
    as (Hstore & Hdeleted & Hkept & _).
  - reflexivity.
  - reflexivity.
  - exact sample_library_unique.
  - vm_compute. reflexivity.
  - exists report. split; [vm_compute; reflexivity|].
    rewrite Hdeleted, Hkept, Hstore. vm_compute. repeat split.
Defined.

Lemma statistics_coherent_witness :
  let run :=
    MemoryManager.get_statistics never_fails sample_age sample_library in
  exists stats,
    run.2 = Py.Return stats /\
    MemoryManager.total_documents stats = 3 /\
    total_of (MemoryManager.by_source stats) = 3.
Proof.
  intros run.
  set (stats := match run.2 with
                | Py.Return s => s
                | Py.Raise _ =>
                    MemoryManager.Build_statistics 0 []
                      (MemoryManager.Build_date_counts 0 0 0 0) 0 0
                      (EmbeddingGenerator.CacheInfo.mk 0 0 0 0 0)
                end).
  destruct (statistics_coherent never_fails sample_age sample_library
              run.1 stats) as (_ & Htotal & _ & Hsources).
  - vm_compute. reflexivity.
  - exists stats. split; [vm_compute; reflexivity|].
    rewrite Hsources, Htotal. split; reflexivity.
Defined.

(** The statistics of the sample library: one document of the last day,
    two older than thirty days. *)
Example statistics_of_sample_library :
  match (MemoryManager.get_statistics never_fails sample_age sample_library).2 with
  | Py.Return stats =>
      MemoryManager.by_date stats
        = MemoryManager.Build_date_counts 1 1 1 2 /\
      MemoryManager.avg_text_length stats = 7
  | Py.Raise _ => False
  end.
Proof. vm_compute. split; reflexivity. Qed.

(** ** More on the retrieval merger *)

Section StableSort.
Import Py.
Context {A : Type}.
Variable le : A -> A -> bool.

(** Stability: the items of one class of equal keys come out in the order
    they went in. *)
Lemma insert_by_stable (p : A -> bool) (x : A) (l : list A) :
  (forall y, p x = true -> p y = true -> le x y = true) ->
  List.filter p (insert_by le x l)
    = if p x then x :: List.filter p l else List.filter p l.
Proof.
  intros Hclass. induction l as [|y l IH]; simpl; [reflexivity|].
  destruct (le x y) eqn:Hxy; simpl; [reflexivity|].
  rewrite IH. destruct (p x) eqn:Hx, (p y) eqn:Hy; try reflexivity.
  rewrite (Hclass y eq_refl Hy) in Hxy. discriminate.
Qed.

Lemma sorted_by_stable (p : A -> bool) (l : list A) :
  (forall x y, p x = true -> p y = true -> le x y = true) ->
  List.filter p (sorted_by le l) = List.filter p l.
Proof.
  intros Hclass. induction l as [|x l IH]; simpl; [reflexivity|].
  rewrite insert_by_stable by (intros y; apply Hclass).
  now rewrite IH.
Qed.

End StableSort.

Section MergerMore.
Import Py SearchAgent.

Lemma remove_duplicates_loop_again (results : list item)
    (seen_contents : list string) :
  remove_duplicates_loop (remove_duplicates_loop results [] seen_contents)
                         [] seen_contents
    = remove_duplicates_loop results [] seen_contents.
Proof.
  revert seen_contents. induction results as [|r rest IH]; intros s; simpl;
    [reflexivity|].
  destruct (falsy (content_of r)) eqn:Hf; [apply IH|].
  destruct (is_duplicate (content_of r) s) eqn:Hd; [apply IH|].
  rewrite (remove_duplicates_loop_acc rest [r]). simpl.
  rewrite Hf, Hd.
  rewrite (remove_duplicates_loop_acc _ [r]). simpl. now rewrite IH.
Qed.

Lemma remove_duplicates_loop_sublist (results : list item)
    (seen_contents : list string) :
  sublist (remove_duplicates_loop results [] seen_contents) results.
Proof.
  revert seen_contents. induction results as [|r rest IH]; intros s; simpl;
    [constructor|].
  destruct (falsy (content_of r)); [constructor; apply IH|].
  destruct (is_duplicate (content_of r) s); [constructor; apply IH|].
  rewrite (remove_duplicates_loop_acc rest [r]). simpl.
  constructor. apply IH.
Qed.

(** X19.  [_remove_duplicates] keeps a selection of the results in their
    order, the first result that has content always among them, and running
    it again on its own output removes nothing more. *)
Theorem remove_duplicates_selects (results : list item) :
  sublist (_remove_duplicates results) results /\
  _remove_duplicates (_remove_duplicates results) = _remove_duplicates results /\
  (forall r rest, results = r :: rest -> falsy (content_of r) = false ->
     exists kept, _remove_duplicates results = r :: kept).
Proof.
  rewrite !remove_duplicates_as_loop. split; [|split].
  - apply remove_duplicates_loop_sublist.
  - apply remove_duplicates_loop_again.
  - intros r rest -> Hf. simpl. rewrite Hf.
    rewrite (remove_duplicates_loop_acc rest [r]). simpl. eauto.
Qed.

(** X20.  [_merge_results] ranks: the merged list holds exactly the results
    that survive duplicate removal, in order of falling score (similarity
    for memory items, search score for web items), and items of equal score
    keep the order they had before, memory items first. *)
Theorem merge_results_ranked (now : string)
    (memory_results : list MemoryResult.t) (web_results : list WebResult.t) :
  let survivors := _remove_duplicates (tagged now memory_results web_results) in
  let merged := _merge_results now memory_results web_results in
  StronglySorted (fun a b => (sort_key b <= sort_key a)%Q) merged /\
  (forall x, In x merged <-> In x survivors) /\
  length merged = length survivors /\
  (forall score,
     List.filter (fun x => Qeq_bool (sort_key x) score) merged
       = List.filter (fun x => Qeq_bool (sort_key x) score) survivors).
Proof.
  cbn zeta. unfold _merge_results, sorted_reverse.
  split; [|split; [|split]].
  - apply (StronglySorted_weaken
             (fun a b => Qle_bool (sort_key b) (sort_key a) = true)).
    + intros x y H. now apply Qle_bool_iff.
    + apply sorted_by_sorted.
      * intros x y z Hxy Hyz. apply Qle_bool_iff.
        apply Qle_bool_iff in Hxy, Hyz. now apply (Qle_trans _ (sort_key y)).
      * intros x y Hxy. apply Qle_bool_iff.
        destruct (Qlt_le_dec (sort_key x) (sort_key y)) as [Hlt | Hle].
        -- now apply Qlt_le_weak.
        -- apply Qle_bool_iff in Hle. congruence.
  - intros x. apply sorted_by_In.
  - apply sorted_by_length.
  - intros score. apply sorted_by_stable.
    intros x y Hx Hy. apply Qeq_bool_iff in Hx, Hy. apply Qle_bool_iff.
    rewrite Hx, Hy. apply Qle_refl.
Qed.

(** A memory item and a web item of the same score: the memory item goes
    first. *)
Example merge_ranking_tie :
  map content_of
    (_merge_results "now"
       [MemoryResult.mk (Some "solid state cells") (Some (9 # 10)) None]
       [WebResult.mk (Some "battery prices fell") None None (Some (9 # 10))])
  = ["solid state cells"; "battery prices fell"].
Proof. reflexivity. Qed.

End MergerMore.

(** ** Searching with the memory store *)

Section SearchWithMemory.
Import Py SearchAgent.
Context {vector : Type}.
Variable provider : nat -> string -> option vector.
Variable distance : vector -> vector -> Q.
Variable query_fault : Chroma.collection (vector := vector) -> vector -> option exn.
Variable add_fault :
  Chroma.collection (vector := vector) -> Document.t vector -> option exn.
Variable tavily_search : string -> nat -> outcome (list WebResult.t).
Variable env_at : nat -> MemoryManager.environment.
Variable saved_at : nat -> string.
Variable now : string.

#[local] Set Default Proof Using "Type".

Abbreviation add_to_memory :=
  (MemoryManager.add_to_memory provider distance query_fault add_fault).
Abbreviation save_loop :=
  (SearchAgent.save_loop provider distance query_fault add_fault env_at saved_at).
Abbreviation _save_to_memory :=
  (SearchAgent._save_to_memory provider distance query_fault add_fault env_at
     saved_at).
Abbreviation search_with_memory :=
  (SearchAgent.search_with_memory provider distance query_fault add_fault
     tavily_search env_at saved_at now).

(** One [add_to_memory] adds at most one document, and none when it
    raises. *)
Lemma add_to_memory_count (env : MemoryManager.environment) (text : string)
    (metadata : option (gmap string json)) (document_id : option string)
    (check_dup : bool) (self : MemoryManager.t vector) :
  let run := add_to_memory env text metadata document_id check_dup self in
  Chroma.count (MemoryManager.collection run.1)
    = Chroma.count (MemoryManager.collection self) \/
  (Chroma.count (MemoryManager.collection run.1)
     = S (Chroma.count (MemoryManager.collection self)) /\
   exists new_id, run.2 = Return new_id).
Proof.
  cbn zeta. destruct (blank text) eqn:Hblank.
  { unfold MemoryManager.add_to_memory. rewrite Hblank. now left. }
  destruct (add_to_memory_spec provider distance query_fault add_fault
              env text metadata document_id self Hblank) as (stamped & Hspec).
  destruct (Hspec check_dup) as (g' & -> & _). clear Hspec.
  destruct (if check_dup then _ else None); [now left|].
  destruct (embedding_of _ _ _) as [q|]; [|now left].
  unfold Chroma.add. destruct (add_fault _ _); [now left|].
  destruct (existsb _ _); [now left|].
  right. simpl. unfold Chroma.count. rewrite length_app. simpl.
  split; [lia | eauto].
Qed.

Lemma save_loop_bounds (query : string) (web_results : list (nat * WebResult.t))
    (saved_count : Z) (manager : MemoryManager.t vector) :
  exists saved : Z,
    (save_loop query web_results saved_count manager).2 = Return saved /\
    saved_count <= saved
      <= saved_count + Z.of_nat (length (with_content (map snd web_results))) /\
    (Chroma.count (MemoryManager.collection manager)
     <= Chroma.count
          (MemoryManager.collection
             (save_loop query web_results saved_count manager).1))%nat /\
    Z.of_nat (Chroma.count
                (MemoryManager.collection
                   (save_loop query web_results saved_count manager).1))
      <= Z.of_nat (Chroma.count (MemoryManager.collection manager))
         + (saved - saved_count).
Proof.
  revert saved_count manager.
  induction web_results as [|[position result] rest IH];
    intros saved_count manager.
  - exists saved_count. simpl. repeat split; lia.
  - cbn [SearchAgent.save_loop map snd with_content List.filter].
    fold (with_content (map snd rest)).
    destruct (falsy (get_or (WebResult.content result) "")) eqn:Hf; simpl negb;
      cbv iota.
    + destruct (IH saved_count manager) as (saved & Hret & Hs & Hc1 & Hc2).
      exists saved. repeat split; try assumption; lia.
    + unfold bind at 1, try_except, bind, ret.
      match goal with
      | |- context [MemoryManager.add_to_memory _ _ _ _ ?e ?t ?m ?d ?c manager] =>
          pose proof (add_to_memory_count e t m d c manager) as Hadd;
          cbn zeta in Hadd;
          destruct (MemoryManager.add_to_memory _ _ _ _ e t m d c manager)
            as [manager1 [new_id|err]]
      end; simpl in Hadd |- *.
      * destruct (IH (saved_count + 1) manager1)
          as (saved & Hret & Hs & Hc1 & Hc2).
        exists saved. split; [exact Hret|].
        destruct Hadd as [Hadd | [Hadd _]]; repeat split; lia.
      * destruct (IH saved_count manager1) as (saved & Hret & Hs & Hc1 & Hc2).
        exists saved. split; [exact Hret|].
        destruct Hadd as [Hadd | [_ (new_id & Hbad)]]; [|discriminate].
        repeat split; lia.
Qed.

Lemma save_to_memory_returns (web_results : list WebResult.t)
    (query : string) (self : SearchAgent.t vector) :
  exists saved : Z, (_save_to_memory web_results query self).2 = Return saved.
Proof.
  unfold SearchAgent._save_to_memory.
  destruct (memory_manager self) as [manager|]; [|now exists 0].
  destruct (save_loop_bounds query (enumerate web_results) 0 manager)
    as (saved & Hret & _).
  destruct (SearchAgent.save_loop _ _ _ _ _ _ _ _ _ manager) as [manager1 r].
  now exists saved.
Qed.

(** X21.  [_save_to_memory] never raises.  The number it returns is at most
    the number of web results that have content, the store never shrinks,
    and it grows by at most the number returned; without a memory manager
    the answer is 0. *)
Theorem save_to_memory_counts (web_results : list WebResult.t)
    (query : string) (self : SearchAgent.t vector) :
  exists saved : Z,
    (_save_to_memory web_results query self).2 = Return saved /\
    0 <= saved <= Z.of_nat (length (with_content web_results)) /\
    stored_count self
      <= stored_count (_save_to_memory web_results query self).1
      <= stored_count self + saved /\
    (memory_manager self = None ->
     saved = 0 /\ (_save_to_memory web_results query self).1 = self).
Proof.
  unfold SearchAgent._save_to_memory, stored_count.
  destruct (memory_manager self) as [manager|] eqn:Hm.
  - destruct (save_loop_bounds query (enumerate web_results) 0 manager)
      as (saved & Hret & Hs & Hc1 & Hc2).
    rewrite enumerate_snd in Hs.
    destruct (SearchAgent.save_loop _ _ _ _ _ _ _ _ _ manager) as [manager1 r].
    simpl in *. exists saved. split; [exact Hret|].
    split; [lia|]. split; [lia | discriminate].
  - exists 0. simpl. rewrite Hm. repeat split; lia.
Qed.

Lemma merged_length (memory_results : list MemoryResult.t)
    (web_results : list WebResult.t) :
  (length (_merge_results now memory_results web_results)
   <= length memory_results + length web_results)%nat.
Proof.
  unfold _merge_results, sorted_reverse. rewrite sorted_by_length.
  unfold _remove_duplicates.
  destruct (tagged now memory_results web_results) as [|r rest] eqn:Ht;
    [simpl; lia|].
  pose proof (remove_duplicates_loop_length (r :: rest) [] []) as Hlen.
  pose proof (List.filter_length_le
                (fun r => negb (falsy (content_of r))) (r :: rest)) as Hf.
  assert (length (r :: rest) = (length memory_results + length web_results)%nat)
    as Htotal.
  { rewrite <- Ht. unfold tagged. now rewrite length_app, !length_map. }
  simpl length in Hlen at 2. lia.
Qed.

(** X22.  [search_with_memory] raises [ValueError] for a blank query and
    otherwise always returns.  It returns at most [max_results] memory
    results, and none when memory is switched off or missing; it goes to the
    web only when the memory results are fewer than [memory_threshold]; the
    merged list is [_merge_results] of the two lists returned; and the
    summary counts the three lists, the total never exceeding the two parts
    together. *)
Theorem search_with_memory_outcome (query : string)
    (use_memory save_to_memory : bool) (memory_threshold : Z)
    (max_results : nat) (self : SearchAgent.t vector) :
  if blank query
  then search_with_memory query use_memory save_to_memory memory_threshold
         max_results self = (self, Raise ValueError)
  else
    exists found,
      (search_with_memory query use_memory save_to_memory memory_threshold
         max_results self).2 = Return found /\
      SearchResults.query found = strip query /\
      (length (SearchResults.memory_results found) <= max_results)%nat /\
      (use_memory = false \/ memory_manager self = None ->
       SearchResults.memory_results found = []) /\
      (memory_threshold
         <= Z.of_nat (length (SearchResults.memory_results found)) ->
       SearchResults.web_results found = []) /\
      SearchResults.merged_results found
        = _merge_results now
            (map as_memory_result (SearchResults.memory_results found))
            (SearchResults.web_results found) /\
      SearchResults.source_summary found
        = SourceSummary.mk
            (Z.of_nat (length (SearchResults.memory_results found)))
            (Z.of_nat (length (SearchResults.web_results found)))
            (Z.of_nat (length (SearchResults.merged_results found))) /\
      (length (SearchResults.merged_results found)
       <= length (SearchResults.memory_results found)
          + length (SearchResults.web_results found))%nat.
Proof.
  unfold SearchAgent.search_with_memory.
  destruct (blank query); [reflexivity|].
  unfold bind at 1.
  set (recall := match (if use_memory then memory_manager self else None) with
                 | Some manager =>
                     match MemoryManager.search_memory provider distance
                             query_fault (strip query) max_results None manager with
                     | (manager', Return found) => (mk (Some manager'), Return found)
                     | (manager', Raise _) => (mk (Some manager'), Return [])
                     end
                 | None => (self, Return [])
                 end).
  assert (exists self1 memory_results,
            recall = (self1, Return memory_results) /\
            (length memory_results <= max_results)%nat /\
            (use_memory = false \/ memory_manager self = None ->
             memory_results = [])) as (self1 & memory_results & -> & Hlen & Hoff).
  { subst recall.
    destruct (if use_memory then memory_manager self else None)
      as [manager|] eqn:Hm.
    - destruct (search_memory_bounded provider distance query_fault
                  (strip query) max_results None manager) as [_ Hbound].
      destruct (MemoryManager.search_memory _ _ _ _ _ _ manager)
        as [manager' [found|e]].
      + exists (mk (Some manager')), found. split; [reflexivity|].
        split; [now apply Hbound|].
        intros [-> | Hnone]; [discriminate|].
        destruct use_memory; congruence.
      + exists (mk (Some manager')), []. split; [reflexivity|].
        split; [simpl; lia | reflexivity].
    - exists self, []. split; [reflexivity|]. split; [simpl; lia | reflexivity]. }
  unfold bind at 1.
  match goal with
  | |- context [let (s', o) := ?f self1 in _] => set (fetch := f self1)
  end.
  assert (exists self2 web_results,
            fetch = (self2, Return web_results) /\
            (memory_threshold <= Z.of_nat (length memory_results) ->
             web_results = [])) as (self2 & web_results & -> & Hskip).
  { subst fetch.
    destruct (Z.ltb_spec (Z.of_nat (length memory_results)) memory_threshold)
      as [Hlt | Hge].
    - unfold try_except, bind at 1.
      destruct (tavily_search (strip query) max_results) as [web|e].
      + unfold bind at 1, gets. unfold bind at 1.
        destruct (save_to_memory && _).
        * unfold bind at 1.
          destruct (save_to_memory_returns web (strip query) self1)
            as (saved & Hsaved).
          destruct (_save_to_memory web (strip query) self1) as [self2 r].
          simpl in Hsaved. subst r. exists self2, web.
          split; [reflexivity | lia].
        * exists self1, web. split; [reflexivity | lia].
      + exists self1, []. split; [reflexivity | reflexivity].
    - exists self1, []. split; [reflexivity | reflexivity]. }
  unfold ret. simpl. eexists. split; [reflexivity|]. simpl.
  repeat split; try assumption.
  pose proof (merged_length (map as_memory_result memory_results) web_results)
    as Hmerged.
  now rewrite length_map in Hmerged.
Qed.

End SearchWithMemory.

(** [_save_to_memory] counts a web result whose content is already stored:
    of two results with the same content both are counted, one is stored. *)
Example save_to_memory_counts_known_content :
  let web :=
    match sample_web "battery prices" 3 with
    | Py.Return results => results
    | Py.Raise _ => []
    end in
  let run :=
    SearchAgent._save_to_memory sample_provider sample_distance no_fault
      no_fault sample_env_at (fun _ => "2026-01-01T00:00:00")
      web "battery prices" sample_agent in
  run.2 = Py.Return 2 /\
  stored_count run.1 = stored_count sample_agent + 1.
Proof. vm_compute. split; reflexivity. Qed.

(** With three memory results asked for and found, the web is not
    searched; with a threshold of four it is, and the results are merged. *)
Example search_with_memory_threshold :
  let search threshold :=
    (SearchAgent.search_with_memory sample_provider sample_distance no_fault
       no_fault sample_web sample_env_at (fun _ => "2026-01-01T00:00:00")
       "2026-01-01T00:00:00" " tesla " true false threshold 3 sample_agent).2 in
  match search 3, search 4 with
  | Py.Return enough, Py.Return short =>
      SearchAgent.SearchResults.source_summary enough = SearchAgent.SourceSummary.mk 3 0 3 /\
      SearchAgent.SearchResults.source_summary short = SearchAgent.SourceSummary.mk 3 3 4
  | _, _ => False
  end.
Proof. vm_compute. split; reflexivity. Qed.

(** ** More on the pipeline coordinator *)

Section CoordinatorMore.
Import Py ResearchCoordinator.
Variable researcher : string -> outcome research_data.
Variable analyzer : option research_data -> outcome analysis.
Variable writer : nat -> writer_input -> outcome draft.
Variable critic : nat -> critic_input -> outcome QualityCritic.review.
Variable max_revision_rounds : Z.

#[local] Set Default Proof Using "Type".

Lemma rounds_bounds (round_nums : list nat) (topic : string)
    (research : option research_data) (analysed : option analysis)
    (st : loop_state) :
  let final := rounds writer critic round_nums topic research analysed st in
  (l_write_calls st <= l_write_calls final
   <= l_write_calls st + length round_nums)%nat /\
  l_revision_count st <= l_revision_count final /\
  l_revision_count final - l_revision_count st
    <= Z.of_nat (l_write_calls final - l_write_calls st) /\
  Z.of_nat (l_write_calls final - l_write_calls st)
    <= l_revision_count final - l_revision_count st + 1.
Proof.
  revert st. induction round_nums as [|round_num rest IH]; intros st;
    cbn zeta; cbn [rounds].
  - repeat split; lia.
  - destruct (writer _ _) as [new_draft|e]; [|simpl; repeat split; lia].
    destruct (critic _ _) as [new_review|e]; [|simpl; repeat split; lia].
    destruct (QualityCritic.pass new_review); [simpl; repeat split; lia|].
    match goal with
    | |- context [rounds _ _ rest _ _ _ ?s] => specialize (IH s)
    end.
    cbn zeta in IH. simpl in IH |- *. repeat split; lia.
Qed.

(** X23.  Whatever the four stages do, [run] makes at most
    [max_revision_rounds + 1] calls of the Write stage, and the
    [revision_count] it returns is never negative, never more than the number
    of Write calls and never less than that number minus one. *)
Theorem run_bounds (topic : string) :
  let result := run researcher analyzer writer critic max_revision_rounds topic in
  let writes :=
    Z.of_nat (write_calls researcher analyzer writer critic max_revision_rounds
                          topic) in
  0 <= writes <= Z.max 0 (max_revision_rounds + 1) /\
  0 <= r_revision_count result <= writes /\
  writes <= r_revision_count result + 1.
Proof.
  cbn zeta. unfold run, write_calls, run_loop.
  match goal with
  | |- context [rounds _ _ ?ns ?t ?r ?a ?s] =>
      pose proof (rounds_bounds ns t r a s) as H
  end.
  cbn zeta in H. rewrite length_seq in H. simpl in H |- *. lia.
Qed.

Lemma rounds_until_pass (count first later : nat) (topic : string)
    (research : option research_data) (analysed : option analysis)
    (st : loop_state) :
  (forall n input, exists d, writer n input = Return d) ->
  PassesAfter critic first count ->
  let final :=
    rounds writer critic (seq first (S count + later)) topic research analysed
           st in
  l_write_calls final = (l_write_calls st + S count)%nat /\
  l_revision_count final = l_revision_count st + Z.of_nat count.
Proof.
  intros Hwrite. revert first st.
  induction count as [|count IH]; intros first st [Hfail Hpass]; cbn zeta.
  - cbn [seq Nat.add rounds].
    match goal with
    | |- context [writer ?n ?i] => destruct (Hwrite n i) as [d ->]
    end.
    rewrite Nat.add_0_r in Hpass.
    destruct (Hpass (mk_critic_input topic (report d))) as (r & -> & ->).
    simpl. split; lia.
  - change (seq first (S (S count) + later))
      with (first :: seq (S first) (S count + later)).
    cbn [rounds].
    match goal with
    | |- context [writer ?n ?i] => destruct (Hwrite n i) as [d ->]
    end.
    destruct (Hfail first (mk_critic_input topic (report d))) as (r & -> & ->);
      [lia|].
    match goal with
    | |- context [rounds _ _ _ _ _ _ ?s] =>
        destruct (IH (S first) s) as [H1 H2]
    end.
    + split.
      * intros j input Hj. apply Hfail. lia.
      * intros input. replace (S first + count)%nat with (first + S count)%nat
          by lia. apply Hpass.
    + simpl in H1, H2 |- *. split; lia.
Qed.

(** X24.  The loop stops at the first review that passes: when the Write
    stage never raises and the Critique stage fails the first [count] drafts
    and passes the next one, within the budget, [run] makes [count + 1]
    Write calls and returns [revision_count = count]. *)
Theorem run_stops_at_first_pass (topic : string) (count : nat) :
  (forall n input, exists d, writer n input = Return d) ->
  PassesAfter critic 0 count ->
  Z.of_nat count <= max_revision_rounds ->
  write_calls researcher analyzer writer critic max_revision_rounds topic
    = S count /\
  r_revision_count
    (run researcher analyzer writer critic max_revision_rounds topic)
    = Z.of_nat count.
Proof.
  intros Hwrite Hpass Hbudget. unfold write_calls, run, run_loop.
  replace (Z.to_nat (max_revision_rounds + 1))
    with (S count + (Z.to_nat (max_revision_rounds + 1) - S count))%nat by lia.
  match goal with
  | |- context [rounds _ _ (seq 0 (_ + ?later)) ?t ?r ?a ?s] =>
      pose proof (rounds_until_pass count 0 later t r a s Hwrite Hpass) as H
  end.
  cbn zeta in H. destruct H as [H1 H2]. simpl in H1, H2 |- *.
  split; [exact H1 | lia].
Qed.

Lemma rounds_reviewed (round_nums : list nat) (topic : string)
    (research : option research_data) (analysed : option analysis)
    (st : loop_state) :
  AlwaysReturn writer critic ->
  round_nums <> [] ->
  let final := rounds writer critic round_nums topic research analysed st in
  exists round_num,
    In round_num round_nums /\
    critic round_num (mk_critic_input topic (report (l_draft final)))
      = Return (l_review final).
Proof.
  intros [Hwrite Hcritic]. revert st.
  induction round_nums as [|round_num rest IH]; intros st Hne; [congruence|].
  cbn zeta. cbn [rounds].
  match goal with
  | |- context [writer ?n ?i] => destruct (Hwrite n i) as [d ->]
  end.
  destruct (Hcritic round_num (mk_critic_input topic (report d))) as [r Hr].
  rewrite Hr. destruct (QualityCritic.pass r) eqn:Hp.
  - exists round_num. simpl. split; [now left | exact Hr].
  - destruct rest as [|next rest].
    + exists round_num. simpl. split; [now left | exact Hr].
    + match goal with
      | |- context [rounds _ _ _ _ _ _ ?s] =>
          destruct (IH s) as (k & Hk & Hrev); [discriminate|]
      end.
      exists k. split; [now right | exact Hrev].
Qed.

(** X25.  When the Write and Critique stages never raise and at least one
    round is run, the score and the dimension scores [run] returns are the
    Critique stage's review of the very report it returns. *)
Theorem run_score_is_of_report (topic : string) :
  AlwaysReturn writer critic ->
  0 <= max_revision_rounds ->
  let result := run researcher analyzer writer critic max_revision_rounds topic in
  exists round_num review,
    (Z.of_nat round_num <= max_revision_rounds) /\
    critic round_num (mk_critic_input (topic_used topic) (r_report result))
      = Return review /\
    r_score result = QualityCritic.overall_score review /\
    r_scores result = QualityCritic.scores review.
Proof.
  intros Halways Hbudget. cbn zeta. unfold run, run_loop.
  fold (topic_used topic).
  match goal with
  | |- context [rounds _ _ ?ns ?t ?r ?a ?s] =>
      destruct (rounds_reviewed ns t r a s Halways) as (k & Hk & Hrev)
  end.
  { replace (Z.to_nat (max_revision_rounds + 1))
      with (S (Z.to_nat max_revision_rounds)) by lia. discriminate. }
  apply in_seq in Hk. simpl.
  eexists k, _. split; [lia|]. split; [exact Hrev|]. split; reflexivity.
Qed.

(** X26.  When the first call of the Write stage raises, [run] still
    returns: an empty report with score 0, no dimension scores and no
    revision, after that single Write call at most. *)
Theorem run_without_draft (topic : string) :
  (forall input, exists e, writer 0%nat input = Raise e) ->
  let result := run researcher analyzer writer critic max_revision_rounds topic in
  r_report result = "" /\
  r_score result = Float.zero /\
  r_scores result = [] /\
  r_revision_count result = 0 /\
  (write_calls researcher analyzer writer critic max_revision_rounds topic
   <= 1)%nat.
Proof.
  intros Hfail. cbn zeta. unfold run, write_calls, run_loop.
  destruct (Z.to_nat (max_revision_rounds + 1)) as [|n]; simpl.
  - repeat split; lia.
  - match goal with
    | |- context [writer 0%nat ?i] => destruct (Hfail i) as [e ->]
    end.
    simpl. repeat split; lia.
Qed.

End CoordinatorMore.

Lemma run_stops_at_first_pass_witness :
  ResearchCoordinator.write_calls sample_researcher sample_analyzer
    sample_writer second_time_critic 2 "electric vehicle battery trends" = 2%nat /\
  ResearchCoordinator.r_revision_count
    (ResearchCoordinator.run sample_researcher sample_analyzer
       sample_writer second_time_critic 2 "electric vehicle battery trends") = 1.
Proof.
  apply (run_stops_at_first_pass sample_researcher sample_analyzer
           sample_writer second_time_critic 2 "electric vehicle battery trends"
           1).
  - intros n input. eexists. reflexivity.
  - split.
    + intros j input Hj. assert (j = 0%nat) as -> by lia.
      eexists. split; reflexivity.
    + intros input. eexists. split; reflexivity.
  - lia.
Defined.

Lemma run_score_is_of_report_witness :
  exists round_num review,
    Z.of_nat round_num <= 2 /\
    second_time_critic round_num
      (ResearchCoordinator.mk_critic_input "electric vehicle battery trends"
         "revised report") = Py.Return review /\
    QualityCritic.overall_score review = Py.Float.of_Q (78 # 10).
Proof.
  destruct (run_score_is_of_report sample_researcher sample_analyzer
              sample_writer second_time_critic 2
              "electric vehicle battery trends")
    as (round_num & review & Hround & Hreview & Hscore & _).
  - split; intros n input; [eexists; reflexivity|].
    destruct n; eexists; reflexivity.
  - lia.
  - exists round_num, review. split; [exact Hround|].
    split; [exact Hreview|]. rewrite <- Hscore. reflexivity.
Defined.

Lemma run_without_draft_witness :
  ResearchCoordinator.r_report
    (ResearchCoordinator.run sample_researcher sample_analyzer failing_writer
       failing_critic 2 "electric vehicle battery trends") = "" /\
  ResearchCoordinator.r_revision_count
    (ResearchCoordinator.run sample_researcher sample_analyzer failing_writer
       failing_critic 2 "electric vehicle battery trends") = 0.
Proof.
  destruct (run_without_draft sample_researcher sample_analyzer failing_writer
              failing_critic 2 "electric vehicle battery trends")
    as (Hreport & _ & _ & Hcount & _).
  - intros input. eexists. reflexivity.
  - split; assumption.
Defined.

(** When the Critique stage raises in a later round, the report returned is
    the last draft while the score is still the review of the draft before
    it. *)
Example run_score_of_earlier_draft :
  let result :=
    ResearchCoordinator.run sample_researcher sample_analyzer sample_writer
      breaking_critic 2 "electric vehicle battery trends" in
  ResearchCoordinator.r_report result = "revised report" /\
  ResearchCoordinator.r_score result = Py.Float.of_Q (65 # 10) /\
  ResearchCoordinator.r_revision_count result = 1.
Proof. vm_compute. repeat split. Qed.

(** ** Research stage *)

Section Research.
Import Py ResearchAgent.
Context {vector : Type}.
Variable provider : nat -> string -> option vector.
Variable distance : vector -> vector -> Q.
Variable query_fault : Chroma.collection (vector := vector) -> vector -> option exn.
Variable search : nat -> string -> outcome searched.
Variable render : json -> string.

#[local] Set Default Proof Using "Type".





End Research.

(** The reply may leave the stage without any query: a list of queries that
    holds only empty entries is not replaced by the topic. *)
Example generate_search_queries_can_be_empty :
  ResearchAgent._generate_search_queries (fun _ => EmptyString) "batteries"
    [("queries", Py.JList [Py.JStr ""; Py.JNull])] = [] /\
  ResearchAgent._generate_search_queries (fun _ => EmptyString) "batteries"
    [("queries", Py.JList [])] = ["batteries"].
Proof. split; reflexivity. Qed.

(** ** Saving search results from a conversation *)

Section Conversation.
Import Py ConversationManager.
Context {vector : Type}.
Variable provider : nat -> string -> option vector.
Variable distance : vector -> vector -> Q.
Variable query_fault : Chroma.collection (vector := vector) -> vector -> option exn.
Variable add_fault :
  Chroma.collection (vector := vector) -> Document.t vector -> option exn.
Variable env_at : nat -> MemoryManager.environment.

#[local] Set Default Proof Using "Type".

Lemma save_results_loop_bounds (user_query : string)
    (merged_results : list (nat * SearchAgent.item)) (saved_count : Z)
    (manager : MemoryManager.t vector) :
  let run :=
    save_results_loop provider distance query_fault add_fault env_at
      user_query merged_results saved_count manager in
  exists saved : Z,
    run.2 = Return saved /\
    saved_count <= saved
      <= saved_count
         + Z.of_nat (length (from_the_web (map snd merged_results))) /\
    (Chroma.count (MemoryManager.collection manager)
     <= Chroma.count (MemoryManager.collection run.1))%nat /\
    Z.of_nat (Chroma.count (MemoryManager.collection run.1))
      <= Z.of_nat (Chroma.count (MemoryManager.collection manager))
         + (saved - saved_count).
Proof.
  revert saved_count manager.
  induction merged_results as [|[position result] rest IH];
    intros saved_count manager; cbn zeta.
  - exists saved_count. simpl. repeat split; lia.
  - cbn [save_results_loop map snd from_the_web List.filter].
    fold (from_the_web (map snd rest)).
    destruct result as [content similarity metadata prov
                       |content url title score prov].
    + destruct (IH saved_count manager) as (saved & Hret & Hs & Hc1 & Hc2).
      exists saved. repeat split; try assumption; lia.
    + unfold bind at 1, try_except, bind, ret.
      match goal with
      | |- context [MemoryManager.add_to_memory _ _ _ _ ?e ?t ?m ?d ?c manager] =>
          pose proof (add_to_memory_count provider distance query_fault
                        add_fault e t m d c manager) as Hadd;
          cbn zeta in Hadd;
          destruct (MemoryManager.add_to_memory _ _ _ _ e t m d c manager)
            as [manager1 [new_id|err]]
      end; simpl in Hadd |- *.
      * destruct (IH (saved_count + 1) manager1)
          as (saved & Hret & Hs & Hc1 & Hc2).
        exists saved. split; [exact Hret|].
        destruct Hadd as [Hadd | [Hadd _]]; repeat split; lia.
      * destruct (IH saved_count manager1) as (saved & Hret & Hs & Hc1 & Hc2).
        exists saved. split; [exact Hret|].
        destruct Hadd as [Hadd | [_ (new_id & Hbad)]]; [|discriminate].
        repeat split; lia.
Qed.

(** X29.  [save_search_result_to_memory] never raises.  It looks at the
    first five merged results only and passes over those that came from
    memory: the number it returns is at most the number of web results among
    these five, the store never shrinks, and it grows by at most the number
    returned; without a memory manager the answer is 0. *)
Theorem save_search_result_counts (merged_results : list SearchAgent.item)
    (user_query : string) (self : ConversationManager.t vector) :
  let run :=
    save_search_result_to_memory provider distance query_fault add_fault
      env_at merged_results user_query self in
  exists saved : Z,
    run.2 = Return saved /\
    0 <= saved <= Z.of_nat (length (from_the_web (take 5 merged_results))) /\
    saved <= 5 /\
    remembered self <= remembered run.1 <= remembered self + saved /\
    (memory_manager self = None -> saved = 0 /\ run.1 = self).
Proof.
  cbn zeta. unfold save_search_result_to_memory, remembered.
  assert (length (from_the_web (take 5 merged_results)) <= 5)%nat as Hfive.
  { unfold from_the_web.
    etransitivity; [apply List.filter_length_le|].
    rewrite length_take. lia. }
  destruct (memory_manager self) as [manager|] eqn:Hm.
  - destruct (save_results_loop_bounds user_query
                (enumerate (take 5 merged_results)) 0 manager)
      as (saved & Hret & Hs & Hc1 & Hc2).
    rewrite enumerate_snd in Hs.
    destruct (save_results_loop _ _ _ _ _ _ _ _ manager) as [manager1 r].
    simpl in *. exists saved. split; [exact Hret|].
    split; [lia|]. split; [lia|]. split; [lia | discriminate].
  - exists 0. simpl. rewrite Hm. repeat split; lia.
Qed.

End Conversation.
